(** * Backtesting and validation engine of the gold deep-test tool

    A shallow embedding of [deeptest/backtester.py], [deeptest/metrics.py],
    [deeptest/strategy_template.py] and [deeptest/deep_test.py].

    Conventions of the embedding.
    - A float cell of a pandas object is a [Val]: [None] is NaN (a missing
      value), [Some q] is a finite number, with the arithmetic carried out
      exactly over the rationals (rounding and overflow are not modelled).
    - A quotient or a power can leave the finite numbers even on finite
      data; such scalars are [xval]s, with both infinities.
    - A [Series] is the list of its (label, value) pairs, a [DataFrame] the
      list of its column names and of its labelled rows.
    - A raised exception is an [Err] result; the three failures the
      repository raises itself carry the names the specification gives them. *)

From Stdlib Require Import ZArith QArith Qabs Qround Qminmax Lia Lqa List String.
From stdpp Require Import base decidable list strings.
Import ListNotations.

Local Open Scope Q_scope.

(** ** Failures *)

Inductive error : Type :=
  | MissingDataError        (* backtester.py: ValueError on RetSimple *)
  | EmptySeriesError        (* metrics.py: ValueError "empty equity curve" *)
  | EmptyGridError          (* deep_test.py: the failed [assert best is not None] *)
  | KeyError (name : string)      (* [df[name]] on an absent column *)
  | DuplicateLabels         (* pandas: reindex on an axis with duplicate labels *)
  | LengthMismatch          (* pandas: column assignment of the wrong length *)
  | EmptyConcatenate        (* numpy: concatenate of an empty sequence *)
  | NegativeWindow          (* pandas: rolling window below zero *)
  | IndexOutOfRange         (* list index out of range *)
  | DanglingFrame           (* a frame reference that no store cell holds *)
  | NonTermination.         (* a loop that never leaves *)

Inductive result (A : Type) : Type :=
  | Ok (a : A)
  | Err (e : error).
Arguments Ok {A} a.
Arguments Err {A} e.

Definition rbind {A B} (m : result A) (k : A -> result B) : result B :=
  match m with
  | Ok a => k a
  | Err e => Err e
  end.

Notation "'try' x <- m ; k" := (rbind m (fun x => k))
  (at level 10, x name, m at level 100, k at level 200).
Notation "'try' ' p <- m ; k" := (rbind m (fun x => let p := x in k))
  (at level 10, p strict pattern, m at level 100, k at level 200).

Definition is_ok {A} (m : result A) : bool :=
  match m with Ok _ => true | Err _ => false end.

Definition error_of {A} (m : result A) : option error :=
  match m with Ok _ => None | Err e => Some e end.

(** Number of rows of a returned table. *)
Definition row_count {A} (m : result (list A)) : option nat :=
  match m with Ok rows => Some (length rows) | Err _ => None end.

(** ** Numbers *)

(** A cell: NaN or a finite number. *)
Abbreviation Val := (option Q).

Definition vlift2 (f : Q -> Q -> Q) (a b : Val) : Val :=
  match a, b with
  | Some x, Some y => Some (f x y)
  | _, _ => None
  end.

Definition vmul : Val -> Val -> Val := vlift2 Qmult.
Definition vsub : Val -> Val -> Val := vlift2 Qminus.
Definition vadd : Val -> Val -> Val := vlift2 Qplus.
Definition vabs (a : Val) : Val := option_map Qabs a.
Definition visna (a : Val) : bool :=
  match a with None => true | Some _ => false end.
Definition vfillna (c : Q) (a : Val) : Val :=
  match a with None => Some c | Some x => Some x end.

(** Equality of cells up to the value of the fraction. *)
Definition veq (a b : Val) : Prop :=
  match a, b with
  | Some x, Some y => x == y
  | None, None => True
  | _, _ => False
  end.

(** A float scalar that may be infinite. *)
Inductive xval : Type :=
  | XNaN
  | XInf (negative : bool)
  | XFin (q : Q).

Definition x_of_val (a : Val) : xval :=
  match a with None => XNaN | Some q => XFin q end.

Definition Qltb (a b : Q) : bool := negb (Qle_bool b a).
Definition Qzerob (a : Q) : bool := Qeq_bool a 0.

(** [a / b] on floats. *)
Definition xdiv (a b : xval) : xval :=
  match a, b with
  | XNaN, _ | _, XNaN => XNaN
  | XInf _, XInf _ => XNaN
  | XInf s, XFin y => XInf (xorb s (Qltb y 0))
  | XFin _, XInf _ => XFin 0
  | XFin x, XFin y =>
      if Qzerob y then (if Qzerob x then XNaN else XInf (Qltb x 0))
      else XFin (x / y)
  end.

(** [a - b] and [a + b] on floats. *)
Definition xsub (a b : xval) : xval :=
  match a, b with
  | XNaN, _ | _, XNaN => XNaN
  | XInf s, XInf t => if Bool.eqb s t then XNaN else XInf s
  | XInf s, XFin _ => XInf s
  | XFin _, XInf t => XInf (negb t)
  | XFin x, XFin y => XFin (x - y)
  end.

Definition xadd (a b : xval) : xval :=
  match a, b with
  | XNaN, _ | _, XNaN => XNaN
  | XInf s, XInf t => if Bool.eqb s t then XInf s else XNaN
  | XInf s, XFin _ => XInf s
  | XFin _, XInf t => XInf t
  | XFin x, XFin y => XFin (x + y)
  end.

(** [a > b] and [a >= b] on floats: false as soon as one side is NaN. *)
Definition xgtb (a b : xval) : bool :=
  match a, b with
  | XNaN, _ | _, XNaN => false
  | XInf s, XInf t => negb s && t
  | XInf s, XFin _ => negb s
  | XFin _, XInf t => t
  | XFin x, XFin y => Qltb y x
  end.

Definition xgeb (a b : xval) : bool :=
  match a, b with
  | XNaN, _ | _, XNaN => false
  | XInf s, XInf t => negb s || t
  | XInf s, XFin _ => negb s
  | XFin _, XInf t => t
  | XFin x, XFin y => Qle_bool y x
  end.

Definition xltb (a b : xval) : bool := xgtb b a.

(** ** Timestamps *)

(** A timestamp by its calendar fields; [nanos] is the time of day. *)
Record Timestamp : Type := mkTs {
  year : Z;
  month : Z;
  day : Z;
  nanos : Z
}.

Global Instance Timestamp_eq_dec : EqDecision Timestamp.
Proof. solve_decision. Defined.

Definition ts_compare (a b : Timestamp) : comparison :=
  match Z.compare (year a) (year b) with
  | Eq =>
      match Z.compare (month a) (month b) with
      | Eq =>
          match Z.compare (day a) (day b) with
          | Eq => Z.compare (nanos a) (nanos b)
          | c => c
          end
      | c => c
      end
  | c => c
  end.

Definition ts_ltb (a b : Timestamp) : bool :=
  match ts_compare a b with Lt => true | _ => false end.
Definition ts_leb (a b : Timestamp) : bool :=
  match ts_compare a b with Gt => false | _ => true end.
Definition ts_geb (a b : Timestamp) : bool := ts_leb b a.
Definition ts_min (a b : Timestamp) : Timestamp := if ts_leb a b then a else b.
Definition ts_max (a b : Timestamp) : Timestamp := if ts_leb a b then b else a.

Definition is_leap (y : Z) : bool :=
  ((y mod 4 =? 0) && negb (y mod 100 =? 0) || (y mod 400 =? 0))%Z.

Definition days_in_month (y m : Z) : Z :=
  (if m =? 2 then (if is_leap y then 29 else 28)
   else if (m =? 4) || (m =? 6) || (m =? 9) || (m =? 11) then 30
   else 31)%Z.

(** [t + pd.DateOffset(years=k)]: the year moves, the day is clipped to the
    length of the month reached (29 February lands on the 28th). *)
Definition add_years (t : Timestamp) (k : Z) : Timestamp :=
  let y := (year t + k)%Z in
  mkTs y (month t) (Z.min (day t) (days_in_month y (month t))) (nanos t).

(** Days since 1970-01-01 of a calendar date. *)
Definition days_from_civil (y m d : Z) : Z :=
  (let y' := if m <=? 2 then y - 1 else y in
   let era := y' / 400 in
   let yoe := y' - era * 400 in
   let mp := (m + 9) mod 12 in
   let doy := (153 * mp + 2) / 5 + d - 1 in
   let doe := yoe * 365 + yoe / 4 - yoe / 100 + doy in
   era * 146097 + doe - 719468)%Z.

Definition ns_per_day : Z := 86400000000000.

Definition ts_ns (t : Timestamp) : Z :=
  (days_from_civil (year t) (month t) (day t) * ns_per_day + nanos t)%Z.

(** [(b - a).days]: whole days of the difference, rounded down. *)
Definition days_between (a b : Timestamp) : Z :=
  ((ts_ns b - ts_ns a) / ns_per_day)%Z.

(** ** Series and frames *)

Abbreviation Index := (list Timestamp).
Abbreviation Series := (list (Timestamp * Val)).

Definition index {A} (s : list (Timestamp * A)) : Index := map fst s.
Definition values {A} (s : list (Timestamp * A)) : list A := map snd s.

Definition series_map (f : Val -> Val) (s : Series) : Series :=
  map (fun p => (fst p, f (snd p))) s.

Definition fillna (c : Q) : Series -> Series := series_map (vfillna c).
Definition series_abs : Series -> Series := series_map vabs.
(** [s * c], [c + s] for a scalar [c]. *)
Definition series_scale (s : Series) (c : Q) : Series :=
  series_map (fun v => vmul v (Some c)) s.
Definition series_radd (c : Q) (s : Series) : Series :=
  series_map (fun v => vadd (Some c) v) s.

(** [s.isna().all()]; true on the empty series. *)
Definition all_na (s : Series) : bool := forallb visna (values s).

(** First value under a label, [d] when the label is absent. *)
Fixpoint lookup_label {A} (d : A) (s : list (Timestamp * A)) (t : Timestamp)
    : A :=
  match s with
  | [] => d
  | (t', v) :: r => if decide (t' = t) then v else lookup_label d r t
  end.

Definition take_labels {A} (d : A) (s : list (Timestamp * A)) (idx : Index)
    : list (Timestamp * A) :=
  map (fun t => (t, lookup_label d s t)) idx.

(** [s.reindex(idx)]: the series itself when it already has that index;
    otherwise its values looked up label by label, NaN where the label is
    missing, which pandas refuses when the labels of [s] repeat. *)
Definition reindex (s : Series) (idx : Index) : result Series :=
  if decide (index s = idx) then Ok s
  else if decide (NoDup (index s)) then Ok (take_labels None s idx)
  else Err DuplicateLabels.

(** [s.shift(1)]: every value moves one row down, the first row gets NaN. *)
Fixpoint shift_from (prev : Val) (s : Series) : Series :=
  match s with
  | [] => []
  | (t, v) :: r => (t, prev) :: shift_from v r
  end.
Definition shift1 (s : Series) : Series := shift_from None s.

(** The value that [shift_from p] brings to row [i]. *)
Definition shifted_value (p : Val) (s : Series) (i : nat) : Val :=
  match i with
  | O => p
  | S j => match s !! j with Some (_, v) => v | None => None end
  end.

(** [s.cumprod()]: running product that skips NaN cells and leaves them NaN. *)
Fixpoint cumprod_from (acc : Q) (s : Series) : Series :=
  match s with
  | [] => []
  | (t, None) :: r => (t, None) :: cumprod_from acc r
  | (t, Some x) :: r => (t, Some (acc * x)) :: cumprod_from (acc * x) r
  end.
Definition cumprod (s : Series) : Series := cumprod_from 1 s.

(** Sorted union of two indexes, for operands that are not aligned. *)
Fixpoint ts_insert (t : Timestamp) (l : Index) : Index :=
  match l with
  | [] => [t]
  | u :: r =>
      match ts_compare t u with
      | Lt => t :: l
      | Eq => l
      | Gt => u :: ts_insert t r
      end
  end.
Definition union_index (a b : Index) : Index :=
  fold_right ts_insert [] (a ++ b).

Fixpoint zip_with_index {A B C} (f : A -> B -> C)
    (a : list (Timestamp * A)) (b : list (Timestamp * B))
    : list (Timestamp * C) :=
  match a, b with
  | (t, x) :: a', (_, y) :: b' => (t, f x y) :: zip_with_index f a' b'
  | _, _ => []
  end.

(** A binary operator of pandas: row by row when both operands carry the
    same index, after alignment on the union of the labels otherwise. *)
Definition series_binop {C} (f : Val -> Val -> C) (a b : Series)
    : list (Timestamp * C) :=
  if decide (index a = index b) then zip_with_index f a b
  else
    let idx := union_index (index a) (index b) in
    zip_with_index f (take_labels None a idx) (take_labels None b idx).

Definition series_mul : Series -> Series -> Series := series_binop vmul.
Definition series_sub : Series -> Series -> Series := series_binop vsub.

(** A row of a frame gives a cell for every column name. *)
Abbreviation Row := (string -> Val).

Record DataFrame : Type := mkFrame {
  df_columns : list string;
  df_rows : list (Timestamp * Row)
}.

Definition df_index (df : DataFrame) : Index := map fst (df_rows df).

Definition column_of (df : DataFrame) (name : string) : Series :=
  map (fun r => (fst r, snd r name)) (df_rows df).

(** [df.get(name)] *)
Definition df_get (df : DataFrame) (name : string) : option Series :=
  if decide (name ∈ df_columns df) then Some (column_of df name) else None.

(** [df[name]] *)
Definition df_getitem (df : DataFrame) (name : string) : result Series :=
  match df_get df name with
  | Some s => Ok s
  | None => Err (KeyError name)
  end.

(** ** backtester.py *)

Record CostModel : Type := mkCost {
  commission_bps : Q;
  slippage_bps : Q
}.

Definition default_cost : CostModel := mkCost 0 0.

Record BacktestResult : Type := mkResult {
  equity : Series;
  returns : Series;
  position : Series;
  turnover : Series;
  costs : Series
}.

(** The local variables of [run_backtest] after its guard. *)
Record BacktestLocals : Type := mkLocals {
  l_ret : Series;
  l_pos : Series;
  l_pos_shift : Series;
  l_pnl : Series;
  l_turnover : Series;
  l_costs : Series;
  l_net_ret : Series;
  l_equity : Series
}.

Definition backtest_locals (df : DataFrame) (position : Series)
    (cost : option CostModel) (starting_equity : Q) : result BacktestLocals :=
  let cost := match cost with Some c => c | None => default_cost end in
  match df_get df "RetSimple" with
  | None => Err MissingDataError
  | Some ret =>
      if all_na ret then Err MissingDataError
      else
        try pos0 <- reindex position (df_index df);
        let pos := fillna 0 pos0 in
        let pos_shift := fillna 0 (shift1 pos) in
        let pnl := series_mul pos_shift ret in
        let turnover := series_abs (series_sub pos pos_shift) in
        let per_trade_bps := commission_bps cost + slippage_bps cost in
        let costs := series_scale turnover (per_trade_bps / 10000) in
        let net_ret := series_sub pnl costs in
        let equity :=
          series_scale (cumprod (series_radd 1 net_ret)) starting_equity in
        Ok (mkLocals ret pos pos_shift pnl turnover costs net_ret equity)
  end.

Definition run_backtest (df : DataFrame) (position : Series)
    (cost : option CostModel) (starting_equity : Q) : result BacktestResult :=
  try l <- backtest_locals df position cost starting_equity;
  Ok (mkResult (l_equity l) (l_net_ret l) (l_pos l) (l_turnover l) (l_costs l)).

(** The position in force during the bar that ends at row [i]: the target
    of the row before, and flat before the first row. *)
Definition previous_position (pos : Series) (i : nat) : Val :=
  match i with
  | O => Some 0
  | S j => match pos !! j with Some (_, v) => v | None => Some 0 end
  end.

(** The return column is absent, or no row has a value in it. *)
Definition return_column_missing (df : DataFrame) : Prop :=
  ~ "RetSimple"%string ∈ df_columns df \/
  (forall t (r : Row), (t, r) ∈ df_rows df -> r "RetSimple"%string = None).

(** ** Row-wise predicates on series *)

(** Every cell of [s] satisfies [P]. *)
Definition all_cells {A} (P : A -> Prop) (s : list (Timestamp * A)) : Prop :=
  Forall (fun q => P (snd q)) s.

(** The cells of the first [n] rows of [s] satisfy [P]. *)
Definition prefix_cells {A} (n : nat) (P : A -> Prop)
    (s : list (Timestamp * A)) : Prop :=
  forall j t v, s !! j = Some (t, v) -> (j < n)%nat -> P v.

(** [a] and [b] have the same labels, and their cells are related by [R]
    row by row. *)
Definition rows_related (R : Val -> Val -> Prop) (a b : Series) : Prop :=
  Forall2 (fun p q => fst p = fst q /\ R (snd p) (snd q)) a b.

(** A cell holding a number equal to [c]. *)
Definition holds (c : Q) (v : Val) : Prop :=
  exists q, v = Some q /\ q == c.

(** A cell holding a number that is not negative. *)
Definition holds_nonneg (v : Val) : Prop :=
  exists q, v = Some q /\ 0 <= q.




(** ** The claims on the engine, as the specification words them *)




Definition per_trade_bps (c : CostModel) : Q :=
  commission_bps c + slippage_bps c.


(** "Fails with a MissingDataError if absent or entirely undefined",
    and returns a result otherwise. *)
Definition missing_data_claim (df : DataFrame) (position0 : Series)
    (cost : option CostModel) (starting_equity : Q) : Prop :=
  (run_backtest df position0 cost starting_equity = Err MissingDataError <->
   return_column_missing df) /\
  (~ return_column_missing df ->
   exists r, run_backtest df position0 cost starting_equity = Ok r).

(** ** Sample data *)

(** A frame from its column names and its rows of cells. *)
Fixpoint cell_of (names : list string) (cells : list Val) (c : string) : Val :=
  match names, cells with
  | n :: ns, v :: vs => if String.eqb n c then v else cell_of ns vs c
  | _, _ => None
  end.

Definition frame_of_table (names : list string)
    (table : list (Timestamp * list Val)) : DataFrame :=
  mkFrame names (map (fun p => (fst p, cell_of names (snd p))) table).

Definition bar (d : Z) : Timestamp := mkTs 2024 1 d 0.

(** Three daily bars returning 0, 1% and 1%. *)
Definition sample_frame : DataFrame :=
  frame_of_table ["RetSimple"%string]
    [(bar 1, [Some 0]); (bar 2, [Some (1 # 100)]); (bar 3, [Some (1 # 100)])].

(** Long from the first bar, on labels that only partly match the frame. *)
Definition sample_position : Series :=
  [(bar 2, Some 1); (bar 3, Some 1); (bar 9, Some (-1))].

Definition sample_cost : CostModel := mkCost 1 2.

Definition sample_locals : BacktestLocals :=
  Eval vm_compute in
    match backtest_locals sample_frame sample_position (Some sample_cost) 1 with
    | Ok l => l
    | Err _ => mkLocals [] [] [] [] [] [] [] []
    end.

Definition sample_result : BacktestResult :=
  Eval vm_compute in
    match run_backtest sample_frame sample_position (Some sample_cost) 1 with
    | Ok r => r
    | Err _ => mkResult [] [] [] [] []
    end.

(** Positions whose label repeats. *)
Definition repeated_position : Series := [(bar 1, Some 1); (bar 1, Some 1)].


Definition free_cost : CostModel := mkCost 0 0.



(** Long from the second bar of the sample frame, under two cost models. *)
Definition entry_position : Series :=
  [(bar 1, Some 0); (bar 2, Some 1); (bar 3, Some 1)].

(** ** strategy_template.py *)

(** A parameter mapping, in insertion order. *)
Abbreviation Params := (list (string * Q)).

(** [params.get(key, d)] *)
Fixpoint dict_get (params : Params) (key : string) (d : Q) : Q :=
  match params with
  | [] => d
  | (k, v) :: r => if String.eqb k key then v else dict_get r key d
  end.

(** [int(x)]: the fraction is cut off, towards zero. *)
Definition py_int (q : Q) : Z := Z.quot (Qnum q) (Zpos (Qden q)).

Abbreviation XSeries := (list (Timestamp * xval)).
Abbreviation BoolSeries := (list (Timestamp * bool)).

Definition count_valid (cells : list Val) : nat :=
  length (filter (fun v => negb (visna v)) cells).

Definition vsum (cells : list Val) : Q :=
  fold_right (fun v acc => match v with Some x => x + acc | None => acc end)
    0 cells.

(** Mean of the numbers of a window, NaN below [min_periods] of them. *)
Definition window_mean (min_periods : nat) (cells : list Val) : Val :=
  let n := count_valid cells in
  if (n <? min_periods)%nat || (n =? 0)%nat then None
  else Some (vsum cells / inject_Z (Z.of_nat n)).

(** Rolling mean by rows; [hist] holds the cells already passed, the latest
    first, and the window is its first [w] cells. *)
Fixpoint rolling_from (w min_periods : nat) (hist : list Val) (s : Series)
    : Series :=
  match s with
  | [] => []
  | (t, v) :: r =>
      let hist' := v :: hist in
      (t, window_mean min_periods (firstn w hist'))
        :: rolling_from w min_periods hist' r
  end.

(** [s.rolling(window, min_periods=min_periods).mean()] *)
Definition rolling_mean (window min_periods : Z) (s : Series) : result Series :=
  if (window <? 0)%Z then Err NegativeWindow
  else Ok (rolling_from (Z.to_nat window) (Z.to_nat min_periods) [] s).

(** A series brought to the labels [idx]: unchanged when it has them
    already, looked up label by label with [d] for a missing one otherwise. *)
Definition align_to {A} (d : A) (s : list (Timestamp * A)) (idx : Index)
    : list (Timestamp * A) :=
  if decide (index s = idx) then s else take_labels d s idx.

(** [s.where(cond, other)]: [s] where [cond] holds, [other] elsewhere. *)
Definition series_where (s : Series) (cond : BoolSeries) (other : Series)
    : Series :=
  zip_with_index
    (fun v (co : bool * Val) => if fst co then v else snd co) s
    (zip_with_index pair (align_to false cond (index s))
       (align_to None other (index s))).

(** [s.mask(cond, v)]: that is [s.where(~cond, v)]. *)
Definition series_mask (s : Series) (cond : BoolSeries) (v : Val) : Series :=
  zip_with_index (fun x (keep : bool) => if keep then x else v) s
    (align_to false (map (fun p => (fst p, negb (snd p))) cond) (index s)).

(** [s.replace(0, pd.NA)] *)
Definition zero_to_na (v : Val) : Val :=
  match v with
  | Some x => if Qzerob x then None else Some x
  | None => None
  end.
Definition replace_zero_na : Series -> Series := series_map zero_to_na.

(** [s.ffill()] *)
Fixpoint ffill_from (last : Val) (s : Series) : Series :=
  match s with
  | [] => []
  | (t, None) :: r => (t, last) :: ffill_from last r
  | (t, Some x) :: r => (t, Some x) :: ffill_from (Some x) r
  end.
Definition ffill : Series -> Series := ffill_from None.

(** [s.clip(lo, hi)] *)
Definition series_clip (lo hi : Q) : Series -> Series :=
  series_map (option_map (fun x => Qmin (Qmax x lo) hi)).

(** [pd.Series(c, index=idx, dtype=float)] *)
Definition const_series (c : Q) (idx : Index) : Series :=
  map (fun t => (t, Some c)) idx.

Definition xseries_isna (s : XSeries) : BoolSeries :=
  map (fun p => (fst p, match snd p with XNaN => true | _ => false end)) s.
Definition xseries_gt (s : XSeries) (c : Q) : BoolSeries :=
  map (fun p => (fst p, xgtb (snd p) (XFin c))) s.
Definition xseries_lt (s : XSeries) (c : Q) : BoolSeries :=
  map (fun p => (fst p, xltb (snd p) (XFin c))) s.

(** [a / b] on series. *)
Definition series_div : Series -> Series -> XSeries :=
  series_binop (fun x y => xdiv (x_of_val x) (x_of_val y)).

Definition ma_cross (df : DataFrame) (params : Params) : result Series :=
  let fast := py_int (dict_get params "fast" 20) in
  let slow := py_int (dict_get params "slow" 100) in
  let nz_bps := dict_get params "neutral_zone" 0 in
  try close <- df_getitem df "Close";
  try ma_f <- rolling_mean fast fast close;
  try ma_s <- rolling_mean slow slow close;
  let spread := series_div (series_sub ma_f ma_s) ma_s in
  let pos := const_series 0 (df_index df) in
  let pos := series_where pos (xseries_isna spread) pos in
  let buy := xseries_gt spread (nz_bps / 10000) in
  let sell := xseries_lt spread (- (nz_bps / 10000)) in
  let pos := series_mask pos buy (Some 1) in
  let pos := series_mask pos sell (Some (-1)) in
  let pos := fillna 0 (ffill (replace_zero_na pos)) in
  Ok (series_clip (-1) 1 pos).

(** A cell holding exactly -1, 0 or 1. *)
Definition is_signal (v : Val) : Prop :=
  v = Some (-1) \/ v = Some 0 \/ v = Some 1.

(** A cell that is missing or holds exactly -1 or 1. *)
Definition is_trade_or_na (v : Val) : Prop :=
  v = None \/ v = Some (-1) \/ v = Some 1.

(** Twelve closes that rise and then fall back, with one missing. *)
Definition close_frame : DataFrame :=
  frame_of_table ["Close"%string; "RetSimple"%string]
    (map (fun p : Z * Val => (bar (fst p), [snd p; Some 0]))
       [(1%Z, Some 10); (2%Z, Some 11); (3%Z, Some 12); (4%Z, Some 13);
        (5%Z, Some 14); (6%Z, Some 15); (7%Z, Some 14); (8%Z, None);
        (9%Z, Some 11); (10%Z, Some 9); (11%Z, Some 8); (12%Z, Some 7)]).
Definition close_params : Params :=
  [("fast"%string, 2); ("slow"%string, 4); ("neutral_zone"%string, 5)].

(** ** The numeric routines the engine takes from numpy *)

(** Powers with a fractional exponent, square roots, quantiles and random
    draws are not arithmetic on fractions; the engine is read relative to an
    implementation of them.  A generator is a value: a draw returns the
    drawn object and the generator after the draw. *)
Class Numerics : Type := {
  (** [x ** y] on floats *)
  float_pow : xval -> xval -> xval;
  (** the ten statistics besides CAGR (Sharpe, Sortino, volatility, ...), as
      a function of the cleaned equity and return series *)
  Stats : Type;
  other_statistics : Series -> Series -> Stats;
  (** [np.quantile(a, q)] *)
  np_quantile : list xval -> Q -> xval;
  (** [np.random.default_rng(seed)] and two of its draws *)
  RngState : Type;
  default_rng : Z -> RngState;
  rng_permutation : RngState -> nat -> list nat * RngState;
  rng_integers : RngState -> nat -> nat -> nat * RngState
}.

(** ** metrics.py *)

Section Metrics.

Context `{Numerics}.

(** The record [Performance]; [to_dict] lists the same fields under string
    keys, and the dictionary is read as the record itself. *)
Record Performance : Type := mkPerf {
  cagr : xval;
  other : Stats
}.

Definition to_dict (p : Performance) : Performance := p.

(** [s.dropna()] *)
Definition dropna (s : Series) : Series :=
  filter (fun p => negb (visna (snd p))) s.

(** The first and the last row of a series without gaps. *)
Definition first_last (s : Series) : option ((Timestamp * Q) * (Timestamp * Q)) :=
  match s, last s with
  | (t0, Some x0) :: _, Some (t1, Some x1) => Some ((t0, x0), (t1, x1))
  | _, _ => None
  end.

Definition compute_performance (equity returns : Series) : result Performance :=
  let equity := dropna equity in
  let returns := dropna returns in
  match first_last equity with
  | None => Err EmptySeriesError
  | Some ((t0, e0), (t1, e1)) =>
      let total_return := xsub (xdiv (XFin e1) (XFin e0)) (XFin 1) in
      let years :=
        Qmax (inject_Z (days_between t0 t1) / (36525 # 100))
             (1 # 1000000000) in
      let cagr :=
        xsub (float_pow (xadd (XFin 1) total_return) (XFin (1 / years)))
             (XFin 1) in
      Ok (mkPerf cagr (other_statistics equity returns))
  end.

End Metrics.

(** ** deep_test.py: grid search and walk-forward *)

(** A parameter grid, in the insertion order of the dictionary. *)
Abbreviation Grid := (list (string * list Q)).

Section GridSearch.

Context `{Numerics}.

(** A strategy: positions from a frame and parameters, or a failure. *)
Definition StrategyFn : Type := DataFrame -> Params -> result Series.

(** [itertools.product] of the lists: the last list turns fastest. *)
Fixpoint product (lists : list (list Q)) : list (list Q) :=
  match lists with
  | [] => [[]]
  | l :: rest => flat_map (fun x => map (cons x) (product rest)) l
  end.

(** The body of the loop of [grid_search] up to the comparison. *)
Definition evaluate (df : DataFrame) (strat : StrategyFn) (cost : CostModel)
    (params : Params) : result Performance :=
  try pos <- strat df params;
  try res <- run_backtest df pos (Some cost) 1;
  try perf <- compute_performance (equity res) (returns res);
  Ok (to_dict perf).

Definition better (perf_d : Performance) (best : option (Params * Performance))
    : bool :=
  match best with
  | None => true
  | Some b => xgtb (cagr perf_d) (cagr (snd b))
  end.

Fixpoint grid_loop (df : DataFrame) (strat : StrategyFn) (cost : CostModel)
    (keys : list string) (candidates : list (list Q))
    (best : option (Params * Performance))
    : result (option (Params * Performance)) :=
  match candidates with
  | [] => Ok best
  | values :: rest =>
      let params := combine keys values in
      try perf_d <- evaluate df strat cost params;
      grid_loop df strat cost keys rest
        (if better perf_d best then Some (params, perf_d) else best)
  end.

Definition grid_search (df : DataFrame) (strat : StrategyFn) (grid : Grid)
    (cost : CostModel) : result (Params * Performance) :=
  let keys := map fst grid in
  try best <- grid_loop df strat cost keys (product (map snd grid)) None;
  match best with
  | Some b => Ok b
  | None => Err EmptyGridError
  end.

(** One comparison of the loop: [c] replaces [best] when it is better. *)
Definition pick (best : option (Params * Performance))
    (c : Params * Performance) : option (Params * Performance) :=
  if better (snd c) best then Some c else best.

(** [b], found at row [k] of the candidates seen so far, is not beaten by
    any of them and not matched by any before it. *)
Definition leads (seen : list (Params * Performance))
    (b : Params * Performance) (k : nat) : Prop :=
  seen !! k = Some b /\
  (forall j c, seen !! j = Some c ->
               xgtb (cagr (snd c)) (cagr (snd b)) = false) /\
  (forall j c, (j < k)%nat -> seen !! j = Some c ->
               xgeb (cagr (snd c)) (cagr (snd b)) = false).


Record WalkForwardConfig : Type := mkConfig {
  train_years : Z;
  test_years : Z;
  step_years : Z
}.

(** [idx.min()] and [idx.max()]; [None] is NaT, on the empty index. *)
Definition index_min (idx : Index) : option Timestamp :=
  match idx with
  | [] => None
  | t :: r => Some (fold_left ts_min r t)
  end.
Definition index_max (idx : Index) : option Timestamp :=
  match idx with
  | [] => None
  | t :: r => Some (fold_left ts_max r t)
  end.

(** The [while cur < end] loop of [_year_slices]; running out of [fuel]
    stands for a loop that never leaves. *)
Fixpoint year_slices_loop (fuel : nat) (cur end_ : Timestamp) (years : Z)
    : result (list (Timestamp * Timestamp)) :=
  if ts_ltb cur end_ then
    match fuel with
    | O => Err NonTermination
    | S fuel' =>
        let stop := add_years cur years in
        try rest <- year_slices_loop fuel' stop end_ years;
        Ok ((cur, ts_min stop end_) :: rest)
    end
  else Ok [].

(** One turn of the loop moves the year by [years]; from one year past the
    last the loop has left, so these many turns are all a positive step can
    take. *)
Definition year_slices_fuel (start end_ : Timestamp) : nat :=
  Z.to_nat (year end_ - year start + 1).

Definition _year_slices (idx : Index) (years : Z)
    : result (list (Timestamp * Timestamp)) :=
  match index_min idx, index_max idx with
  | Some start, Some end_ =>
      year_slices_loop (year_slices_fuel start end_) start end_ years
  | _, _ => Ok []
  end.

(** [df.loc[(df.index >= a) & (df.index < b)]] *)
Definition df_between (df : DataFrame) (a b : Timestamp) : DataFrame :=
  mkFrame (df_columns df)
    (filter (fun r => ts_geb (fst r) a && ts_ltb (fst r) b) (df_rows df)).

Definition df_len (df : DataFrame) : nat := length (df_rows df).

(** A record of the walk-forward table. *)
Record WalkForwardRow : Type := mkRow {
  row_train_start : Timestamp;
  row_train_end : Timestamp;
  row_test_end : Timestamp;
  row_params : Params;
  row_perf : Performance
}.

(** The [for] loop of [walk_forward]; [end_] is [idx.max()]. *)
Fixpoint walk_loop (df : DataFrame) (strat : StrategyFn) (grid : Grid)
    (cost : CostModel) (cfg : WalkForwardConfig) (end_ : Timestamp)
    (train_slices : list (Timestamp * Timestamp)) (rows : list WalkForwardRow)
    : result (list WalkForwardRow) :=
  match train_slices with
  | [] => Ok rows
  | (train_start, _) :: rest =>
      let train_end := add_years train_start (train_years cfg) in
      let test_end := add_years train_end (test_years cfg) in
      if ts_geb train_end end_ || ts_geb train_start end_ then Ok rows
      else
        let df_train := df_between df train_start train_end in
        let df_test := df_between df train_end (ts_min test_end end_) in
        if (df_len df_train <? 50)%nat || (df_len df_test <? 20)%nat
        then walk_loop df strat grid cost cfg end_ rest rows
        else
          try best <- grid_search df_train strat grid cost;
          let best_params := fst best in
          try pos <- strat df_test best_params;
          try res <- run_backtest df_test pos (Some cost) 1;
          try perf <- compute_performance (equity res) (returns res);
          walk_loop df strat grid cost cfg end_ rest
            (rows ++ [mkRow train_start train_end (ts_min test_end end_)
                        best_params (to_dict perf)])
  end.

Definition walk_forward (df : DataFrame) (strat : StrategyFn) (grid : Grid)
    (cost : CostModel) (cfg : WalkForwardConfig)
    : result (list WalkForwardRow) :=
  let idx := df_index df in
  try train_slices <- _year_slices idx (step_years cfg);
  match index_max idx with
  | Some end_ => walk_loop df strat grid cost cfg end_ train_slices []
  | None => Ok []
  end.

End GridSearch.

(** ** A small implementation of the numeric routines, for the samples *)

(** First-order reading of the power, [1 + y (x - 1)]: exact at base 1 and
    at exponent 1. *)
Definition toy_pow (b e : xval) : xval :=
  match b, e with
  | XFin x, XFin y => XFin (1 + y * (x - 1))
  | _, _ => XNaN
  end.

Fixpoint q_insert (x : Q) (l : list Q) : list Q :=
  match l with
  | [] => [x]
  | y :: r => if Qle_bool x y then x :: l else y :: q_insert x r
  end.

Fixpoint finite_values (a : list xval) : option (list Q) :=
  match a with
  | [] => Some []
  | XFin x :: r => option_map (cons x) (finite_values r)
  | _ :: _ => None
  end.

(** Quantile by linear interpolation between the two nearest ranks. *)
Definition toy_quantile (a : list xval) (q : Q) : xval :=
  match finite_values a with
  | None | Some [] => XNaN
  | Some vs =>
      let sorted := fold_right q_insert [] vs in
      let pos := q * inject_Z (Z.of_nat (length vs) - 1) in
      let lo := Qfloor pos in
      let at_lo := nth (Z.to_nat lo) sorted 0 in
      let at_hi := nth (Z.to_nat (lo + 1)) sorted at_lo in
      XFin (at_lo + (pos - inject_Z lo) * (at_hi - at_lo))
  end.

(** A linear congruential generator. *)
Definition toy_next (s : Z) : Z := ((s * 1103515245 + 12345) mod 2147483648)%Z.

(** The rotation of [0 .. k-1] by the state. *)
Definition toy_permutation (s : Z) (k : nat) : list nat * Z :=
  let r := Z.to_nat (s mod Z.max 1 (Z.of_nat k)) in
  (seq r (k - r) ++ seq 0 r, toy_next s).

Definition toy_integers (s : Z) (low high : nat) : nat * Z :=
  ((low + Z.to_nat (s mod Z.max 1 (Z.of_nat (high - low))))%nat, toy_next s).

Definition toy_numerics : Numerics := {|
  float_pow := toy_pow;
  Stats := unit;
  other_statistics := fun _ _ => tt;
  np_quantile := toy_quantile;
  RngState := Z;
  default_rng := fun seed => seed;
  rng_permutation := toy_permutation;
  rng_integers := toy_integers
|}.

Definition sample_grid : Grid :=
  [("fast"%string, [2; 3]); ("slow"%string, [4])].


(** "Walk-forward produces zero rows when the full data span is shorter
    than [train_years + test_years]." *)
Definition short_span_claim `{Numerics} (df : DataFrame) (strat : StrategyFn)
    (grid : Grid) (cost : CostModel) (cfg : WalkForwardConfig) : Prop :=
  (forall s e,
      index_min (df_index df) = Some s ->
      index_max (df_index df) = Some e ->
      ts_ltb e (add_years s (train_years cfg + test_years cfg)) = true) ->
  walk_forward df strat grid cost cfg = Ok [].

(** Three and a half years of bars at a constant close: two a month from
    January 2020 to December 2022, four a month from January to June 2023,
    and a last one on 1 July 2023. *)
Definition flat_bar : list Val := [Some 100; Some 0].

Definition dates (years months days : list Z) : Index :=
  flat_map (fun y => flat_map (fun m => map (fun d => mkTs y m d 0) days)
                       months) years.

Definition long_frame : DataFrame :=
  frame_of_table ["Close"%string; "RetSimple"%string]
    (map (fun t => (t, flat_bar))
       (dates [2020; 2021; 2022] [1; 2; 3; 4; 5; 6; 7; 8; 9; 10; 11; 12]
          [1; 15]
        ++ dates [2023] [1; 2; 3; 4; 5; 6] [1; 8; 15; 22]
        ++ [mkTs 2023 7 1 0]))%Z.

Definition sample_config : WalkForwardConfig := mkConfig 3 1 1.

(** Two years of the same bars, for a training window that takes them all. *)
Definition short_frame : DataFrame :=
  frame_of_table ["Close"%string; "RetSimple"%string]
    (map (fun t => (t, flat_bar))
       (dates [2020; 2021] [1; 2; 3; 4; 5; 6; 7; 8; 9; 10; 11; 12]
          [1; 8; 15; 22]))%Z.

(** ** Frames held by reference *)

(** The permutation test and the bootstrap write into frames.  A frame
    object lives in a store and is passed by its position there; [df.copy()]
    allocates a new cell, a column assignment overwrites the cell it is
    given.  A computation takes the store and returns its result with the
    store it leaves, or fails. *)
Abbreviation Store := (list DataFrame).

Definition M (A : Type) : Type := Store -> result (A * Store).

Definition mret {A} (a : A) : M A := fun h => Ok (a, h).

Definition mbind {A B} (m : M A) (k : A -> M B) : M B :=
  fun h =>
    match m h with
    | Ok (a, h') => k a h'
    | Err e => Err e
    end.

Definition lift {A} (r : result A) : M A :=
  fun h =>
    match r with
    | Ok a => Ok (a, h)
    | Err e => Err e
    end.

Notation "'run' x <- m ; k" := (mbind m (fun x => k))
  (at level 10, x name, m at level 100, k at level 200).

(** The frame behind a reference. *)
Definition df_load (l : nat) : M DataFrame :=
  fun h =>
    match h !! l with
    | Some d => Ok (d, h)
    | None => Err DanglingFrame
    end.

(** [df.copy()] *)
Definition df_copy (l : nat) : M nat :=
  fun h =>
    match h !! l with
    | Some d => Ok (length h, h ++ [d])
    | None => Err DanglingFrame
    end.

(** The frame [d] with the cells of an array under the column [name]. *)
Fixpoint set_cells (name : string) (rows : list (Timestamp * Row))
    (cells : list Val) : list (Timestamp * Row) :=
  match rows, cells with
  | (t, r) :: rows', v :: cells' =>
      (t, fun c => if String.eqb c name then v else r c)
        :: set_cells name rows' cells'
  | _, _ => []
  end.

Definition set_column (d : DataFrame) (name : string) (cells : list Val)
    : DataFrame :=
  mkFrame
    (if decide (name ∈ df_columns d) then df_columns d
     else df_columns d ++ [name])
    (set_cells name (df_rows d) cells).

(** [df[name] = cells] for an array of cells: in place, and refused when
    the array has not the length of the index. *)
Definition df_setitem (l : nat) (name : string) (cells : list Val) : M unit :=
  fun h =>
    match h !! l with
    | Some d =>
        if decide (length cells = length (df_rows d))
        then Ok (tt, <[l := set_column d name cells]> h)
        else Err LengthMismatch
    | None => Err DanglingFrame
    end.

(** [run_backtest] on a frame object: the copy it takes first is a new
    cell of the store, the rest reads that cell only. *)
Definition run_backtest_ref (l : nat) (position0 : Series)
    (cost : option CostModel) (starting_equity : Q) : M BacktestResult :=
  run l' <- df_copy l;
  run d <- df_load l';
  lift (run_backtest d position0 cost starting_equity).

(** A strategy applied to a frame object reads its value. *)
Definition strat_ref (strat : StrategyFn) (l : nat) (params : Params)
    : M Series :=
  run d <- df_load l;
  lift (strat d params).

(** [df[name].values] *)
Definition column_values (l : nat) (name : string) : M (list Val) :=
  run d <- df_load l;
  run col <- lift (df_getitem d name);
  mret (values col).

(** [np.concatenate(parts)] *)
Definition np_concatenate (parts : list (list Val)) : result (list Val) :=
  match parts with
  | [] => Err EmptyConcatenate
  | _ => Ok (concat parts)
  end.

(** [xs[a:b]] *)
Definition py_slice (xs : list Val) (a b : nat) : list Val :=
  firstn (b - a) (skipn a xs).

(** [int(np.ceil(n / block))] for a positive [block]. *)
Definition ceil_div (n block : nat) : nat := ((n + block - 1) / block)%nat.

(** ** deep_test.py: permutation test and bootstrap *)

Section Resampling.

Context `{Numerics}.

(** The tail of both loops: a copy of the frame takes the resampled
    returns, is backtested with the fixed positions, and gives its CAGR. *)
Definition resampled_cagr (dfl : nat) (pos : Series) (cost : CostModel)
    (cells : list Val) : M xval :=
  run df_new <- df_copy dfl;
  run _ <- df_setitem df_new "RetSimple" cells;
  run res <- run_backtest_ref df_new pos (Some cost) 1;
  run perf <- lift (compute_performance (equity res) (returns res));
  mret (cagr (to_dict perf)).

Record PermutationResult : Type := mkPermutation {
  CAGR_true : xval;
  p_value : xval
}.

Fixpoint permutation_loop (k : nat) (rng : RngState) (dfl : nat)
    (pos : Series) (cost : CostModel) (rets : list Val) (n block blocks : nat)
    (stats : list xval) : M (list xval) :=
  match k with
  | O => mret stats
  | S k' =>
      let (order, rng') := rng_permutation rng blocks in
      run joined <-
        lift (np_concatenate
                (map (fun i => py_slice rets (i * block) ((i + 1) * block))
                   order));
      let reshuffled := firstn n joined in
      run c <- resampled_cagr dfl pos cost reshuffled;
      permutation_loop k' rng' dfl pos cost rets n block blocks (stats ++ [c])
  end.

(** [np.sum(np.array(stats) >= x)] *)
Definition count_ge (stats : list xval) (x : xval) : nat :=
  length (filter (fun s => xgeb s x) stats).

Definition permutation_test (dfl : nat) (strat : StrategyFn) (params : Params)
    (cost : CostModel) (n_iter block seed : Z) : M PermutationResult :=
  let rng := default_rng seed in
  run pos <- strat_ref strat dfl params;
  run res_true <- run_backtest_ref dfl pos (Some cost) 1;
  run perf <- lift (compute_performance (equity res_true) (returns res_true));
  let perf_true := to_dict perf in
  run rets <- column_values dfl "RetSimple";
  let n := length rets in
  let block := Z.to_nat (Z.max 1 block) in
  let blocks := ceil_div n block in
  run stats <-
    permutation_loop (Z.to_nat n_iter) rng dfl pos cost rets n block blocks [];
  let cagr_true := cagr perf_true in
  let p_value :=
    xdiv (XFin (inject_Z (Z.of_nat (count_ge stats cagr_true) + 1)))
         (XFin (inject_Z (n_iter + 1))) in
  mret (mkPermutation cagr_true p_value).

(** The [while total_len < n] loop of the bootstrap; every segment drawn
    brings at least one point, so [n] turns are all it can take, and
    running out of [fuel] stands for a loop that never leaves. *)
Fixpoint boot_sample (fuel : nat) (rng : RngState) (segments : list (list Val))
    (n : nat) (boot_parts : list (list Val)) (total_len : nat)
    : result (list (list Val) * RngState) :=
  if (total_len <? n)%nat then
    match fuel with
    | O => Err NonTermination
    | S fuel' =>
        let (i, rng') := rng_integers rng 0 (length segments) in
        match segments !! i with
        | Some seg =>
            boot_sample fuel' rng' segments n (boot_parts ++ [seg])
              (total_len + length seg)
        | None => Err IndexOutOfRange
        end
    end
  else Ok (boot_parts, rng).

Fixpoint bootstrap_loop (k : nat) (rng : RngState) (dfl : nat) (pos : Series)
    (cost : CostModel) (segments : list (list Val)) (n : nat)
    (cagr_list : list xval) : M (list xval) :=
  match k with
  | O => mret cagr_list
  | S k' =>
      run drawn <- lift (boot_sample n rng segments n [] 0);
      run joined <- lift (np_concatenate (fst drawn));
      let boot := firstn n joined in
      run c <- resampled_cagr dfl pos cost boot;
      bootstrap_loop k' (snd drawn) dfl pos cost segments n (cagr_list ++ [c])
  end.

Record BootstrapResult : Type := mkBootstrap {
  CAGR_CI_low : xval;
  CAGR_CI_high : xval
}.

(** [range(0, n, block)] for a positive [block]. *)
Definition block_starts (n block : nat) : list nat :=
  map (fun i => (i * block)%nat) (seq 0 (ceil_div n block)).

Definition bootstrap_ci (dfl : nat) (strat : StrategyFn) (params : Params)
    (cost : CostModel) (n_iter block seed : Z) (alpha : Q)
    : M BootstrapResult :=
  let rng := default_rng seed in
  run pos <- strat_ref strat dfl params;
  run rets <- column_values dfl "RetSimple";
  let n := length rets in
  let block := Z.to_nat (Z.max 1 block) in
  let starts := block_starts n block in
  let segments :=
    map (fun s => py_slice rets s (Nat.min (s + block) n)) starts in
  run cagr_list <-
    bootstrap_loop (Z.to_nat n_iter) rng dfl pos cost segments n [];
  let lower := np_quantile cagr_list (alpha / 2) in
  let upper := np_quantile cagr_list (1 - alpha / 2) in
  mret (mkBootstrap lower upper).

(** A computation whose outcome depends on the store through the frame at
    [l] only, and which leaves that frame as it found it. *)
Definition frame_local {A} (l : nat) (m : M A) : Prop :=
  forall h h' : Store,
    h !! l = h' !! l ->
    match m h, m h' with
    | Ok (a, h1), Ok (a', h1') =>
        a = a' /\ h1 !! l = h !! l /\ h1' !! l = h' !! l
    | Err e, Err e' => e = e'
    | _, _ => False
    end.

End Resampling.

(** ** Further readings of a backtest *)

(** [s.sum()]: the numbers of the series added up, gaps skipped. *)
Definition series_sum (s : Series) : Q := vsum (values s).

(** Two cells missing together, or two numbers with [b == a * k]. *)
Definition scaled_by (k : Q) (a b : Val) : Prop :=
  match a, b with
  | Some x, Some y => y == x * k
  | None, None => True
  | _, _ => False
  end.

(** The sample run on a unit and on a tenfold starting equity. *)
Definition sample_result_tenfold : BacktestResult :=
  Eval vm_compute in
    match run_backtest sample_frame sample_position (Some sample_cost) 10 with
    | Ok r => r
    | Err _ => mkResult [] [] [] [] []
    end.

Definition entry_result_free : BacktestResult :=
  Eval vm_compute in
    match run_backtest sample_frame entry_position (Some free_cost) 1 with
    | Ok r => r
    | Err _ => mkResult [] [] [] [] []
    end.

(** One unit held on every bar of the sample frame. *)
Definition hold_position : Series :=
  [(bar 1, Some 1); (bar 2, Some 1); (bar 3, Some 1)].

Definition hold_result_free : BacktestResult :=
  Eval vm_compute in
    match run_backtest sample_frame hold_position (Some free_cost) 1 with
    | Ok r => r
    | Err _ => mkResult [] [] [] [] []
    end.

(** ** metrics.py: the statistics read one by one *)


(** [s.cummax()]: running maximum that skips gaps and leaves them gaps. *)
Fixpoint cummax_from (peak : option Q) (s : Series) : Series :=
  match s with
  | [] => []
  | (t, None) :: r => (t, None) :: cummax_from peak r
  | (t, Some x) :: r =>
      let m := match peak with Some p => Qmax p x | None => x end in
      (t, Some m) :: cummax_from (Some m) r
  end.
Definition cummax : Series -> Series := cummax_from None.

(** [drawdown(equity)]: [equity / equity.cummax() - 1.0]. *)
Definition drawdown (equity : Series) : XSeries :=
  map (fun p => (fst p, xsub (snd p) (XFin 1)))
    (series_div equity (cummax equity)).

(** [s.min()] on floats: gaps skipped, NaN when nothing is left. *)
Definition xmin_step (acc x : xval) : xval :=
  match acc, x with
  | XNaN, _ => x
  | _, XNaN => acc
  | _, _ => if xltb x acc then x else acc
  end.
Definition xseries_min (s : XSeries) : xval :=
  fold_left xmin_step (values s) XNaN.

(** [dd != 0], which holds of NaN and of the infinities. *)
Definition x_nonzero (x : xval) : bool :=
  match x with
  | XFin q => negb (Qzerob q)
  | _ => true
  end.

(** The loop that measures the longest drawdown, in bars. *)
Fixpoint dd_days_loop (flags : list bool) (cur max_dd_days : nat) : nat :=
  match flags with
  | [] => max_dd_days
  | flag :: rest =>
      if flag
      then dd_days_loop rest (S cur) (Nat.max max_dd_days (S cur))
      else dd_days_loop rest 0 max_dd_days
  end.

Definition max_dd_days (dd : XSeries) : nat :=
  dd_days_loop (map x_nonzero (values dd)) 0 0.

(** The numbers of [returns.dropna()]. *)
Definition defined_values (s : Series) : list Q :=
  omap snd s.

(** [returns[returns != 0]], its positive and its negative part. *)
Definition nonzero_returns (returns : Series) : list Q :=
  filter (fun q => negb (Qzerob q)) (defined_values returns).
Definition winning_returns (returns : Series) : list Q :=
  filter (fun q => Qltb 0 q) (nonzero_returns returns).
Definition losing_returns (returns : Series) : list Q :=
  filter (fun q => Qltb q 0) (nonzero_returns returns).

Definition Qsum (l : list Q) : Q := fold_right Qplus 0 l.

(** [float(len(wins)) / max(len(nonzero), 1)] *)
Definition win_rate (returns : Series) : Q :=
  inject_Z (Z.of_nat (length (winning_returns returns)))
  / inject_Z (Z.of_nat (Nat.max (length (nonzero_returns returns)) 1)).

(** [wins.mean() if len(wins) else 0.0], and the same for the losses. *)
Definition mean_or_zero (l : list Q) : Q :=
  match l with
  | [] => 0
  | _ => Qsum l / inject_Z (Z.of_nat (length l))
  end.
Definition avg_win (returns : Series) : Q :=
  mean_or_zero (winning_returns returns).
Definition avg_loss (returns : Series) : Q :=
  mean_or_zero (losing_returns returns).

(** [int((returns.abs() > 0).sum())] *)
Definition trades (returns : Series) : nat :=
  length (filter (fun q => Qltb 0 (Qabs q)) (defined_values returns)).

(** An equity curve that climbs, dips for two bars and recovers. *)
Definition dip_equity : Series :=
  [(bar 1, Some 100); (bar 2, Some 110); (bar 3, Some 99);
   (bar 4, Some 105); (bar 5, Some 121)].
Definition dip_returns : Series :=
  [(bar 1, Some 0); (bar 2, Some (1 # 10)); (bar 3, Some (-1 # 10));
   (bar 4, Some (2 # 33)); (bar 5, None)].

(** A cell holding a positive number. *)
Definition holds_positive (v : Val) : Prop :=
  exists q, v = Some q /\ 0 < q.

(** A drawdown between -1, excluded, and 0. *)
Definition is_drawdown (x : xval) : Prop :=
  exists q, x = XFin q /\ -1 < q /\ q <= 0.

(** A float equal to the number [c]. *)
Definition xholds (c : Q) (x : xval) : Prop :=
  exists q, x = XFin q /\ q == c.

(** A cell under its running maximum: [0 < a <= b]. *)
Definition under_peak (x m : Val) : Prop :=
  exists a b, x = Some a /\ m = Some b /\ 0 < a /\ a <= b.

(** A cell at its running maximum. *)
Definition at_peak (x m : Val) : Prop :=
  exists a b, x = Some a /\ m = Some b /\ 0 < a /\ a == b.

(** A series of numbers that never falls, from [p] on. *)
Fixpoint climbs_from (p : Q) (s : Series) : Prop :=
  match s with
  | [] => True
  | (_, Some x) :: r => p <= x /\ climbs_from x r
  | (_, None) :: _ => False
  end.

(** An equity curve that only climbs. *)
Definition climb_equity : Series :=
  [(bar 1, Some 100); (bar 2, Some 100); (bar 3, Some 104); (bar 4, Some 110)].

(** ** strategy_template.py: the crossover read bar by bar *)

(** The spread of the two moving averages that [ma_cross] trades on:
    [(ma_f - ma_s) / ma_s]. *)
Definition ma_spread (df : DataFrame) (params : Params) : result XSeries :=
  let fast := py_int (dict_get params "fast" 20) in
  let slow := py_int (dict_get params "slow" 100) in
  try close <- df_getitem df "Close";
  try ma_f <- rolling_mean fast fast close;
  try ma_s <- rolling_mean slow slow close;
  Ok (series_div (series_sub ma_f ma_s) ma_s).

(** The cell of [pos] after the two masks, before the zeros are replaced. *)
Definition raw_signal (nz : Q) (x : xval) : Val :=
  if xltb x (XFin (- nz)) then Some (-1)
  else if xgtb x (XFin nz) then Some 1 else Some 0.

(** The position after a bar of spread [x], coming from [prev]. *)
Definition signal_step (nz prev : Q) (x : xval) : Q :=
  if xltb x (XFin (- nz)) then -1
  else if xgtb x (XFin nz) then 1 else prev.

(** The positions of a spread series, bar after bar, coming from [prev]. *)
Fixpoint carried_from (nz prev : Q) (spread : XSeries) : Series :=
  match spread with
  | [] => []
  | (t, x) :: r =>
      let p := signal_step nz prev x in
      (t, Some p) :: carried_from nz p r
  end.



(** The state that forward filling carries for a position [prev]. *)
Definition carried (last : Val) (prev : Q) : Prop :=
  (last = None /\ prev = 0) \/ (last = Some 1 /\ prev = 1) \/
  (last = Some (-1) /\ prev = -1).

(** A bar whose spread gives no signal: not below [- nz], not above [nz]. *)
Definition no_signal (nz : Q) (x : xval) : Prop :=
  xltb x (XFin (- nz)) = false /\ xgtb x (XFin nz) = false.

Definition equal_window_params : Params :=
  [("fast"%string, 3); ("slow"%string, 3); ("neutral_zone"%string, 5)].

(** ** deep_test.py: what the searches go through *)

(** A value for every parameter of the grid, each from its candidate set. *)
Definition drawn_from (grid : Grid) (values : list Q) : Prop :=
  Forall2 (fun v (g : string * list Q) => In v (snd g)) values grid.

(** Parameters that give every key of the grid, in the order of the grid,
    one of its candidate values. *)
Definition params_of_grid (grid : Grid) (params : Params) : Prop :=
  Forall2 (fun (kv : string * Q) (g : string * list Q) =>
             fst kv = fst g /\ In (snd kv) (snd g)) params grid.

(** The number of combinations of a grid. *)
Definition grid_size (grid : Grid) : nat :=
  fold_right Nat.mul 1%nat (map (fun g => length (snd g)) grid).

(** The start of the slice of rank [i]: [i] offsets of [years] from [s]. *)
Definition slice_start (years : Z) (s : Timestamp) (i : nat) : Timestamp :=
  Nat.iter i (fun t => add_years t years) s.

(** A day that its month has. *)
Definition valid_day (t : Timestamp) : Prop :=
  (1 <= day t <= days_in_month (year t) (month t))%Z.

(** A walk-forward configuration that never steps. *)
Definition stuck_config : WalkForwardConfig := mkConfig 3 1 0.

(** What a record of the walk-forward table says: the training window
    starts at [row_train_start] and lasts [train_years], the test window
    follows it and ends [test_years] later or at the last timestamp [e];
    the training window ends before [e]; it holds 50 bars at least and the
    test window 20; the parameters are those the grid search returns on
    the training window, and the performance that of these parameters on
    the test window. *)
Definition walk_forward_record `{Numerics} (df : DataFrame)
    (strat : StrategyFn) (grid : Grid) (cost : CostModel)
    (cfg : WalkForwardConfig) (e : Timestamp) (r : WalkForwardRow) : Prop :=
  row_train_end r = add_years (row_train_start r) (train_years cfg) /\
  row_test_end r = ts_min (add_years (row_train_end r) (test_years cfg)) e /\
  ts_geb (row_train_end r) e = false /\
  (50 <= df_len (df_between df (row_train_start r) (row_train_end r)))%nat /\
  (20 <= df_len (df_between df (row_train_end r) (row_test_end r)))%nat /\
  (exists perf_train,
      grid_search (df_between df (row_train_start r) (row_train_end r))
        strat grid cost = Ok (row_params r, perf_train)) /\
  evaluate (df_between df (row_train_end r) (row_test_end r)) strat cost
    (row_params r) = Ok (row_perf r).

(** ** deep_test.py: the resampled returns *)

(** [np.concatenate([rets[i*block:(i+1)*block] for i in order])[:n]] *)
Definition reshuffle (rets : list Val) (n block : nat) (order : list nat)
    : result (list Val) :=
  try joined <-
    np_concatenate
      (map (fun i => py_slice rets (i * block) ((i + 1) * block)) order);
  Ok (firstn n joined).

(** [[rets[s: min(s + block, n)] for s in range(0, n, block)]] *)
Definition bootstrap_segments (rets : list Val) (block : nat)
    : list (list Val) :=
  let n := length rets in
  map (fun s => py_slice rets s (Nat.min (s + block) n))
    (block_starts n block).

(** A computation that leaves every frame of the store as it found it and
    at most adds frames behind them. *)
Definition store_grows {A} (m : M A) : Prop :=
  forall (h h' : Store) (a : A), m h = Ok (a, h') -> exists ext, h' = h ++ ext.

(** Five returns, in blocks of two. *)
Definition five_returns : list Val :=
  [Some (1 # 100); Some (2 # 100); Some (3 # 100); Some (4 # 100);
   Some (5 # 100)].

(** Closes without the return column. *)
Definition close_only_frame : DataFrame :=
  frame_of_table ["Close"%string]
    (map (fun p : Z * Val => (bar (fst p), [snd p]))
       [(1%Z, Some 10); (2%Z, Some 11); (3%Z, Some 12); (4%Z, Some 13);
        (5%Z, Some 12); (6%Z, Some 11)]).

(** The bars of [close_frame] with other closes and the same returns. *)
Definition other_close_frame : DataFrame :=
  frame_of_table ["Close"%string; "RetSimple"%string]
    (map (fun d : Z => (bar d, [Some (inject_Z (100 - d)); Some 0]))
       [1; 2; 3; 4; 5; 6; 7; 8; 9; 10; 11; 12]%Z).

(** * Properties *)

(** ** Labels carried through the series operators *)

Section SeriesIndex.

Lemma index_series_map f s : index (series_map f s) = index s.
Proof.
  unfold index, series_map. rewrite map_map. reflexivity.
Qed.

Lemma index_shift_from p s : index (shift_from p s) = index s.
Proof.
  revert p. induction s as [|[t v] r IH]; intros p; simpl; [reflexivity|].
  f_equal. apply IH.
Qed.

Lemma index_cumprod_from acc s : index (cumprod_from acc s) = index s.
Proof.
  revert acc. induction s as [|[t [x|]] r IH]; intros acc; simpl;
    try reflexivity; f_equal; apply IH.
Qed.

Lemma index_take_labels {A} (d : A) s idx : index (take_labels d s idx) = idx.
Proof.
  unfold index, take_labels. rewrite map_map. simpl. apply map_id.
Qed.

Lemma index_column_of df name : index (column_of df name) = df_index df.
Proof.
  unfold index, column_of, df_index. rewrite map_map. reflexivity.
Qed.

Lemma index_zip_with_index {A B C} (f : A -> B -> C)
  (a : list (Timestamp * A)) (b : list (Timestamp * B)) :
  index a = index b -> index (zip_with_index f a b) = index a.
Proof.
  revert b. induction a as [|[t x] a IH]; intros [|[u y] b] E; simpl in *;
    try reflexivity; try discriminate.
  injection E as _ E. f_equal. apply IH, E.
Qed.

Lemma series_binop_aligned {C} (f : Val -> Val -> C) a b :
  index a = index b -> series_binop f a b = zip_with_index f a b.
Proof.
  intros E. unfold series_binop. destruct (decide (index a = index b));
    [reflexivity | contradiction].
Qed.

Lemma index_series_binop {C} (f : Val -> Val -> C) a b :
  index a = index b -> index (series_binop f a b) = index a.
Proof.
  intros E. rewrite series_binop_aligned by exact E.
  apply index_zip_with_index, E.
Qed.

Lemma reindex_index s idx s' : reindex s idx = Ok s' -> index s' = idx.
Proof.
  unfold reindex. destruct (decide (index s = idx)) as [E|_].
  - intros [= <-]. exact E.
  - destruct (decide (NoDup (index s))); [|discriminate].
    intros [= <-]. apply index_take_labels.
Qed.

Lemma length_index {A} (s : list (Timestamp * A)) :
length (index s) = length s.
Proof. apply length_map. Qed.

End SeriesIndex.

(** ** Row-wise reading of the operators *)

Section SeriesLookup.

Lemma lookup_map {A B} (f : A -> B) (l : list A) i :
  map f l !! i = option_map f (l !! i).
Proof.
  revert i. induction l as [|a l IH]; intros [|i]; simpl; try reflexivity.
  apply IH.
Qed.

Lemma lookup_series_map f (s : Series) i :
  series_map f s !! i = option_map (fun p => (fst p, f (snd p))) (s !! i).
Proof. unfold series_map. apply lookup_map. Qed.

Lemma lookup_zip_with_index {A B C} (f : A -> B -> C)
  (a : list (Timestamp * A)) (b : list (Timestamp * B)) i t x u y :
  a !! i = Some (t, x) -> b !! i = Some (u, y) ->
  zip_with_index f a b !! i = Some (t, f x y).
Proof.
  revert b i. induction a as [|[t0 x0] a IH]; intros [|[u0 y0] b] [|i];
    simpl; try discriminate.
  - intros [= -> ->] [= _ ->]. reflexivity.
  - apply IH.
Qed.

Lemma lookup_shift_from p (s : Series) i t x :
  s !! i = Some (t, x) ->
  shift_from p s !! i = Some (t, shifted_value p s i).
Proof.
  revert p i. induction s as [|[t0 x0] r IH]; intros p [|i]; simpl;
    try discriminate.
  - intros [= -> _]. reflexivity.
  - intros H. change (shift_from x0 r !! i = Some (t, shifted_value p ((t0, x0) :: r) (S i))).
    rewrite (IH x0 i H). destruct i as [|i]; [reflexivity|].
    simpl. reflexivity.
Qed.

Lemma lookup_same_index {A B} (a : list (Timestamp * A))
  (b : list (Timestamp * B)) i t x :
  index a = index b -> a !! i = Some (t, x) ->
  exists y, b !! i = Some (t, y).
Proof.
  intros E H.
  assert (Hi : index a !! i = Some t).
  { unfold index. rewrite lookup_map, H. reflexivity. }
  rewrite E in Hi. unfold index in Hi. rewrite lookup_map in Hi.
  destruct (b !! i) as [[u y]|]; simpl in Hi; [|discriminate].
  injection Hi as ->. eauto.
Qed.

End SeriesLookup.

(** ** The backtest engine *)

Section Backtest.

Variables (df : DataFrame) (position0 : Series) (cost : option CostModel)
  (starting_equity : Q).

Lemma all_na_column name :
  all_na (column_of df name) = true <->
  (forall t (r : Row), (t, r) ∈ df_rows df -> r name = None).
Proof.
  unfold all_na, values, column_of. rewrite map_map. simpl.
  rewrite forallb_forall. split.
  - intros H t r Hin. apply list_elem_of_In in Hin.
    assert (Hv : visna (r name) = true).
    { apply H, in_map_iff. exists (t, r). auto. }
    destruct (r name); [discriminate Hv | reflexivity].
  - intros H v Hv. apply in_map_iff in Hv as [[t r] [<- Hin]].
    apply list_elem_of_In in Hin. simpl. rewrite (H t r Hin). reflexivity.
Qed.

Lemma guard_fails_iff :
  match df_get df "RetSimple" with
  | None => true
  | Some ret => all_na ret
  end = true <-> return_column_missing df.
Proof.
  unfold df_get, return_column_missing.
  destruct (decide ("RetSimple"%string ∈ df_columns df)) as [Hc|Hc].
  - rewrite all_na_column. split; [auto|]. intros [H|H]; [contradiction|auto].
  - split; auto.
Qed.

(** What the body of [run_backtest] computes once the guard is passed. *)
Lemma backtest_locals_inv l :
  backtest_locals df position0 cost starting_equity = Ok l ->
  let rate :=
    (commission_bps (default default_cost cost)
     + slippage_bps (default default_cost cost)) / 10000 in
  exists pos0,
    df_get df "RetSimple" = Some (l_ret l) /\
    all_na (l_ret l) = false /\
    reindex position0 (df_index df) = Ok pos0 /\
    l_pos l = fillna 0 pos0 /\
    l_pos_shift l = fillna 0 (shift1 (l_pos l)) /\
    l_pnl l = zip_with_index vmul (l_pos_shift l) (l_ret l) /\
    l_turnover l =
      series_abs (zip_with_index vsub (l_pos l) (l_pos_shift l)) /\
    l_costs l = series_scale (l_turnover l) rate /\
    l_net_ret l = zip_with_index vsub (l_pnl l) (l_costs l) /\
    l_equity l =
      series_scale (cumprod (series_radd 1 (l_net_ret l))) starting_equity /\
    index (l_ret l) = df_index df /\
    index (l_pos l) = df_index df /\
    index (l_pos_shift l) = df_index df /\
    index (l_pnl l) = df_index df /\
    index (l_turnover l) = df_index df /\
    index (l_costs l) = df_index df /\
    index (l_net_ret l) = df_index df /\
    index (l_equity l) = df_index df.
Proof.
  unfold backtest_locals.
  destruct (df_get df "RetSimple") as [ret|] eqn:Hget; [|discriminate].
  destruct (all_na ret) eqn:Hna; [discriminate|].
  destruct (reindex position0 (df_index df)) as [pos0|e] eqn:Hre;
    [|discriminate].
  simpl. intros [= <-]. simpl.
  assert (Hret : index ret = df_index df).
  { unfold df_get in Hget. destruct (decide _); [|discriminate].
    injection Hget as <-. apply index_column_of. }
  assert (Hpos : index (fillna 0 pos0) = df_index df).
  { unfold fillna. rewrite index_series_map. eapply reindex_index, Hre. }
  assert (Hsh : index (fillna 0 (shift1 (fillna 0 pos0))) = df_index df).
  { unfold fillna at 1. rewrite index_series_map. unfold shift1.
    rewrite index_shift_from. exact Hpos. }
  unfold series_mul, series_sub.
  rewrite (series_binop_aligned vmul) by congruence.
  rewrite (series_binop_aligned vsub (fillna 0 pos0)) by congruence.
  set (pnl := zip_with_index vmul _ ret).
  assert (Hpnl : index pnl = df_index df).
  { unfold pnl. rewrite index_zip_with_index; congruence. }
  set (tv := series_abs _).
  assert (Htv : index tv = df_index df).
  { unfold tv, series_abs. rewrite index_series_map.
    rewrite index_zip_with_index; congruence. }
  set (cs := series_scale tv _).
  assert (Hcs : index cs = df_index df).
  { unfold cs, series_scale. rewrite index_series_map. exact Htv. }
  rewrite (series_binop_aligned vsub pnl) by congruence.
  assert (Hnet : index (zip_with_index vsub pnl cs) = df_index df).
  { rewrite index_zip_with_index; congruence. }
  exists pos0. repeat (split; [first [reflexivity | assumption] |]).
  unfold series_scale, cumprod, series_radd.
  rewrite index_series_map, index_cumprod_from, index_series_map.
  exact Hnet.
Qed.

Lemma run_backtest_locals r :
  run_backtest df position0 cost starting_equity = Ok r ->
  exists l,
    backtest_locals df position0 cost starting_equity = Ok l /\
    r = mkResult (l_equity l) (l_net_ret l) (l_pos l) (l_turnover l)
          (l_costs l).
Proof.
  unfold run_backtest.
  destruct (backtest_locals df position0 cost starting_equity) as [l|e];
    simpl; [|discriminate].
  intros [= <-]. eauto.
Qed.

End Backtest.

(** Every cell of a series filled by [fillna] holds a number. *)
Lemma fillna_defined c (s : Series) i t v :
  fillna c s !! i = Some (t, v) -> exists q, v = Some q.
Proof.
  unfold fillna. rewrite lookup_series_map.
  destruct (s !! i) as [[u [x|]]|]; simpl; intros [= _ <-]; eauto.
Qed.

(** The shifted and refilled position is the position of the row before. *)
Lemma shifted_position (pos0 : Series) i t v :
  fillna 0 pos0 !! i = Some (t, v) ->
  fillna 0 (shift1 (fillna 0 pos0)) !! i =
    Some (t, previous_position (fillna 0 pos0) i).
Proof.
  intros H. unfold fillna at 1. rewrite lookup_series_map. unfold shift1.
  rewrite (lookup_shift_from None _ i t v H). simpl. f_equal. f_equal.
  destruct i as [|j]; simpl; [reflexivity|].
  destruct (fillna 0 pos0 !! j) as [[u w]|] eqn:Hj; [|reflexivity].
  destruct (fillna_defined _ _ _ _ _ Hj) as [q ->]. reflexivity.
Qed.


(** C10. Time alignment: the five series of a returned result all carry the
    index of the input frame, whatever index the supplied positions had. *)
Theorem run_backtest_aligned df position0 cost starting_equity r :
  run_backtest df position0 cost starting_equity = Ok r ->
  index (equity r) = df_index df /\
  index (returns r) = df_index df /\
  index (position r) = df_index df /\
  index (turnover r) = df_index df /\
  index (costs r) = df_index df.
Proof.
  intros Hrun. destruct (run_backtest_locals _ _ _ _ _ Hrun) as [l [Hl ->]].
  destruct (backtest_locals_inv _ _ _ _ _ Hl)
    as (pos0 & _ & _ & _ & _ & _ & _ & _ & _ & _ & _ & _ & Hipos & _ & _
        & Hitv & Hics & Hinet & Hieq).
  simpl. auto.
Qed.


Lemma run_backtest_aligned_witness :
  index (equity sample_result) = df_index sample_frame /\
  index (returns sample_result) = df_index sample_frame /\
  index (position sample_result) = df_index sample_frame /\
  index (turnover sample_result) = df_index sample_frame /\
  index (costs sample_result) = df_index sample_frame.
Proof.
  apply (run_backtest_aligned sample_frame sample_position (Some sample_cost)
           1 sample_result).
  vm_compute. reflexivity.
Defined.

(** The run returns exactly when the guard is passed and the positions can
    be laid on the index of the frame. *)
Lemma run_backtest_ok_iff df position0 cost starting_equity :
  (exists r, run_backtest df position0 cost starting_equity = Ok r) <->
  ~ return_column_missing df /\
  (index position0 = df_index df \/ NoDup (index position0)).
Proof.
  rewrite <- guard_fails_iff. unfold run_backtest, backtest_locals, reindex.
  destruct (df_get df "RetSimple") as [ret|].
  2:{ split; [intros [r [=]] | intros [H _]; contradiction H; reflexivity]. }
  destruct (all_na ret).
  { split; [intros [r [=]] | intros [H _]; contradiction H; reflexivity]. }
  destruct (decide (index position0 = df_index df)) as [E|E]; simpl.
  { split; [intros _; split; [discriminate | auto] | eauto]. }
  destruct (decide (NoDup (index position0))) as [N|N]; simpl.
  { split; [intros _; split; [discriminate | auto] | eauto]. }
  split; [intros [r [=]] | intros [_ [H|H]]; contradiction].
Qed.

(** C7 (amended). The run fails with [MissingDataError] exactly when the
    return column is absent or holds no value at all; when it is present
    with a value, the run returns a result provided the positions carry the
    index of the frame or labels that do not repeat. *)
Theorem run_backtest_missing_data df position0 cost starting_equity :
  (run_backtest df position0 cost starting_equity = Err MissingDataError <->
   return_column_missing df) /\
  (~ return_column_missing df ->
   index position0 = df_index df \/ NoDup (index position0) ->
   exists r, run_backtest df position0 cost starting_equity = Ok r).
Proof.
  split.
  - rewrite <- guard_fails_iff. unfold run_backtest, backtest_locals, reindex.
    destruct (df_get df "RetSimple") as [ret|]; [|tauto].
    destruct (all_na ret); [tauto|].
    split; [|discriminate].
    destruct (decide (index position0 = df_index df)); simpl;
      [discriminate|].
    destruct (decide (NoDup (index position0))); simpl; discriminate.
  - intros Hm Hp. apply run_backtest_ok_iff. auto.
Qed.

Lemma sample_frame_has_returns : ~ return_column_missing sample_frame.
Proof.
  intros H. apply guard_fails_iff in H. vm_compute in H. discriminate H.
Qed.

Lemma run_backtest_missing_data_witness :
  exists r, run_backtest sample_frame sample_position None 1 = Ok r.
Proof.
  apply (run_backtest_missing_data sample_frame sample_position None 1).
  - exact sample_frame_has_returns.
  - right. apply (bool_decide_unpack _). vm_compute. exact I.
Defined.

(** C7, as worded, fails: positions with a repeated label make the run stop
    in [reindex], with the return column present and partly defined. *)
Lemma missing_data_claim_fails :
  ~ missing_data_claim sample_frame repeated_position None 1.
Proof.
  intros [_ H]. destruct (H sample_frame_has_returns) as [r Hr].
  vm_compute in Hr. discriminate Hr.
Qed.

(** ** Cell predicates through the operators *)

Section Cells.

Variables (P P1 P2 : Val -> Prop).

Lemma all_cells_map f (s : Series) :
  all_cells P1 s -> (forall v, P1 v -> P (f v)) ->
  all_cells P (series_map f s).
Proof.
  unfold all_cells. intros H Hf.
  induction H as [|[t v] s Hv _ IH]; simpl in *; constructor; simpl; auto.
Qed.

Lemma all_cells_impl (s : Series) :
  all_cells P1 s -> (forall v, P1 v -> P v) -> all_cells P s.
Proof.
  unfold all_cells. intros H Hi. eapply List.Forall_impl; [|exact H].
  intros [t v]. apply Hi.
Qed.


Lemma all_cells_zip f (a b : Series) :
  all_cells P1 a -> all_cells P2 b ->
  (forall x y, P1 x -> P2 y -> P (f x y)) ->
  all_cells P (zip_with_index f a b).
Proof.
  unfold all_cells, rows_related in *. intros Ha Hb Hf. revert b Hb.
  induction Ha as [|[t x] a Hx _ IH]; intros b Hb; simpl in *;
    [constructor|].
  destruct Hb as [|[u y] b Hy Hb]; simpl in *; constructor; simpl; auto.
Qed.



End Cells.

Section Related.

Variables (R R1 R2 : Val -> Val -> Prop) (P : Val -> Prop).

Lemma rows_related_index (a b : Series) :
  rows_related R a b -> index a = index b.
Proof.
  unfold all_cells, rows_related in *. induction 1 as [|[t x] [u y] a b [E _] _ IH]; simpl in *;
    [reflexivity | congruence].
Qed.


Lemma rows_related_lookup_r (a b : Series) i t y :
  rows_related R a b -> b !! i = Some (t, y) ->
  exists x, a !! i = Some (t, x) /\ R x y.
Proof.
  unfold all_cells, rows_related in *. intros H. revert i.
  induction H as [|[t0 x0] [u y0] a b [E Hr] _ IH]; intros [|i]; simpl in *;
    try discriminate.
  - intros [= -> ->]. subst t0. eauto.
  - apply IH.
Qed.




End Related.

(** ** A flat position *)

Section Flat.













End Flat.






(** ** Two cost models on the same data *)

Section Costs.

Lemma rows_related_map2 (R R' : Val -> Val -> Prop) f g (a b : Series) :
  rows_related R a b -> (forall x y, R x y -> R' (f x) (g y)) ->
  rows_related R' (series_map f a) (series_map g b).
Proof.
  unfold rows_related. intros H Hf.
  induction H as [|[t x] [u y] a b [E Hr] _ IH]; simpl in *;
    constructor; simpl; auto.
Qed.




Lemma turnover_nonneg x y :
  is_Some x -> is_Some y -> holds_nonneg (vabs (vsub x y)).
Proof.
  intros [p ->] [q ->]. unfold vabs, vsub, vlift2, option_map.
  eexists; split; [reflexivity|]. apply Qabs_nonneg.
Qed.

Lemma fillna_is_Some c v : is_Some (vfillna c v).
Proof. destruct v; simpl; eauto. Qed.


End Costs.




(** ** The moving-average strategy *)

Section Strategy.

Lemma lookup_zip_inv {A B C} (f : A -> B -> C) (a : list (Timestamp * A))
  (b : list (Timestamp * B)) i t v :
  zip_with_index f a b !! i = Some (t, v) ->
  exists x u y, a !! i = Some (t, x) /\ b !! i = Some (u, y) /\ v = f x y.
Proof.
  revert b i. induction a as [|[t0 x0] a IH]; intros [|[u0 y0] b] [|i];
    simpl; try discriminate.
  - intros [= <- <-]. eauto 6.
  - apply IH.
Qed.

Lemma index_align_to {A} (d : A) s idx : index (align_to d s idx) = idx.
Proof.
  unfold align_to. destruct (decide (index s = idx)) as [E|_];
    [exact E | apply index_take_labels].
Qed.

Lemma align_to_same {A} (d : A) s idx : index s = idx -> align_to d s idx = s.
Proof.
  intros E. unfold align_to. destruct (decide (index s = idx));
    [reflexivity | contradiction].
Qed.

Lemma index_map_cells {A B} (f : A -> B) (s : list (Timestamp * A)) :
  index (map (fun p => (fst p, f (snd p))) s) = index s.
Proof. unfold index. rewrite map_map. reflexivity. Qed.

Lemma index_series_mask s cond v : index (series_mask s cond v) = index s.
Proof.
  unfold series_mask. apply index_zip_with_index.
  symmetry. apply index_align_to.
Qed.

Lemma index_series_where s cond other :
  index (series_where s cond other) = index s.
Proof.
  unfold series_where. apply index_zip_with_index.
  rewrite index_zip_with_index; rewrite !index_align_to; reflexivity.
Qed.

Lemma index_rolling_from w mp hist s :
  index (rolling_from w mp hist s) = index s.
Proof.
  revert hist. induction s as [|[t v] r IH]; intros hist; simpl;
    [reflexivity | f_equal; apply IH].
Qed.

Lemma index_ffill_from last s : index (ffill_from last s) = index s.
Proof.
  revert last. induction s as [|[t [x|]] r IH]; intros last; simpl;
    try reflexivity; f_equal; apply IH.
Qed.

Lemma index_const_series c idx : index (const_series c idx) = idx.
Proof.
  unfold index, const_series. rewrite map_map. simpl. apply map_id.
Qed.

(** *** Cells *)

Lemma all_cells_const c idx : all_cells (eq (Some c)) (const_series c idx).
Proof.
  unfold all_cells, const_series. induction idx; simpl; constructor; auto.
Qed.

Lemma all_cells_zip_left {A B} (P : A -> Prop) (Q : Val -> Prop)
  (f : A -> B -> Val) (a : list (Timestamp * A)) (b : list (Timestamp * B)) :
  all_cells P a -> (forall x y, P x -> Q (f x y)) ->
  all_cells Q (zip_with_index f a b).
Proof.
  unfold all_cells. intros Ha Hf. revert b.
  induction Ha as [|[t x] a Hx _ IH]; intros [|[u y] b]; simpl in *;
    constructor; simpl; auto.
Qed.

Lemma all_cells_mask (P : Val -> Prop) s cond v :
  all_cells P s -> P v -> all_cells P (series_mask s cond v).
Proof.
  intros Hs Hv. unfold series_mask.
  eapply all_cells_zip_left; [exact Hs|].
  intros x [|] Hx; assumption.
Qed.

Lemma all_cells_where_self c s cond :
  all_cells (eq (Some c)) s -> all_cells (eq (Some c)) (series_where s cond s).
Proof.
  intros Hs. unfold series_where. rewrite (align_to_same None s) by reflexivity.
  revert Hs. generalize (align_to false cond (index s)). unfold all_cells.
  induction s as [|[t x] s IH]; intros [|[u b] l] Hs; simpl;
    try constructor.
  - apply Forall_cons in Hs as [Hx _]. simpl in *. destruct b; auto.
  - apply Forall_cons in Hs as [_ Hs]. apply IH, Hs.
Qed.

Lemma all_cells_ffill (P : Val -> Prop) last s :
  P last -> all_cells P s -> all_cells P (ffill_from last s).
Proof.
  unfold all_cells. intros Hl Hs. revert last Hl.
  induction Hs as [|[t [x|]] s Hx _ IH]; intros last Hl; simpl in *;
    constructor; simpl; auto.
Qed.

Lemma all_cells_of_prefix {A} (P : A -> Prop) n (s : list (Timestamp * A)) :
  all_cells P s -> prefix_cells n P s.
Proof.
  unfold all_cells. rewrite List.Forall_forall. intros H j t v Hj _.
  apply (H (t, v)), list_elem_of_In, list_elem_of_lookup. eauto.
Qed.

Lemma prefix_cells_map {A B} n (P : A -> Prop) (Q : B -> Prop) (f : A -> B)
  (s : list (Timestamp * A)) :
  prefix_cells n P s -> (forall v, P v -> Q (f v)) ->
  prefix_cells n Q (map (fun p => (fst p, f (snd p))) s).
Proof.
  intros H Hf j t v Hj Hn. rewrite lookup_map in Hj.
  destruct (s !! j) as [[u x]|] eqn:E; simpl in Hj; [|discriminate].
  injection Hj as <- <-. eapply Hf, H; eassumption.
Qed.

Lemma prefix_cells_zip {A B C} n (P : A -> Prop) (Q : B -> Prop)
  (R : C -> Prop) (f : A -> B -> C) (a : list (Timestamp * A))
  (b : list (Timestamp * B)) :
  prefix_cells n P a -> prefix_cells n Q b ->
  (forall x y, P x -> Q y -> R (f x y)) ->
  prefix_cells n R (zip_with_index f a b).
Proof.
  intros Ha Hb Hf j t v Hj Hn.
  apply lookup_zip_inv in Hj as (x & u & y & Hx & Hy & ->).
  eapply Hf; [eapply Ha | eapply Hb]; eassumption.
Qed.

(** Forward filling has nothing to carry into a run of leading gaps. *)
Lemma prefix_cells_ffill n (s : Series) :
  prefix_cells n (eq None) s -> prefix_cells n (eq None) (ffill_from None s).
Proof.
  revert n. induction s as [|[t [x|]] r IH]; intros n H j u v Hj Hn.
  - discriminate Hj.
  - exfalso. assert (Hx : None = Some x) by (apply (H 0%nat t); [reflexivity | lia]).
    discriminate Hx.
  - destruct j as [|j]; simpl in Hj.
    + injection Hj as _ <-. reflexivity.
    + destruct n as [|n]; [lia|].
      apply (IH n) with (j := j) (t := u); [|exact Hj | lia].
      intros k tk vk Hk Hkn. apply (H (S k) tk vk Hk). lia.
Qed.

(** A window that is not yet full has no mean. *)
Lemma count_valid_le cells : (count_valid cells <= length cells)%nat.
Proof. unfold count_valid. apply length_filter. Qed.

Lemma rolling_warm_up w mp hist (s : Series) i t v :
  rolling_from w mp hist s !! i = Some (t, v) ->
  (length hist + i + 1 < mp)%nat -> v = None.
Proof.
  revert hist i. induction s as [|[t0 v0] r IH]; intros hist [|i]; simpl;
    try discriminate.
  - intros [= _ <-] Hlt. unfold window_mean.
    pose proof (count_valid_le (firstn w (v0 :: hist))) as Hc.
    pose proof (length_firstn w (v0 :: hist)) as Hf. simpl length in Hf.
    replace (count_valid (firstn w (v0 :: hist)) <? mp)%nat with true;
      [reflexivity|].
    symmetry. apply Nat.ltb_lt. lia.
  - intros Hi Hlt. apply (IH (v0 :: hist) i Hi). simpl. lia.
Qed.

End Strategy.

Lemma rolling_mean_index w mp s s' :
  rolling_mean w mp s = Ok s' -> index s' = index s.
Proof.
  unfold rolling_mean. destruct (w <? 0)%Z; [discriminate|].
  intros [= <-]. apply index_rolling_from.
Qed.

Lemma rolling_mean_warm_up w s s' :
  rolling_mean w w s = Ok s' ->
  prefix_cells (Z.to_nat w - 1) (eq None) s'.
Proof.
  unfold rolling_mean. destruct (w <? 0)%Z; [discriminate|].
  intros [= <-] j t v Hj Hlt. symmetry.
  apply (rolling_warm_up _ _ _ _ _ _ _ Hj). simpl. lia.
Qed.

Lemma clip_signal v :
  is_signal v -> is_signal (option_map (fun x => Qmin (Qmax x (-1)) 1) v).
Proof.
  intros [-> | [-> | ->]]; [left | right; left | right; right]; reflexivity.
Qed.

Lemma replace_zero_signal v : is_signal v -> is_trade_or_na (zero_to_na v).
Proof.
  intros [-> | [-> | ->]]; [right; left | left | right; right]; reflexivity.
Qed.

(** C9. The positions that [ma_cross] returns carry the index of the frame
    and hold exactly -1, 0 or 1 on every row, with no missing value; the
    rows before the slow window is complete hold 0.  The call returns as
    soon as the frame has a Close column and neither window is negative. *)
Theorem ma_cross_signal df params :
  (forall pos,
      ma_cross df params = Ok pos ->
      index pos = df_index df /\
      all_cells is_signal pos /\
      forall i t v,
        pos !! i = Some (t, v) ->
        (Z.of_nat i + 1 < py_int (dict_get params "slow" 100))%Z ->
        v = Some 0) /\
  ("Close"%string ∈ df_columns df ->
   (0 <= py_int (dict_get params "fast" 20))%Z ->
   (0 <= py_int (dict_get params "slow" 100))%Z ->
   exists pos, ma_cross df params = Ok pos).
Proof.
  unfold ma_cross, df_getitem, df_get.
  set (fast := py_int (dict_get params "fast" 20)).
  set (slow := py_int (dict_get params "slow" 100)).
  set (nz := dict_get params "neutral_zone" 0 / 10000).
  split.
  2:{ intros Hc Hf Hs. destruct (decide _); [|contradiction].
      unfold rolling_mean.
      destruct (Z.ltb_spec fast 0); [lia|].
      destruct (Z.ltb_spec slow 0); [lia|]. simpl. eauto. }
  intros pos. destruct (decide _) as [Hc|Hc]; [|discriminate].
  cbn [rbind].
  destruct (rolling_mean fast fast _) as [ma_f|] eqn:Hf; [|discriminate].
  destruct (rolling_mean slow slow _) as [ma_s|] eqn:Hs; [|discriminate].
  cbn [rbind]. intros [= <-].
  pose proof (index_column_of df "Close") as Hiclose.
  apply rolling_mean_index in Hf as Hif.
  apply rolling_mean_index in Hs as His.
  apply rolling_mean_warm_up in Hs as Hwarm.
  rewrite Hiclose in Hif, His.
  set (spread := series_div (series_sub ma_f ma_s) ma_s).
  assert (Hisub : index (series_sub ma_f ma_s) = df_index df).
  { unfold series_sub. rewrite index_series_binop; congruence. }
  assert (Hspread : spread = zip_with_index
            (fun x y => xdiv (x_of_val x) (x_of_val y))
            (series_sub ma_f ma_s) ma_s).
  { unfold spread, series_div. apply series_binop_aligned. congruence. }
  assert (Hispread : index spread = df_index df).
  { rewrite Hspread, index_zip_with_index; congruence. }
  set (n := (Z.to_nat slow - 1)%nat) in *.
  assert (Wspread : prefix_cells n (eq XNaN) spread).
  { rewrite Hspread.
    apply prefix_cells_zip with (P := fun _ => True) (Q := eq None);
      [intros j t v _ _; exact I | exact Hwarm |].
    intros x y _ <-. destruct x; reflexivity. }
  assert (Hicond : forall f : xval -> bool,
             index (map (fun p => (fst p, negb (snd p)))
                      (map (fun p => (fst p, f (snd p))) spread))
             = df_index df).
  { intros f. unfold index in *. rewrite !map_map. exact Hispread. }
  set (pos0 := const_series 0 (df_index df)).
  set (pos1 := series_where pos0 (xseries_isna spread) pos0).
  set (buy := xseries_gt spread nz).
  set (sell := xseries_lt spread (- nz)).
  set (pos2 := series_mask pos1 buy (Some 1)).
  set (pos3 := series_mask pos2 sell (Some (-1))).
  assert (C1 : all_cells (eq (Some 0)) pos1).
  { apply all_cells_where_self, all_cells_const. }
  assert (I1 : index pos1 = df_index df).
  { unfold pos1. rewrite index_series_where. apply index_const_series. }
  assert (I2 : index pos2 = df_index df).
  { unfold pos2. rewrite index_series_mask. exact I1. }
  assert (C3 : all_cells is_signal pos3).
  { apply all_cells_mask; [|left; reflexivity].
    apply all_cells_mask; [|right; right; reflexivity].
    eapply all_cells_impl; [exact C1|]. intros v <-. right; left; reflexivity. }
  assert (W2 : prefix_cells n (eq (Some 0)) pos2).
  { unfold pos2, series_mask, buy, xseries_gt.
    rewrite align_to_same by (rewrite I1; apply (Hicond (fun x => xgtb x (XFin nz)))).
    apply prefix_cells_zip with (P := eq (Some 0)) (Q := eq true);
      [apply all_cells_of_prefix, C1 | | intros x y <- <-; reflexivity].
    apply (prefix_cells_map n (eq false) (eq true) negb);
      [|intros v <-; reflexivity].
    apply (prefix_cells_map n (eq XNaN) (eq false)
             (fun x => xgtb x (XFin nz)));
      [exact Wspread | intros v <-; reflexivity]. }
  assert (W3 : prefix_cells n (eq (Some 0)) pos3).
  { unfold pos3, series_mask, sell, xseries_lt.
    rewrite align_to_same by (rewrite I2; apply (Hicond (fun x => xltb x (XFin (- nz))))).
    apply prefix_cells_zip with (P := eq (Some 0)) (Q := eq true);
      [exact W2 | | intros x y <- <-; reflexivity].
    apply (prefix_cells_map n (eq false) (eq true) negb);
      [|intros v <-; reflexivity].
    apply (prefix_cells_map n (eq XNaN) (eq false)
             (fun x => xltb x (XFin (- nz))));
      [exact Wspread | intros v <-; reflexivity]. }
  split; [|split].
  - unfold series_clip, fillna, ffill, replace_zero_na.
    rewrite !index_series_map, index_ffill_from, index_series_map.
    unfold pos3. rewrite index_series_mask. exact I2.
  - unfold series_clip, fillna, ffill, replace_zero_na.
    eapply all_cells_map; [|apply clip_signal].
    apply all_cells_map with (P1 := is_trade_or_na).
    2:{ intros v [-> | [-> | ->]]; [right; left | left | right; right];
          reflexivity. }
    apply all_cells_ffill; [left; reflexivity|].
    eapply all_cells_map; [exact C3 | apply replace_zero_signal].
  - intros i t v Hi Hlt. symmetry.
    assert (W : prefix_cells n (eq (Some 0))
                  (series_clip (-1) 1 (fillna 0 (ffill (replace_zero_na pos3))))).
    { unfold series_clip, fillna, ffill, replace_zero_na, series_map.
      apply (prefix_cells_map n (eq (Some 0)) (eq (Some 0))
               (option_map (fun x => Qmin (Qmax x (-1)) 1)));
        [|intros x <-; reflexivity].
      apply (prefix_cells_map n (eq None) (eq (Some 0)) (vfillna 0));
        [|intros x <-; reflexivity].
      apply prefix_cells_ffill.
      apply (prefix_cells_map n (eq (Some 0)) (eq None) zero_to_na);
        [exact W3|]. intros x <-. reflexivity. }
    apply (W i t v Hi). unfold n. lia.
Qed.

Lemma ma_cross_signal_witness :
  exists pos,
    ma_cross close_frame close_params = Ok pos /\
    index pos = df_index close_frame /\
    all_cells is_signal pos /\
    forall t v, pos !! 2%nat = Some (t, v) -> v = Some 0.
Proof.
  destruct (ma_cross_signal close_frame close_params) as [Hok Hret].
  destruct Hret as [pos Hpos].
  - apply (bool_decide_unpack _). vm_compute. exact I.
  - vm_compute. discriminate.
  - vm_compute. discriminate.
  - exists pos. destruct (Hok pos Hpos) as (Hi & Hc & Hw).
    repeat split; try assumption.
    intros t v Hv. apply (Hw 2%nat t v Hv). vm_compute. reflexivity.
Defined.

(** ** The order of floats *)

Section FloatOrder.

Lemma Qltb_lt a b : Qltb a b = true <-> a < b.
Proof.
  unfold Qltb. rewrite negb_true_iff, <- not_true_iff_false, Qle_bool_iff.
  split; [apply Qnot_le_lt | apply Qlt_not_le].
Qed.

Lemma xgtb_irrefl a : xgtb a a = false.
Proof.
  destruct a as [|[|]|q]; simpl; try reflexivity.
  apply not_true_iff_false. rewrite Qltb_lt. apply Qlt_irrefl.
Qed.

Lemma xgtb_trans a b c :
  xgtb a b = true -> xgtb b c = true -> xgtb a c = true.
Proof.
  destruct a as [|[|]|x], b as [|[|]|y], c as [|[|]|z]; simpl;
    try discriminate; try reflexivity.
  rewrite !Qltb_lt. intros. lra.
Qed.

Lemma xgeb_xgtb_trans a b c :
  xgeb a b = true -> xgtb b c = true -> xgtb a c = true.
Proof.
  destruct a as [|[|]|x], b as [|[|]|y], c as [|[|]|z]; simpl;
    try discriminate; try reflexivity.
  rewrite !Qltb_lt, Qle_bool_iff. intros. lra.
Qed.

(** Among numbers, [>] and [>=] are the usual orders. *)
Lemma xgtb_fin x y : xgtb (XFin x) (XFin y) = false <-> x <= y.
Proof.
  simpl. rewrite <- not_true_iff_false, Qltb_lt. split;
    [apply Qnot_lt_le | apply Qle_not_lt].
Qed.

Lemma xgeb_fin x y : xgeb (XFin x) (XFin y) = false <-> x < y.
Proof.
  simpl. rewrite <- not_true_iff_false, Qle_bool_iff. split;
    [apply Qnot_le_lt | apply Qlt_not_le].
Qed.

End FloatOrder.

(** ** Grid search *)

Section Selection.

Context `{Numerics}.

Variables (df : DataFrame) (strat : StrategyFn) (cost : CostModel)
  (keys : list string).

(** The loop is the evaluation of every candidate, in order, followed by a
    fold of the comparisons. *)
Lemma grid_loop_fold candidates best r :
  grid_loop df strat cost keys candidates best = Ok r ->
  exists perfs,
    Forall2 (fun values p =>
               evaluate df strat cost (combine keys values) = Ok p)
            candidates perfs /\
    r = fold_left pick (combine (map (combine keys) candidates) perfs) best.
Proof.
  revert best. induction candidates as [|values rest IH]; intros best; simpl.
  - intros [= <-]. exists []. split; [constructor | reflexivity].
  - destruct (evaluate df strat cost (combine keys values)) as [p|e] eqn:E;
      simpl; [|discriminate].
    intros Hr. destruct (IH _ Hr) as [perfs [Hall ->]].
    exists (p :: perfs). split; [constructor; assumption | reflexivity].
Qed.



(** A leader stays a leader, or gives way to a strictly better candidate. *)
Lemma fold_pick_leads l seen b k :
  leads seen b k ->
  exists b' k', fold_left pick l (Some b) = Some b' /\ leads (seen ++ l) b' k'.
Proof.
  revert seen b k. induction l as [|c l IH]; intros seen b k Hb; simpl.
  - exists b, k. rewrite app_nil_r. auto.
  - replace (seen ++ c :: l) with ((seen ++ [c]) ++ l)
      by (rewrite <- app_assoc; reflexivity).
    destruct Hb as (Hk & Hgt & Hge).
    unfold pick at 2. simpl.
    destruct (xgtb (cagr (snd c)) (cagr (snd b))) eqn:Hc.
    + apply (IH (seen ++ [c]) c (length seen)). repeat split.
      * rewrite lookup_app_r by lia. rewrite Nat.sub_diag. reflexivity.
      * intros j c' Hj. destruct (decide (j < length seen)%nat) as [Hlt|Hlt].
        -- rewrite lookup_app_l in Hj by exact Hlt.
           destruct (xgtb (cagr (snd c')) (cagr (snd c))) eqn:Hcc;
             [|reflexivity].
           rewrite <- (Hgt j c' Hj). symmetry.
           eapply xgtb_trans; eassumption.
        -- rewrite lookup_app_r in Hj by lia.
           destruct (j - length seen)%nat; simpl in Hj; [|discriminate].
           injection Hj as <-. apply xgtb_irrefl.
      * intros j c' Hlt Hj. rewrite lookup_app_l in Hj by exact Hlt.
        destruct (xgeb (cagr (snd c')) (cagr (snd c))) eqn:Hcc;
          [|reflexivity].
        rewrite <- (Hgt j c' Hj). symmetry.
        eapply xgeb_xgtb_trans; eassumption.
    + apply (IH (seen ++ [c]) b k). repeat split.
      * rewrite lookup_app_l; [exact Hk|]. eapply lookup_lt_Some, Hk.
      * intros j c' Hj. destruct (decide (j < length seen)%nat) as [Hlt|Hlt].
        -- rewrite lookup_app_l in Hj by exact Hlt. eapply Hgt, Hj.
        -- rewrite lookup_app_r in Hj by lia.
           destruct (j - length seen)%nat; simpl in Hj; [|discriminate].
           injection Hj as <-. exact Hc.
      * intros j c' Hlt Hj.
        assert (k < length seen)%nat by (eapply lookup_lt_Some, Hk).
        rewrite lookup_app_l in Hj by lia. eapply Hge; eassumption.
Qed.


Lemma fold_pick_first l b :
  fold_left pick l None = Some b -> exists k, leads l b k.
Proof.
  destruct l as [|c l]; simpl; [discriminate|].
  intros Hb. destruct (fold_pick_leads l [c] c 0%nat) as (b' & k' & Hb' & Hl).
  - repeat split; [| intros j c' Hlt; lia].
    intros [|j] c' Hj; simpl in Hj; [|discriminate].
    injection Hj as <-. apply xgtb_irrefl.
  - unfold pick at 2 in Hb. simpl in Hb. rewrite Hb in Hb'.
    injection Hb' as <-. exists k'. exact Hl.
Qed.

End Selection.


Lemma lookup_combine {A B} (a : list A) (b : list B) j x y :
  combine a b !! j = Some (x, y) <-> a !! j = Some x /\ b !! j = Some y.
Proof.
  revert b j. induction a as [|x0 a IH]; intros [|y0 b] [|j]; simpl;
    try (split; [discriminate | intros [? ?]; discriminate]).
  - split; [intros [= -> ->]; auto | intros [[= ->] [= ->]]; reflexivity].
  - apply IH.
Qed.


Lemma is_ok_inv {A} (m : result A) : is_ok m = true -> exists a, m = Ok a.
Proof. destruct m as [a|e]; [eauto | discriminate]. Qed.

Lemma error_of_inv {A} (m : result A) e : error_of m = Some e -> m = Err e.
Proof. destruct m as [a|e']; simpl; congruence. Qed.




(** ** Walk-forward *)

Section WalkForward.

Context `{Numerics}.

Lemma ts_ltb_year a b : ts_ltb a b = true -> (year a <= year b)%Z.
Proof.
  unfold ts_ltb, ts_compare.
  destruct (Z.compare_spec (year a) (year b)); [lia | lia | discriminate].
Qed.

(** A positive step leaves the loop within the fuel it is given. *)
Lemma year_slices_loop_ok fuel cur end_ years :
  (1 <= years)%Z ->
  (year end_ - year cur + 1 <= Z.of_nat fuel)%Z ->
  exists l,
    year_slices_loop fuel cur end_ years = Ok l /\
    (ts_ltb cur end_ = true -> exists x rest, l = (cur, x) :: rest) /\
    (ts_ltb cur end_ = false -> l = []).
Proof.
  intros Hstep. revert cur. induction fuel as [|fuel IH]; intros cur Hfuel.
  - simpl. destruct (ts_ltb cur end_) eqn:Hlt.
    + apply ts_ltb_year in Hlt. lia.
    + exists []. split; [reflexivity|]. split; [discriminate | reflexivity].
  - simpl. destruct (ts_ltb cur end_) eqn:Hlt.
    + apply ts_ltb_year in Hlt.
      destruct (IH (add_years cur years)) as [rest [Hrest _]].
      { unfold add_years. simpl. lia. }
      rewrite Hrest. simpl. eexists. split; [reflexivity|].
      split; [eauto | discriminate].
    + exists []. split; [reflexivity|]. split; [discriminate | reflexivity].
Qed.

Lemma year_slices_ok idx years :
  (1 <= years)%Z ->
  exists l,
    _year_slices idx years = Ok l /\
    forall s e,
      index_min idx = Some s -> index_max idx = Some e ->
      (ts_ltb s e = true -> exists x rest, l = (s, x) :: rest) /\
      (ts_ltb s e = false -> l = []).
Proof.
  intros Hstep. unfold _year_slices.
  destruct (index_min idx) as [s|]; [|exists []; split; [reflexivity | discriminate]].
  destruct (index_max idx) as [e|]; [|exists []; split; [reflexivity | discriminate]].
  destruct (year_slices_loop_ok (year_slices_fuel s e) s e years Hstep)
    as [l [Hl Hshape]].
  { unfold year_slices_fuel. lia. }
  exists l. split; [exact Hl|]. intros s' e' [= <-] [= <-]. exact Hshape.
Qed.

(** A step of zero years or less never leaves the loop. *)
Lemma year_slices_loop_stuck fuel cur end_ :
  ts_ltb cur end_ = true ->
  (1 <= day cur <= days_in_month (year cur) (month cur))%Z ->
  year_slices_loop fuel cur end_ 0 = Err NonTermination.
Proof.
  intros Hlt Hday. induction fuel as [|fuel IH]; simpl; rewrite Hlt;
    [reflexivity|].
  assert (Hsame : add_years cur 0 = cur).
  { unfold add_years. rewrite Z.add_0_r, Z.min_l by lia. destruct cur.
    reflexivity. }
  rewrite Hsame, IH. reflexivity.
Qed.

End WalkForward.

(** C4 (amended). When the data end no later than [train_years] after their
    first timestamp, so that the first training window already reaches the
    last timestamp, [walk_forward] returns a table without rows (for a step
    of at least one year). *)
Theorem walk_forward_short_span `{Numerics} df strat grid cost cfg :
  (1 <= step_years cfg)%Z ->
  (forall s e,
      index_min (df_index df) = Some s ->
      index_max (df_index df) = Some e ->
      ts_leb e (add_years s (train_years cfg)) = true) ->
  walk_forward df strat grid cost cfg = Ok [].
Proof.
  intros Hstep Hspan. unfold walk_forward.
  destruct (year_slices_ok (df_index df) (step_years cfg) Hstep)
    as [l [Hl Hshape]].
  rewrite Hl. simpl.
  destruct (index_max (df_index df)) as [e|] eqn:Hmax; [|reflexivity].
  destruct (index_min (df_index df)) as [s|] eqn:Hmin.
  - destruct (Hshape s e eq_refl eq_refl) as [Hcons Hnil].
    destruct (ts_ltb s e) eqn:Hlt.
    + destruct (Hcons eq_refl) as (x & rest & ->). simpl.
      unfold ts_geb at 1. rewrite (Hspan s e eq_refl eq_refl). reflexivity.
    + rewrite (Hnil eq_refl). reflexivity.
  - unfold _year_slices in Hl. rewrite Hmin in Hl. injection Hl as <-.
    reflexivity.
Qed.

Lemma walk_forward_short_span_witness :
  @walk_forward toy_numerics short_frame ma_cross sample_grid sample_cost
    sample_config = Ok [].
Proof.
  apply (@walk_forward_short_span toy_numerics).
  - vm_compute. discriminate.
  - intros s e Hs He. vm_compute in Hs. vm_compute in He.
    injection Hs as <-. injection He as <-. vm_compute. reflexivity.
Defined.

(** C4, as worded, fails: three and a half years of data are shorter than
    three training years plus one test year, yet the first window trains on
    the first three years and is scored on the half year that is left. *)
Lemma short_span_claim_fails :
  ~ @short_span_claim toy_numerics long_frame ma_cross sample_grid
      sample_cost sample_config.
Proof.
  intros Hclaim.
  assert (Hnone : @walk_forward toy_numerics long_frame ma_cross sample_grid
                    sample_cost sample_config = Ok []).
  { apply Hclaim. intros s e Hs He. vm_compute in Hs. vm_compute in He.
    injection Hs as <-. injection He as <-. vm_compute. reflexivity. }
  assert (Hone : row_count (@walk_forward toy_numerics long_frame ma_cross
                              sample_grid sample_cost sample_config)
                 = Some 1%nat).
  { vm_compute. reflexivity. }
  rewrite Hnone in Hone. discriminate Hone.
Qed.

(** ** Frames held by reference *)

Section StoreFacts.

Context `{Numerics}.

Lemma df_copy_run (h : Store) l d :
  h !! l = Some d -> df_copy l h = Ok (length h, h ++ [d]).
Proof. intros E. unfold df_copy. rewrite E. reflexivity. Qed.

Lemma df_load_run (h : Store) l d : h !! l = Some d -> df_load l h = Ok (d, h).
Proof. intros E. unfold df_load. rewrite E. reflexivity. Qed.

Lemma lookup_appended (h : Store) d : (h ++ [d]) !! length h = Some d.
Proof. apply list_lookup_middle. reflexivity. Qed.

Lemma lookup_kept (h tail : Store) l d :
  h !! l = Some d -> (h ++ tail) !! l = Some d.
Proof. intros E. rewrite lookup_app_l; [exact E | eapply lookup_lt_Some, E]. Qed.

Lemma run_backtest_ref_run (h : Store) l d position0 cost starting_equity :
  h !! l = Some d ->
  run_backtest_ref l position0 cost starting_equity h =
    match run_backtest d position0 cost starting_equity with
    | Ok r => Ok (r, h ++ [d])
    | Err e => Err e
    end.
Proof.
  intros E. unfold run_backtest_ref, mbind, lift.
  rewrite (df_copy_run h l d E).
  rewrite (df_load_run (h ++ [d]) (length h) d (lookup_appended h d)).
  reflexivity.
Qed.

Lemma resampled_cagr_run (h : Store) l d pos cost cells :
  h !! l = Some d ->
  let d' := set_column d "RetSimple" cells in
  resampled_cagr l pos cost cells h =
    if decide (length cells = length (df_rows d)) then
      match run_backtest d' pos (Some cost) 1 with
      | Ok res =>
          match compute_performance (equity res) (returns res) with
          | Ok perf => Ok (cagr (to_dict perf), (h ++ [d']) ++ [d'])
          | Err e => Err e
          end
      | Err e => Err e
      end
    else Err LengthMismatch.
Proof.
  intros E d'. unfold resampled_cagr, mbind.
  rewrite (df_copy_run h l d E). unfold df_setitem.
  rewrite (lookup_appended h d).
  destruct (decide (length cells = length (df_rows d))) as [Hlen|Hlen];
    [|reflexivity].
  assert (Hins : <[length h := d']> (h ++ [d]) = h ++ [d']).
  { rewrite insert_app_r_alt by lia. rewrite Nat.sub_diag. reflexivity. }
  fold d'. rewrite Hins.
  rewrite (run_backtest_ref_run (h ++ [d']) (length h) d' pos (Some cost) 1
             (lookup_appended h d')).
  destruct (run_backtest d' pos (Some cost) 1) as [res|e]; [|reflexivity].
  unfold lift, mret.
  destruct (compute_performance (equity res) (returns res)); reflexivity.
Qed.

(** *** Locality *)

Lemma frame_local_ret {A} l (a : A) : frame_local l (mret a).
Proof. intros h h' E. simpl. auto. Qed.

Lemma frame_local_lift {A} l (r : result A) : frame_local l (lift r).
Proof. intros h h' E. unfold lift. destruct r; simpl; auto. Qed.

Lemma frame_local_bind {A B} l (m : M A) (k : A -> M B) :
  frame_local l m -> (forall a, frame_local l (k a)) ->
  frame_local l (mbind m k).
Proof.
  intros Hm Hk h h' E. unfold mbind. specialize (Hm h h' E).
  destruct (m h) as [[a h1]|e], (m h') as [[a' h1']|e'];
    try contradiction; [|exact Hm].
  destruct Hm as (<- & E1 & E1').
  assert (E' : h1 !! l = h1' !! l) by congruence.
  specialize (Hk a h1 h1' E').
  destruct (k a h1) as [[b h2]|e2], (k a h1') as [[b' h2']|e2'];
    try contradiction; [|exact Hk].
  destruct Hk as (<- & E2 & E2'). repeat split; congruence.
Qed.

Lemma frame_local_load l : frame_local l (df_load l).
Proof.
  intros h h' E. unfold df_load. rewrite <- E.
  destruct (h !! l) as [d|] eqn:Hl; [|reflexivity].
  repeat split; congruence.
Qed.

Lemma frame_local_run_backtest_ref l position0 cost starting_equity :
  frame_local l (run_backtest_ref l position0 cost starting_equity).
Proof.
  intros h h' E. destruct (h !! l) as [d|] eqn:Hl.
  - symmetry in E.
    rewrite (run_backtest_ref_run h l d _ _ _ Hl),
            (run_backtest_ref_run h' l d _ _ _ E).
    destruct (run_backtest d position0 cost starting_equity); [|reflexivity].
    split; [reflexivity|].
    split; rewrite ?Hl, ?E; apply lookup_kept; assumption.
  - symmetry in E. unfold run_backtest_ref, mbind, df_copy.
    rewrite Hl, E. reflexivity.
Qed.

Lemma frame_local_resampled_cagr l pos cost cells :
  frame_local l (resampled_cagr l pos cost cells).
Proof.
  intros h h' E. destruct (h !! l) as [d|] eqn:Hl.
  - symmetry in E.
    rewrite (resampled_cagr_run h l d _ _ _ Hl),
            (resampled_cagr_run h' l d _ _ _ E).
    destruct (decide _) as [Hlen|Hlen]; [|reflexivity].
    destruct (run_backtest _ pos (Some cost) 1) as [res|e]; [|reflexivity].
    destruct (compute_performance _ _); [|reflexivity].
    split; [reflexivity|].
    split; rewrite ?Hl, ?E, <- app_assoc; apply lookup_kept; assumption.
  - symmetry in E. unfold resampled_cagr, mbind, df_copy.
    rewrite Hl, E. reflexivity.
Qed.

Lemma frame_local_strat_ref strat l params :
  frame_local l (strat_ref strat l params).
Proof.
  apply frame_local_bind; [apply frame_local_load|].
  intros d. apply frame_local_lift.
Qed.

Lemma frame_local_column_values l name : frame_local l (column_values l name).
Proof.
  apply frame_local_bind; [apply frame_local_load|]. intros d.
  apply frame_local_bind; [apply frame_local_lift|]. intros col.
  apply frame_local_ret.
Qed.

Lemma frame_local_permutation_loop k rng l pos cost rets n block blocks stats :
  frame_local l (permutation_loop k rng l pos cost rets n block blocks stats).
Proof.
  revert rng stats. induction k as [|k IH]; intros rng stats; simpl.
  - apply frame_local_ret.
  - destruct (rng_permutation rng blocks) as [order rng'].
    apply frame_local_bind; [apply frame_local_lift|]. intros joined.
    apply frame_local_bind; [apply frame_local_resampled_cagr|]. intros c.
    apply IH.
Qed.

Lemma frame_local_bootstrap_loop k rng l pos cost segments n cagr_list :
  frame_local l (bootstrap_loop k rng l pos cost segments n cagr_list).
Proof.
  revert rng cagr_list. induction k as [|k IH]; intros rng cagr_list; simpl.
  - apply frame_local_ret.
  - apply frame_local_bind; [apply frame_local_lift|]. intros drawn.
    apply frame_local_bind; [apply frame_local_lift|]. intros joined.
    apply frame_local_bind; [apply frame_local_resampled_cagr|]. intros c.
    apply IH.
Qed.

Lemma frame_local_permutation_test l strat params cost n_iter block seed :
  frame_local l (permutation_test l strat params cost n_iter block seed).
Proof.
  unfold permutation_test.
  apply frame_local_bind; [apply frame_local_strat_ref|]. intros pos.
  apply frame_local_bind; [apply frame_local_run_backtest_ref|]. intros res.
  apply frame_local_bind; [apply frame_local_lift|]. intros perf.
  apply frame_local_bind; [apply frame_local_column_values|]. intros rets.
  apply frame_local_bind; [apply frame_local_permutation_loop|]. intros stats.
  apply frame_local_ret.
Qed.

Lemma frame_local_bootstrap_ci l strat params cost n_iter block seed alpha :
  frame_local l (bootstrap_ci l strat params cost n_iter block seed alpha).
Proof.
  unfold bootstrap_ci.
  apply frame_local_bind; [apply frame_local_strat_ref|]. intros pos.
  apply frame_local_bind; [apply frame_local_column_values|]. intros rets.
  apply frame_local_bind; [apply frame_local_bootstrap_loop|]. intros stats.
  apply frame_local_ret.
Qed.

(** A local computation run a second time, on the store the first run
    left, returns what the first run returned. *)
Lemma frame_local_rerun {A} l (m : M A) (h h1 : Store) a :
  frame_local l m -> m h = Ok (a, h1) ->
  h1 !! l = h !! l /\ exists h2, m h1 = Ok (a, h2).
Proof.
  intros Hm Hrun.
  pose proof (Hm h h eq_refl) as Hsame. rewrite Hrun in Hsame.
  destruct Hsame as (_ & Hkept & _). split; [exact Hkept|].
  pose proof (Hm h h1 (eq_sym Hkept)) as Hnext. rewrite Hrun in Hnext.
  destruct (m h1) as [[a' h2]|e]; [|contradiction].
  destruct Hnext as (-> & _). eauto.
Qed.

End StoreFacts.

(** ** Further properties of the backtest engine *)

Section BacktestMore.

Variables (df : DataFrame) (position0 : Series) (cost : option CostModel)
  (starting_equity : Q).

Lemma locals_position_defined l :
  backtest_locals df position0 cost starting_equity = Ok l ->
  all_cells is_Some (l_pos l) /\ all_cells is_Some (l_pos_shift l).
Proof.
  intros Hl.
  destruct (backtest_locals_inv _ _ _ _ _ Hl)
    as (pos0 & _ & _ & _ & Hpos & Hsh & _).
  rewrite Hsh, Hpos. unfold fillna. split.
  - apply all_cells_map with (P1 := fun _ => True).
    + unfold all_cells. apply Forall_true. auto.
    + intros v _. apply fillna_is_Some.
  - apply all_cells_map with (P1 := fun _ => True).
    + unfold all_cells. apply Forall_true. auto.
    + intros v _. apply fillna_is_Some.
Qed.

Lemma locals_turnover_nonneg l :
  backtest_locals df position0 cost starting_equity = Ok l ->
  all_cells holds_nonneg (l_turnover l).
Proof.
  intros Hl. destruct (locals_position_defined l Hl) as [Cpos Csh].
  destruct (backtest_locals_inv _ _ _ _ _ Hl)
    as (pos0 & _ & _ & _ & _ & _ & _ & Htv & _).
  rewrite Htv. unfold series_abs.
  apply all_cells_map with
    (P1 := fun v => exists x y, is_Some x /\ is_Some y /\ v = vsub x y).
  - apply all_cells_zip with (P1 := is_Some) (P2 := is_Some);
      [exact Cpos | exact Csh | eauto].
  - intros v (x & y & Hx & Hy & ->). apply turnover_nonneg; assumption.
Qed.

End BacktestMore.



Section TurnoverSum.

Lemma fillna_shift_flat (s : Series) :
  fillna 0 (shift_from None s) = fillna 0 (shift_from (Some 0) s).
Proof. destruct s as [|[t v] r]; reflexivity. Qed.

Lemma fillna_shift_defined p (s : Series) :
  all_cells is_Some s -> fillna 0 (shift_from (Some p) s) = shift_from (Some p) s.
Proof.
  unfold all_cells. intros Hs. revert p.
  induction Hs as [|[t v] r Hv _ IH]; intros p; [reflexivity|].
  destruct Hv as [x Hx]. simpl in Hx. subst v.
  cbn [shift_from fillna series_map map fst snd vfillna].
  f_equal. apply IH.
Qed.

(** Absolute moves add up to at least the move from the start to the end. *)
Lemma turnover_chain p (s : Series) tn pn :
  all_cells is_Some s ->
  last s = Some (tn, Some pn) ->
  Qabs (pn - p)
    <= series_sum (series_abs (zip_with_index vsub s (shift_from (Some p) s))).
Proof.
  unfold all_cells. intros Hs. revert p.
  induction Hs as [|[t v] r Hv Hr IH]; intros p Hlast; [discriminate|].
  destruct Hv as [x Hx]. simpl in Hx. subst v.
  cbn [shift_from zip_with_index series_abs series_map map fst snd vsub
       vlift2 vabs option_map].
  unfold series_sum. cbn [values map snd vsum fold_right].
  destruct r as [|c r'].
  - injection Hlast as <- <-. cbn [shift_from zip_with_index map fold_right].
    rewrite Qplus_0_r. apply Qle_refl.
  - specialize (IH x Hlast). unfold series_sum, series_abs, series_map in IH.
    eapply Qle_trans; [|apply Qplus_le_r; exact IH].
    assert (E : pn - p == (x - p) + (pn - x)) by ring.
    rewrite E. apply Qabs_triangle.
Qed.

Lemma series_sum_nonneg (s : Series) :
  all_cells holds_nonneg s -> 0 <= series_sum s.
Proof.
  unfold all_cells, series_sum. intros Hs.
  induction Hs as [|[t v] r Hv _ IH]; [apply Qle_refl|].
  destruct Hv as [x [Hx Hx0]]. simpl in Hx. subst v.
  cbn [values map snd vsum fold_right].
  change (0 <= x + series_sum r). unfold series_sum.
  change (vsum (values r)) with (vsum (map snd r)) in *.
  unfold vsum in *. lra.
Qed.

End TurnoverSum.

(** X2. The turnover of a returned result adds up to at least the distance
    between the first and the last realized position, and to at least the
    size of the last one (the run starts flat). *)
Theorem run_backtest_turnover_sum df position0 cost starting_equity r
    t0 p0 tn pn :
  run_backtest df position0 cost starting_equity = Ok r ->
  head (position r) = Some (t0, Some p0) ->
  last (position r) = Some (tn, Some pn) ->
  Qabs (pn - p0) <= series_sum (turnover r) /\
  Qabs pn <= series_sum (turnover r).
Proof.
  intros Hrun Hhead Hlast.
  destruct (run_backtest_locals _ _ _ _ _ Hrun) as [l [Hl ->]].
  destruct (locals_position_defined _ _ _ _ l Hl) as [Cpos _].
  pose proof (locals_turnover_nonneg _ _ _ _ l Hl) as Ctv.
  destruct (backtest_locals_inv _ _ _ _ _ Hl)
    as (pos0 & _ & _ & _ & _ & Hsh & _ & Htv & _).
  cbn [position turnover] in *.
  assert (Hshift : l_pos_shift l = shift_from (Some 0) (l_pos l)).
  { rewrite Hsh. unfold shift1. rewrite fillna_shift_flat.
    apply fillna_shift_defined, Cpos. }
  rewrite Hshift in Htv.
  pose proof (turnover_chain 0 (l_pos l) tn pn Cpos Hlast) as Hend.
  rewrite <- Htv in Hend.
  split.
  - destruct (l_pos l) as [|[t v] rest] eqn:Epos; [discriminate|].
    injection Hhead as -> ->.
    destruct rest as [|c rest'].
    + injection Hlast as <- <-.
      assert (E : p0 - p0 == 0) by ring. rewrite E.
      apply series_sum_nonneg, Ctv.
    + apply Forall_cons in Cpos as [_ Crest].
      pose proof (turnover_chain p0 (c :: rest') tn pn Crest Hlast) as Hmid.
      rewrite Htv.
      cbn [shift_from zip_with_index series_abs series_map map fst snd vsub
           vlift2 vabs option_map].
      unfold series_sum. cbn [values map snd vsum fold_right].
      unfold series_sum, series_abs, series_map in Hmid.
      pose proof (Qabs_nonneg (p0 - 0)) as Hfirst.
      eapply Qle_trans; [exact Hmid|].
      rewrite <- (Qplus_0_l (vsum _)) at 1. apply Qplus_le_l. exact Hfirst.
  - assert (E : pn == pn - 0) by ring. rewrite E at 1. exact Hend.
Qed.

Lemma run_backtest_turnover_sum_witness :
  Qabs (1 - 0) <= series_sum (turnover sample_result) /\
  Qabs 1 <= series_sum (turnover sample_result).
Proof.
  apply (run_backtest_turnover_sum sample_frame sample_position
           (Some sample_cost) 1 sample_result (bar 1) 0 (bar 3) 1).
  - vm_compute. reflexivity.
  - vm_compute. reflexivity.
  - vm_compute. reflexivity.
Defined.

Section Compounding.



Lemma lookup_label_NoDup (s : Series) i t v :
  NoDup (index s) -> s !! i = Some (t, v) -> lookup_label None s t = v.
Proof.
  revert i. induction s as [|[t0 v0] r IH]; intros [|i] Hnd; simpl;
    try discriminate.
  - intros [= -> ->]. destruct (decide (t = t)); [reflexivity | contradiction].
  - intros Hi. simpl in Hnd. apply NoDup_cons in Hnd as [Hnotin Hnd].
    destruct (decide (t0 = t)) as [->|_]; [|eapply IH; eassumption].
    exfalso. apply Hnotin. apply list_elem_of_lookup. exists i.
    unfold index. rewrite lookup_map, Hi. reflexivity.
Qed.

Lemma rows_related_same (s : Series) : rows_related eq s s.
Proof. unfold rows_related. induction s; constructor; auto. Qed.

End Compounding.

Section BacktestRows.

Variables (df : DataFrame) (position0 : Series) (cost : option CostModel)
  (starting_equity : Q).

(** The PnL of a row is the return of the row times the position before. *)
Lemma locals_pnl_rows l :
  backtest_locals df position0 cost starting_equity = Ok l ->
  forall i t x,
    l_ret l !! i = Some (t, x) ->
    l_pnl l !! i = Some (t, vmul (previous_position (l_pos l) i) x).
Proof.
  intros Hl i t x Hi.
  destruct (backtest_locals_inv _ _ _ _ _ Hl)
    as (pos0 & _ & _ & _ & Hpos & Hsh & Hpnl & _ & _ & _ & _ & Hiret
        & Hipos & _).
  destruct (lookup_same_index (l_ret l) (l_pos l) i t x) as [v Hv];
    [congruence | assumption |].
  rewrite Hpnl. apply lookup_zip_with_index with (u := t); [|exact Hi].
  rewrite Hsh. rewrite Hpos in Hv |- *. eapply shifted_position, Hv.
Qed.

End BacktestRows.



(** X4. Laying the positions on the frame: with labels that do not repeat,
    the realized position of a row is the supplied position under the
    timestamp of the row, and 0 when there is none or when it is missing. *)
Theorem run_backtest_position_by_label df position0 cost starting_equity r :
  run_backtest df position0 cost starting_equity = Ok r ->
  NoDup (index position0) ->
  forall i t v,
    position r !! i = Some (t, v) ->
    v = vfillna 0 (lookup_label None position0 t).
Proof.
  intros Hrun Hnd i t v Hi.
  destruct (run_backtest_locals _ _ _ _ _ Hrun) as [l [Hl ->]].
  destruct (backtest_locals_inv _ _ _ _ _ Hl)
    as (pos0 & _ & _ & Hre & Hpos & _).
  cbn [position] in Hi. rewrite Hpos in Hi. unfold fillna in Hi.
  rewrite lookup_series_map in Hi.
  destruct (pos0 !! i) as [[u w]|] eqn:Hw; [|discriminate].
  cbn [option_map fst snd] in Hi. injection Hi as -> <-. f_equal.
  unfold reindex in Hre.
  destruct (decide (index position0 = df_index df)) as [E|E].
  - injection Hre as <-. symmetry. eapply lookup_label_NoDup; eassumption.
  - destruct (decide (NoDup (index position0))); [|discriminate].
    injection Hre as <-. unfold take_labels in Hw. rewrite lookup_map in Hw.
    destruct (df_index df !! i); [|discriminate].
    injection Hw as -> <-. reflexivity.
Qed.

Lemma run_backtest_position_by_label_witness :
  exists t v,
    position sample_result !! 1%nat = Some (t, v) /\
    v = vfillna 0 (lookup_label None sample_position t).
Proof.
  destruct (position sample_result !! 1%nat) as [[t v]|] eqn:E;
    [|vm_compute in E; discriminate E].
  exists t, v. split; [reflexivity|].
  apply (run_backtest_position_by_label sample_frame sample_position
           (Some sample_cost) 1 sample_result) with (i := 1%nat).
  - vm_compute. reflexivity.
  - apply (bool_decide_unpack _). vm_compute. exact I.
  - exact E.
Defined.

Section ZeroCost.

Lemma veq_sub_zero p c :
  holds 0 c -> veq (vsub p c) p.
Proof.
  intros [q [-> Hq]]. destruct p as [a|]; simpl; [|exact I].
  rewrite Hq. ring.
Qed.

End ZeroCost.

(** X5. Without costs the net return is the lagged position times the
    simple return: when commission and slippage add up to zero, the net
    return of every row is the return of the row times the realized position
    of the row before (0 for the first row).  Holding one unit throughout
    therefore earns the simple return itself from the second row on. *)
Theorem run_backtest_zero_cost df position0 c starting_equity r :
  run_backtest df position0 (Some c) starting_equity = Ok r ->
  per_trade_bps c == 0 ->
  exists ret,
    df_get df "RetSimple" = Some ret /\
    (forall i t x,
        ret !! i = Some (t, x) ->
        exists v, returns r !! i = Some (t, v) /\
                  veq v (vmul (previous_position (position r) i) x)) /\
    (all_cells (holds 1) (position r) ->
     forall i t x,
       ret !! S i = Some (t, x) ->
       exists v, returns r !! S i = Some (t, v) /\ veq v x).
Proof.
  intros Hrun Hfree.
  destruct (run_backtest_locals _ _ _ _ _ Hrun) as [l [Hl ->]].
  pose proof (locals_pnl_rows _ _ _ _ l Hl) as Hrows.
  pose proof (locals_turnover_nonneg _ _ _ _ l Hl) as Ctv.
  destruct (backtest_locals_inv _ _ _ _ _ Hl)
    as (pos0 & Hget & _ & _ & _ & _ & _ & _ & Hcs & Hnet & _ & Hiret & Hipos
        & _ & Hipnl & _ & Hics & _).
  cbn [returns position default from_option id] in *.
  exists (l_ret l). split; [exact Hget|].
  assert (Ccs : all_cells (holds 0) (l_costs l)).
  { rewrite Hcs. unfold series_scale. eapply all_cells_map; [exact Ctv|].
    intros v [q [-> _]]. unfold vmul, vlift2. eexists. split; [reflexivity|].
    unfold per_trade_bps in Hfree. rewrite Hfree.
    unfold Qdiv. ring. }
  assert (Hnetrow : forall i t x,
             l_ret l !! i = Some (t, x) ->
             exists v, l_net_ret l !! i = Some (t, v) /\
                       veq v (vmul (previous_position (l_pos l) i) x)).
  { intros i t x Hi. pose proof (Hrows i t x Hi) as Hp.
    destruct (lookup_same_index (l_pnl l) (l_costs l) i t
                (vmul (previous_position (l_pos l) i) x)) as [cv Hc];
      [congruence | exact Hp |].
    exists (vsub (vmul (previous_position (l_pos l) i) x) cv). split.
    - rewrite Hnet. eapply lookup_zip_with_index; eassumption.
    - apply veq_sub_zero. unfold all_cells in Ccs.
      rewrite List.Forall_forall in Ccs.
      apply (Ccs (t, cv)), list_elem_of_In, list_elem_of_lookup. eauto. }
  split; [exact Hnetrow|].
  intros Hone i t x Hi. destruct (Hnetrow (S i) t x Hi) as [v [Hv Hveq]].
  exists v. split; [exact Hv|].
  cbn [previous_position] in Hveq.
  destruct (l_pos l !! i) as [[u w]|] eqn:Hw.
  - assert (Hw1 : holds 1 w).
    { unfold all_cells in Hone. rewrite List.Forall_forall in Hone.
      apply (Hone (u, w)), list_elem_of_In, list_elem_of_lookup. eauto. }
    destruct Hw1 as [q [-> Hq]].
    destruct v as [a|], x as [b|]; simpl in *; try contradiction; [|exact I].
    rewrite Hveq, Hq. ring.
  - exfalso.
    destruct (lookup_same_index (l_ret l) (l_pos l) (S i) t x) as [w Hw'];
      [congruence | exact Hi |].
    apply lookup_lt_Some in Hw'. apply lookup_ge_None in Hw. lia.
Qed.

Lemma run_backtest_zero_cost_witness :
  (exists v, returns hold_result_free !! 0%nat = Some (bar 1, v) /\
             veq v (Some 0)) /\
  (exists v, returns hold_result_free !! 2%nat = Some (bar 3, v) /\
             veq v (Some (1 # 100))).
Proof.
  destruct (run_backtest_zero_cost sample_frame hold_position free_cost 1
              hold_result_free) as (ret & Hget & Hrows & Hhold).
  - vm_compute. reflexivity.
  - vm_compute. reflexivity.
  - assert (Hret : ret = column_of sample_frame "RetSimple").
    { assert (Hcol : df_get sample_frame "RetSimple"
                     = Some (column_of sample_frame "RetSimple")).
      { vm_compute. reflexivity. }
      congruence. }
    subst ret. split.
    + destruct (Hrows 0%nat (bar 1) (Some 0)) as [v [Hv Hveq]];
        [vm_compute; reflexivity|].
      exists v. split; [exact Hv|].
      destruct v as [q|]; simpl in *; [|contradiction].
      rewrite Hveq. reflexivity.
    + apply (Hhold ltac:(repeat constructor; simpl; eexists;
                          split; reflexivity) 1%nat (bar 3) (Some (1 # 100))).
      vm_compute. reflexivity.
Defined.

(** X6. The starting equity is a scale: a run on any starting equity has
    the returns, positions, turnover and costs of the run on a unit, and on
    every row its equity times the starting equity. *)
Theorem run_backtest_equity_scale df position0 cost starting_equity r :
  run_backtest df position0 cost starting_equity = Ok r ->
  exists r1,
    run_backtest df position0 cost 1 = Ok r1 /\
    returns r = returns r1 /\ position r = position r1 /\
    turnover r = turnover r1 /\ costs r = costs r1 /\
    rows_related (scaled_by starting_equity) (equity r1) (equity r).
Proof.
  unfold run_backtest, backtest_locals.
  destruct (df_get df "RetSimple") as [ret|]; [|discriminate].
  destruct (all_na ret); [discriminate|].
  destruct (reindex position0 (df_index df)) as [pos0|e]; [|discriminate].
  cbn [rbind]. intros [= <-]. eexists. split; [reflexivity|].
  cbn [returns position turnover costs equity l_equity l_net_ret l_pos
       l_turnover l_costs].
  repeat (split; [reflexivity|]).
  unfold series_scale.
  eapply rows_related_map2; [apply rows_related_same|].
  intros x y <-. destruct x as [a|]; simpl; [|exact I]. ring.
Qed.

Lemma run_backtest_equity_scale_witness :
  exists r1,
    run_backtest sample_frame sample_position (Some sample_cost) 1 = Ok r1 /\
    returns sample_result_tenfold = returns r1 /\
    position sample_result_tenfold = position r1 /\
    turnover sample_result_tenfold = turnover r1 /\
    costs sample_result_tenfold = costs r1 /\
    rows_related (scaled_by 10) (equity r1) (equity sample_result_tenfold).
Proof.
  apply (run_backtest_equity_scale sample_frame sample_position
           (Some sample_cost) 10 sample_result_tenfold).
  vm_compute. reflexivity.
Defined.

(** ** Gaps in the returns *)

Section Gaps.






Variables (df : DataFrame) (position0 : Series) (cost : option CostModel)
  (starting_equity : Q).


End Gaps.



(** ** The performance record *)

Section PerformanceFacts.

Context `{Numerics}.

Lemma dropna_defined (s : Series) : all_cells is_Some (dropna s).
Proof.
  unfold all_cells, dropna. induction s as [|[t [x|]] r IH]; simpl;
    [constructor | constructor; simpl; eauto | exact IH].
Qed.

Lemma dropna_nil (s : Series) : dropna s = [] <-> all_na s = true.
Proof.
  unfold dropna, all_na, values. induction s as [|[t [x|]] r IH]; simpl.
  - tauto.
  - split; discriminate.
  - exact IH.
Qed.

Lemma last_defined (s : Series) :
  all_cells is_Some s -> s <> [] -> exists t x, last s = Some (t, Some x).
Proof.
  unfold all_cells. intros Hs Hne.
  induction Hs as [|[t v] r Hv Hr IH]; [contradiction|].
  destruct r as [|c r'].
  - destruct Hv as [x Hx]. simpl in Hx. subst v. simpl. eauto.
  - apply IH. discriminate.
Qed.

Lemma first_last_defined (s : Series) :
  all_cells is_Some s -> s <> [] -> exists fl, first_last s = Some fl.
Proof.
  intros Hs Hne. destruct (last_defined s Hs Hne) as (t1 & x1 & Hlast).
  destruct s as [|[t0 v0] r]; [contradiction|].
  apply Forall_cons in Hs as [[x0 Hx0] _]. simpl in Hx0. subst v0.
  unfold first_last. rewrite Hlast. eauto.
Qed.

Lemma first_last_nil : first_last [] = None.
Proof. reflexivity. Qed.

Lemma compute_performance_returns equity returns :
  all_na equity = false ->
  exists p, compute_performance equity returns = Ok p.
Proof.
  intros Hna. unfold compute_performance.
  destruct (first_last_defined (dropna equity)) as [[[t0 e0] [t1 e1]] Hfl].
  - apply dropna_defined.
  - intros Hnil. apply dropna_nil in Hnil. congruence.
  - rewrite Hfl. eauto.
Qed.

End PerformanceFacts.

(** X8. [compute_performance] fails exactly on an equity curve without a
    single number (empty, or all gaps), and then with [EmptySeriesError];
    on any other curve it returns a record. *)
Theorem compute_performance_empty `{Numerics} equity returns :
  (compute_performance equity returns = Err EmptySeriesError <->
   all_na equity = true) /\
  (all_na equity = false ->
   exists p, compute_performance equity returns = Ok p) /\
  (forall e, compute_performance equity returns = Err e ->
             e = EmptySeriesError).
Proof.
  assert (Hempty : all_na equity = true ->
                   compute_performance equity returns = Err EmptySeriesError).
  { intros Hna. unfold compute_performance.
    apply dropna_nil in Hna. rewrite Hna. reflexivity. }
  split; [|split].
  - split; [|exact Hempty].
    intros Herr. destruct (all_na equity) eqn:Hna; [reflexivity|].
    destruct (compute_performance_returns equity returns Hna) as [p Hp].
    congruence.
  - apply compute_performance_returns.
  - intros e He. destruct (all_na equity) eqn:Hna.
    + rewrite (Hempty eq_refl) in He. congruence.
    + destruct (compute_performance_returns equity returns Hna) as [p Hp].
      congruence.
Qed.

Lemma compute_performance_empty_witness :
  exists p, @compute_performance toy_numerics dip_equity dip_returns = Ok p.
Proof.
  apply (@compute_performance_empty toy_numerics dip_equity dip_returns).
  vm_compute. reflexivity.
Defined.



(** ** Drawdown *)

Section Drawdown.

Lemma zip_related_cells {C} (R : Val -> Val -> Prop) (Q : C -> Prop)
  (f : Val -> Val -> C) (a b : Series) :
  rows_related R a b -> (forall x y, R x y -> Q (f x y)) ->
  all_cells Q (zip_with_index f a b).
Proof.
  unfold rows_related, all_cells. intros Hab Hf.
  induction Hab as [|[t x] [u y] a b [_ Hr] _ IH]; simpl in *;
    constructor; simpl; auto.
Qed.

Lemma all_cells_map_cells {A B} (P : A -> Prop) (Q : B -> Prop) (f : A -> B)
  (s : list (Timestamp * A)) :
  all_cells P s -> (forall x, P x -> Q (f x)) ->
  all_cells Q (map (fun p => (fst p, f (snd p))) s).
Proof.
  unfold all_cells. intros Hs Hf.
  induction Hs as [|[t x] r Hx _ IH]; simpl in *; constructor; simpl; auto.
Qed.

Lemma cummax_under_peak peak (s : Series) :
  all_cells holds_positive s ->
  rows_related under_peak s (cummax_from peak s).
Proof.
  unfold all_cells, rows_related. intros Hs. revert peak.
  induction Hs as [|[t v] r Hv _ IH]; intros peak; [constructor|].
  destruct Hv as [x [Hx Hpos]]. simpl in Hx. subst v.
  cbn [cummax_from]. constructor; [|apply IH].
  split; [reflexivity|]. cbn [snd]. unfold under_peak.
  eexists. eexists. split; [reflexivity|]. split; [reflexivity|].
  split; [exact Hpos|].
  destruct peak as [p|]; [apply Q.le_max_r | apply Qle_refl].
Qed.

Lemma cummax_at_peak p (s : Series) :
  0 < p -> climbs_from p s ->
  rows_related at_peak s (cummax_from (Some p) s).
Proof.
  unfold rows_related. revert p.
  induction s as [|[t [x|]] r IH]; intros p Hp Hclimb;
    cbn [climbs_from cummax_from] in *; [constructor | | contradiction].
  destruct Hclimb as [Hpx Hrest].
  assert (Hm : Qmax p x == x) by (apply Q.max_r; exact Hpx).
  assert (Hx : 0 < x) by (eapply Qlt_le_trans; eassumption).
  constructor.
  - split; [reflexivity|]. cbn [snd]. unfold at_peak.
    eexists. eexists. split; [reflexivity|]. split; [reflexivity|].
    split; [exact Hx|]. symmetry. exact Hm.
  - apply IH.
    + rewrite Hm. exact Hx.
    + clear -Hrest Hm. destruct r as [|[u [y|]] r']; cbn [climbs_from] in *;
        [exact I | | contradiction].
      destruct Hrest as [Hxy Hr]. split; [|exact Hr]. rewrite Hm. exact Hxy.
Qed.

Lemma cummax_climb p (s : Series) :
  0 < p -> climbs_from p s -> rows_related at_peak s (cummax s).
Proof.
  unfold cummax. destruct s as [|[t [x|]] r]; cbn [climbs_from cummax_from];
    [constructor | | contradiction].
  intros Hp [Hpx Hrest].
  assert (Hx : 0 < x) by (eapply Qlt_le_trans; eassumption).
  constructor.
  - split; [reflexivity|]. cbn [snd]. unfold at_peak.
    eexists. eexists. split; [reflexivity|]. split; [reflexivity|].
    split; [exact Hx | reflexivity].
  - apply cummax_at_peak; assumption.
Qed.

Lemma drawdown_under_peak x m :
  under_peak x m ->
  is_drawdown (xsub (xdiv (x_of_val x) (x_of_val m)) (XFin 1)).
Proof.
  intros (a & b & -> & -> & Ha & Hab).
  assert (Hb : 0 < b) by (eapply Qlt_le_trans; eassumption).
  cbn [x_of_val xdiv]. unfold Qzerob.
  destruct (Qeq_bool b 0) eqn:Hz.
  { apply Qeq_bool_iff in Hz. rewrite Hz in Hb. discriminate Hb. }
  cbn [xsub]. eexists. split; [reflexivity|].
  assert (Hq : 0 < a / b) by (apply Qlt_shift_div_l; [exact Hb | lra]).
  assert (Hq1 : a / b <= 1) by (apply Qle_shift_div_r; [exact Hb | lra]).
  split; lra.
Qed.

Lemma drawdown_at_peak x m :
  at_peak x m ->
  xholds 0 (xsub (xdiv (x_of_val x) (x_of_val m)) (XFin 1)).
Proof.
  intros (a & b & -> & -> & Ha & Hab).
  assert (Hb : 0 < b) by (rewrite <- Hab; exact Ha).
  cbn [x_of_val xdiv]. unfold Qzerob.
  destruct (Qeq_bool b 0) eqn:Hz.
  { apply Qeq_bool_iff in Hz. rewrite Hz in Hb. discriminate Hb. }
  cbn [xsub]. eexists. split; [reflexivity|].
  rewrite Hab. field. intros Hb0. rewrite Hb0 in Hb. discriminate Hb.
Qed.

Lemma drawdown_cells (R : Val -> Val -> Prop) (Q : xval -> Prop)
  (equity : Series) :
  rows_related R equity (cummax equity) ->
  (forall x m, R x m -> Q (xsub (xdiv (x_of_val x) (x_of_val m)) (XFin 1))) ->
  all_cells Q (drawdown equity).
Proof.
  intros Hrel HQ. unfold drawdown, series_div.
  rewrite series_binop_aligned by (eapply rows_related_index, Hrel).
  apply (all_cells_map_cells
    (fun y => exists x m, R x m /\ y = xdiv (x_of_val x) (x_of_val m))
    Q (fun y => xsub y (XFin 1))).
  - eapply zip_related_cells; [exact Hrel|]. intros x m Hxm. eauto.
  - intros y (x & m & Hxm & ->). apply HQ, Hxm.
Qed.

Lemma index_drawdown (R : Val -> Val -> Prop) (equity : Series) :
  rows_related R equity (cummax equity) ->
  index (drawdown equity) = index equity.
Proof.
  intros Hrel. pose proof (rows_related_index _ _ _ Hrel) as Hi.
  unfold drawdown, series_div.
  rewrite (index_map_cells (fun y => xsub y (XFin 1))).
  apply index_series_binop. exact Hi.
Qed.

(** The smallest of drawdowns is a drawdown. *)
Lemma xmin_is_drawdown (cells : list xval) acc :
  Forall is_drawdown cells ->
  acc = XNaN \/ is_drawdown acc ->
  (cells <> [] \/ acc <> XNaN) ->
  is_drawdown (fold_left xmin_step cells acc).
Proof.
  intros Hc. revert acc.
  induction Hc as [|x cells Hx _ IH]; intros acc Hacc Hne; simpl.
  - destruct Hacc as [->|Hacc]; [|exact Hacc].
    destruct Hne as [Hne|Hne]; contradiction.
  - apply IH.
    + right. destruct Hx as [q [-> Hq]].
      destruct Hacc as [->|[p [-> Hp]]]; unfold xmin_step.
      * exists q. split; [reflexivity | exact Hq].
      * destruct (xltb (XFin q) (XFin p));
          [exists q | exists p]; (split; [reflexivity | assumption]).
    + right. destruct Hx as [q [-> Hq]].
      destruct Hacc as [->|[p [-> Hp]]]; unfold xmin_step; [discriminate|].
      destruct (xltb (XFin q) (XFin p)); discriminate.
Qed.

End Drawdown.

(** X10. On an equity curve of positive numbers every drawdown lies
    between -1, excluded, and 0, on the index of the curve; so does the
    maximum drawdown, the smallest of them, when the curve has a row. *)
Theorem drawdown_bounds equity :
  all_cells holds_positive equity ->
  index (drawdown equity) = index equity /\
  all_cells is_drawdown (drawdown equity) /\
  (equity <> [] -> is_drawdown (xseries_min (drawdown equity))).
Proof.
  intros Hpos.
  pose proof (cummax_under_peak None equity Hpos) as Hrel.
  fold (cummax equity) in Hrel.
  pose proof (drawdown_cells under_peak is_drawdown equity Hrel
                drawdown_under_peak) as Hcells.
  split; [eapply index_drawdown, Hrel|]. split; [exact Hcells|].
  intros Hne. unfold xseries_min. apply xmin_is_drawdown.
  - unfold all_cells in Hcells. unfold values.
    apply List.Forall_forall. intros x Hx.
    apply in_map_iff in Hx as [[t x'] [<- Hin]].
    rewrite List.Forall_forall in Hcells. apply (Hcells (t, x') Hin).
  - left. reflexivity.
  - left. intros Hnil. apply Hne.
    assert (Hlen : length (index (drawdown equity)) = length (index equity)).
    { f_equal. eapply index_drawdown, Hrel. }
    rewrite !length_index in Hlen. unfold values in Hnil.
    apply (f_equal (@length xval)) in Hnil. rewrite length_map in Hnil.
    simpl in Hnil. destruct equity; [reflexivity|].
    simpl in Hlen. lia.
Qed.

Lemma drawdown_bounds_witness :
  index (drawdown dip_equity) = index dip_equity /\
  all_cells is_drawdown (drawdown dip_equity) /\
  is_drawdown (xseries_min (drawdown dip_equity)).
Proof.
  destruct (drawdown_bounds dip_equity) as (Hi & Hc & Hm).
  - repeat constructor; simpl; eexists; split; reflexivity.
  - split; [exact Hi|]. split; [exact Hc|]. apply Hm. discriminate.
Defined.

Section DrawdownLength.

Lemma dd_days_loop_flat (flags : list bool) cur longest :
  Forall (fun flag => flag = false) flags ->
  dd_days_loop flags cur longest = longest.
Proof.
  intros Hf. revert cur.
  induction Hf as [|flag rest -> _ IH]; intros cur; simpl; auto.
Qed.

Lemma x_nonzero_zero x : xholds 0 x -> x_nonzero x = false.
Proof.
  intros [q [-> Hq]]. unfold x_nonzero, Qzerob.
  rewrite (Qeq_eq_bool _ _ Hq). reflexivity.
Qed.

(** The loop never reports less than a run it has met. *)
Lemma dd_days_loop_covers (flags : list bool) :
  forall cur longest, (cur <= longest)%nat ->
  (longest <= dd_days_loop flags cur longest)%nat /\
  (forall m b, flags = repeat true m ++ b ->
     (cur + m <= dd_days_loop flags cur longest)%nat) /\
  (forall a m b, flags = a ++ repeat true m ++ b ->
     (m <= dd_days_loop flags cur longest)%nat).
Proof.
  induction flags as [|flag rest IH]; intros cur longest Hcur.
  - cbn [dd_days_loop]. split; [lia|]. split.
    + intros m b E. destruct m; [lia | discriminate E].
    + intros a m b E. destruct a; [|discriminate E].
      destruct m; [lia | discriminate E].
  - destruct flag; cbn [dd_days_loop].
    + destruct (IH (S cur) (Nat.max longest (S cur))) as (Hl & Hp & Hg);
        [lia|].
      split; [lia|]. split.
      * intros m b E. destruct m as [|m]; [lia|].
        simpl in E. injection E as E. specialize (Hp m b E). lia.
      * intros a m b E. destruct a as [|x a].
        -- destruct m as [|m]; [lia|].
           simpl in E. injection E as E. specialize (Hp m b E). lia.
        -- simpl in E. injection E as _ E. apply (Hg a m b E).
    + destruct (IH 0%nat longest) as (Hl & Hp & Hg); [lia|].
      split; [lia|]. split.
      * intros m b E. destruct m as [|m]; [lia | discriminate E].
      * intros a m b E. destruct a as [|x a].
        -- destruct m as [|m]; [lia | discriminate E].
        -- simpl in E. injection E as _ E. apply (Hg a m b E).
Qed.

(** What the loop reports is what it was given, or the run in progress
    carried on, or a run found later. *)
Lemma dd_days_loop_attained (flags : list bool) :
  forall cur longest,
  dd_days_loop flags cur longest = longest \/
  (exists m b, flags = repeat true m ++ b /\
     dd_days_loop flags cur longest = (cur + m)%nat) \/
  (exists a b,
     flags = a ++ repeat true (dd_days_loop flags cur longest) ++ b).
Proof.
  induction flags as [|flag rest IH]; intros cur longest.
  - left. reflexivity.
  - destruct flag; cbn [dd_days_loop].
    + destruct (IH (S cur) (Nat.max longest (S cur)))
        as [E | [(m & b & E & Hd) | (a & b & E)]].
      * destruct (Nat.max_spec longest (S cur)) as [[_ Hm]|[_ Hm]].
        -- right; left. exists 1%nat, rest. split; [reflexivity|].
           rewrite E, Hm. lia.
        -- left. rewrite E, Hm. reflexivity.
      * right; left. exists (S m), b. split.
        -- simpl. rewrite <- E. reflexivity.
        -- rewrite Hd. lia.
      * right; right. exists (true :: a), b. simpl. rewrite <- E.
        reflexivity.
    + destruct (IH 0%nat longest) as [E | [(m & b & E & Hd) | (a & b & E)]].
      * left. exact E.
      * right; right. exists [false], b. rewrite Hd. simpl.
        rewrite <- E. reflexivity.
      * right; right. exists (false :: a), b. simpl. rewrite <- E.
        reflexivity.
Qed.

End DrawdownLength.

(** X11. An equity curve of numbers that never falls, from a positive
    start, has no drawdown: every drawdown is 0 and the longest drawdown
    lasts 0 bars. *)
Theorem drawdown_of_climb p equity :
  0 < p -> climbs_from p equity ->
  all_cells (xholds 0) (drawdown equity) /\
  max_dd_days (drawdown equity) = 0%nat.
Proof.
  intros Hp Hclimb.
  pose proof (cummax_climb p equity Hp Hclimb) as Hrel.
  pose proof (drawdown_cells at_peak (xholds 0) equity Hrel
                drawdown_at_peak) as Hcells.
  split; [exact Hcells|].
  unfold max_dd_days. apply dd_days_loop_flat.
  unfold all_cells in Hcells. unfold values. rewrite map_map.
  apply List.Forall_forall. intros flag Hin.
  apply in_map_iff in Hin as [[t x] [<- Hin]].
  rewrite List.Forall_forall in Hcells.
  apply x_nonzero_zero, (Hcells (t, x) Hin).
Qed.

Lemma drawdown_of_climb_witness :
  all_cells (xholds 0) (drawdown climb_equity) /\
  max_dd_days (drawdown climb_equity) = 0%nat.
Proof.
  apply (drawdown_of_climb 100 climb_equity); [reflexivity|].
  simpl. repeat split; discriminate.
Defined.

(** X12. The drawdown length reported is the length of the longest run of
    consecutive bars off the peak: such a run of that length is in the
    series, and no run of such bars is longer. *)
Theorem max_dd_days_longest_run (dd : XSeries) :
  (exists a b,
     map x_nonzero (values dd) = a ++ repeat true (max_dd_days dd) ++ b) /\
  (forall a m b,
     map x_nonzero (values dd) = a ++ repeat true m ++ b ->
     (m <= max_dd_days dd)%nat).
Proof.
  unfold max_dd_days. split.
  - destruct (dd_days_loop_attained (map x_nonzero (values dd)) 0 0)
      as [E | [(m & b & E & Hd) | (a & b & E)]].
    + exists [], (map x_nonzero (values dd)). rewrite E. reflexivity.
    + exists [], b. rewrite Hd. exact E.
    + exists a, b. exact E.
  - intros a m b E.
    destruct (dd_days_loop_covers (map x_nonzero (values dd)) 0 0)
      as (_ & _ & Hg); [lia|].
    apply (Hg a m b E).
Qed.

Lemma max_dd_days_longest_run_witness :
  (2 <= max_dd_days (drawdown dip_equity))%nat.
Proof.
  destruct (max_dd_days_longest_run (drawdown dip_equity)) as [_ Hrun].
  apply (Hrun [false; false] 2%nat [false]). reflexivity.
Defined.

(** ** Wins and losses *)

Lemma Qzerob_zero a : Qzerob a = true <-> a == 0.
Proof. apply Qeq_bool_iff. Qed.

Lemma Qltb_ge a b : Qltb a b = false <-> b <= a.
Proof.
  unfold Qltb. rewrite negb_false_iff. apply Qle_bool_iff.
Qed.

Lemma Qzerob_nonzero a : Qzerob a = false <-> ~ a == 0.
Proof.
  rewrite <- Qzerob_zero. symmetry. apply Bool.not_true_iff_false.
Qed.

Ltac sign_facts :=
  repeat match goal with
  | H : Qltb _ _ = true |- _ => apply Qltb_lt in H
  | H : Qltb _ _ = false |- _ => apply Qltb_ge in H
  | H : Qzerob _ = true |- _ => apply Qzerob_zero in H
  | H : Qzerob _ = false |- _ => apply Qzerob_nonzero in H
  end.

(** A number is not zero when it is positive or negative, and it is never
    both. *)
Lemma sign_split a :
  negb (Qzerob a) = xorb (Qltb 0 a) (Qltb a 0) /\
  (Qltb 0 a && Qltb a 0 = false).
Proof.
  destruct (Qltb 0 a) eqn:Hp; destruct (Qltb a 0) eqn:Hn;
    destruct (Qzerob a) eqn:Hz; simpl; split; try reflexivity; exfalso;
    sign_facts; lra.
Qed.

Lemma filter_bool_cons {A} (f : A -> bool) (x : A) (l : list A) :
  filter (fun y => Is_true (f y)) (x :: l)
  = if f x then x :: filter (fun y => Is_true (f y)) l
    else filter (fun y => Is_true (f y)) l.
Proof.
  rewrite filter_cons. destruct (decide (Is_true (f x))) as [Hx|Hx];
    destruct (f x); simpl in Hx; try reflexivity; contradiction.
Qed.

Lemma length_filter_filter {A} (f g : A -> bool) (l : list A) :
  length (filter (fun y => Is_true (g y)) (filter (fun y => Is_true (f y)) l))
  = length (filter (fun y => Is_true (f y && g y)) l).
Proof.
  induction l as [|x l IH]; [reflexivity|].
  rewrite (filter_bool_cons f), (filter_bool_cons (fun y => f y && g y)).
  destruct (f x); cbn [andb]; [|exact IH].
  rewrite (filter_bool_cons g). destruct (g x); cbn [length]; congruence.
Qed.

Lemma length_filter_ext {A} (f g : A -> bool) (l : list A) :
  (forall x, f x = g x) ->
  length (filter (fun y => Is_true (f y)) l)
  = length (filter (fun y => Is_true (g y)) l).
Proof.
  intros E. induction l as [|x l IH]; [reflexivity|].
  rewrite (filter_bool_cons f), (filter_bool_cons g), E.
  destruct (g x); cbn [length]; congruence.
Qed.

(** Lists of the two signs split the numbers that are not zero. *)
Lemma length_sign_split (l : list Q) :
  (length (filter (fun q => Is_true (negb (Qzerob q) && Qltb 0 q)) l)
   + length (filter (fun q => Is_true (negb (Qzerob q) && Qltb q 0)) l)
   = length (filter (fun q => Is_true (negb (Qzerob q))) l))%nat.
Proof.
  induction l as [|x l IH]; [reflexivity|].
  rewrite (filter_bool_cons (fun q => negb (Qzerob q) && Qltb 0 q)),
    (filter_bool_cons (fun q => negb (Qzerob q) && Qltb q 0)),
    (filter_bool_cons (fun q => negb (Qzerob q))).
  destruct (sign_split x) as [Hs Hx]. rewrite Hs.
  destruct (Qltb 0 x), (Qltb x 0); cbn [xorb andb length] in *;
    try discriminate; lia.
Qed.

Lemma filter_all {A} (f : A -> bool) (l : list A) :
  Forall (fun x => f x = true) (filter (fun y => Is_true (f y)) l).
Proof.
  induction l as [|x l IH]; [constructor|].
  rewrite (filter_bool_cons f). destruct (f x) eqn:E; [|exact IH].
  constructor; assumption.
Qed.

Lemma Qsum_sign (l : list Q) :
  Forall (fun q => 0 < q) l -> l <> [] -> 0 < Qsum l.
Proof.
  intros Hl. induction Hl as [|x l Hx Hl IH]; intros Hne; [contradiction|].
  unfold Qsum. cbn [fold_right]. fold (Qsum l).
  destruct l as [|y l'].
  - unfold Qsum. cbn [fold_right]. lra.
  - assert (0 < Qsum (y :: l')) by (apply IH; discriminate). lra.
Qed.

Lemma Qsum_opp (l : list Q) : Qsum (map Qopp l) == - Qsum l.
Proof.
  induction l as [|x l IH]; unfold Qsum; cbn [map fold_right];
    [reflexivity|].
  fold (Qsum (map Qopp l)). fold (Qsum l). rewrite IH. ring.
Qed.

Lemma length_positive {A} (l : list A) :
  l <> [] -> 0 < inject_Z (Z.of_nat (length l)).
Proof.
  intros Hne. destruct l; [contradiction|].
  replace 0 with (inject_Z 0) by reflexivity.
  rewrite <- Zlt_Qlt. simpl length. lia.
Qed.

Lemma mean_positive (l : list Q) :
  Forall (fun q => 0 < q) l -> l <> [] -> 0 < mean_or_zero l.
Proof.
  intros Hl Hne. unfold mean_or_zero. destruct l as [|x l']; [contradiction|].
  apply Qlt_shift_div_l; [apply length_positive, Hne|].
  pose proof (Qsum_sign _ Hl Hne). lra.
Qed.

Lemma mean_negative (l : list Q) :
  Forall (fun q => q < 0) l -> l <> [] -> mean_or_zero l < 0.
Proof.
  intros Hl Hne. unfold mean_or_zero. destruct l as [|x l']; [contradiction|].
  apply Qlt_shift_div_r; [apply length_positive, Hne|].
  assert (Hopp : 0 < Qsum (map Qopp (x :: l'))).
  { apply Qsum_sign; [|discriminate].
    apply List.Forall_forall. intros q Hin.
    apply in_map_iff in Hin as [r [<- Hin]].
    rewrite List.Forall_forall in Hl. specialize (Hl r Hin). lra. }
  rewrite Qsum_opp in Hopp. lra.
Qed.

(** X13. The win rate is a fraction between 0 and 1; the winning and the
    losing returns together are the returns that are not zero, and their
    number is the number of trades; the average win is positive when there
    is a win and 0 otherwise, the average loss negative when there is a loss
    and 0 otherwise. *)
Theorem win_statistics (returns : Series) :
  0 <= win_rate returns <= 1 /\
  (length (winning_returns returns) + length (losing_returns returns)
   = length (nonzero_returns returns))%nat /\
  trades returns = length (nonzero_returns returns) /\
  (if decide (winning_returns returns = [])
   then avg_win returns = 0 else 0 < avg_win returns) /\
  (if decide (losing_returns returns = [])
   then avg_loss returns = 0 else avg_loss returns < 0).
Proof.
  assert (Hsplit :
    (length (winning_returns returns) + length (losing_returns returns)
     = length (nonzero_returns returns))%nat).
  { unfold winning_returns, losing_returns, nonzero_returns.
    rewrite (length_filter_filter (fun q => negb (Qzerob q))
               (fun q => Qltb 0 q)),
      (length_filter_filter (fun q => negb (Qzerob q)) (fun q => Qltb q 0)).
    apply length_sign_split. }
  split; [|split; [exact Hsplit|split; [|split]]].
  - unfold win_rate.
    set (w := length (winning_returns returns)) in *.
    set (n := length (nonzero_returns returns)) in *.
    assert (Hd : 0 < inject_Z (Z.of_nat (Nat.max n 1))).
    { replace 0 with (inject_Z 0) by reflexivity. rewrite <- Zlt_Qlt. lia. }
    assert (Hw : 0 <= inject_Z (Z.of_nat w)).
    { replace 0 with (inject_Z 0) by reflexivity. rewrite <- Zle_Qle. lia. }
    assert (Hwn : inject_Z (Z.of_nat w) <= inject_Z (Z.of_nat (Nat.max n 1))).
    { rewrite <- Zle_Qle. lia. }
    split.
    + apply Qle_shift_div_l; [exact Hd | lra].
    + apply Qle_shift_div_r; [exact Hd | lra].
  - unfold trades, nonzero_returns.
    apply (length_filter_ext (fun q => Qltb 0 (Qabs q))
             (fun q => negb (Qzerob q))).
    intros q.
    assert (Habs : Qabs q == 0 -> q == 0).
    { apply (Qabs_case q (fun v => v == 0 -> q == 0)); intros; lra. }
    assert (Hpos : 0 < q \/ q < 0 -> 0 < Qabs q).
    { apply (Qabs_case q (fun v => 0 < q \/ q < 0 -> 0 < v));
        intros ? [|]; lra. }
    pose proof (Qabs_nonneg q) as Hnn.
    destruct (Qltb 0 (Qabs q)) eqn:Ha, (Qzerob q) eqn:Hz; try reflexivity;
      exfalso; sign_facts.
    + rewrite Hz in Ha. discriminate Ha.
    + apply Hz, Habs. lra.
  - unfold avg_win. destruct (decide (winning_returns returns = []))
      as [E|Hne].
    + rewrite E. reflexivity.
    + apply mean_positive; [|exact Hne].
      unfold winning_returns.
      eapply List.Forall_impl; [|apply (filter_all (fun q => Qltb 0 q))].
      intros q Hq. apply Qltb_lt, Hq.
  - unfold avg_loss. destruct (decide (losing_returns returns = []))
      as [E|Hne].
    + rewrite E. reflexivity.
    + apply mean_negative; [|exact Hne].
      unfold losing_returns.
      eapply List.Forall_impl; [|apply (filter_all (fun q => Qltb q 0))].
      intros q Hq. apply Qltb_lt, Hq.
Qed.

(** ** The crossover, bar by bar *)

Section Crossover.

Lemma where_self_rows (s : Series) (cond : BoolSeries) :
  index cond = index s -> series_where s cond s = s.
Proof.
  intros E. unfold series_where.
  rewrite (align_to_same None s) by reflexivity.
  rewrite (align_to_same false cond) by exact E.
  revert cond E. induction s as [|[t x] s IH]; intros [|[u b] cond] E;
    simpl in *; try reflexivity; try discriminate.
  injection E as _ E. rewrite (IH cond E). destruct b; reflexivity.
Qed.

Lemma mask_rows (s : Series) (cond : BoolSeries) v :
  index cond = index s ->
  series_mask s cond v = zip_with_index (fun x (c : bool) => if c then v else x) s cond.
Proof.
  intros E. unfold series_mask.
  rewrite align_to_same by (rewrite (index_map_cells negb); exact E).
  revert cond E. induction s as [|[t x] s IH]; intros [|[u b] cond] E;
    simpl in *; try reflexivity; try discriminate.
  injection E as _ E. rewrite (IH cond E). destruct b; reflexivity.
Qed.

Lemma raw_rows nz (spread : XSeries) :
  zip_with_index (fun x (c : bool) => if c then Some (-1) else x)
    (zip_with_index (fun x (c : bool) => if c then Some 1 else x)
       (const_series 0 (index spread)) (xseries_gt spread nz))
    (xseries_lt spread (- nz))
  = map (fun p => (fst p, raw_signal nz (snd p))) spread.
Proof.
  unfold const_series, xseries_gt, xseries_lt, index.
  induction spread as [|[t x] r IH]; [reflexivity|].
  cbn [map zip_with_index fst snd]. rewrite IH. unfold raw_signal.
  destruct (xltb x (XFin (- nz))), (xgtb x (XFin nz)); reflexivity.
Qed.

Lemma raw_step nz x :
  (raw_signal nz x = Some (-1) /\ forall prev, signal_step nz prev x = -1) \/
  (raw_signal nz x = Some 1 /\ forall prev, signal_step nz prev x = 1) \/
  (raw_signal nz x = Some 0 /\ forall prev, signal_step nz prev x = prev).
Proof.
  unfold raw_signal, signal_step.
  destruct (xltb x (XFin (- nz))); [|destruct (xgtb x (XFin nz))]; auto.
Qed.

Lemma carry_rows nz (spread : XSeries) : forall last prev,
  carried last prev ->
  series_clip (-1) 1
    (fillna 0
       (ffill_from last
          (replace_zero_na
             (map (fun p => (fst p, raw_signal nz (snd p))) spread))))
  = carried_from nz prev spread.
Proof.
  unfold series_clip, fillna, replace_zero_na, series_map.
  induction spread as [|[t x] r IH]; intros last prev Hc; [reflexivity|].
  cbn [map fst snd carried_from].
  destruct (raw_step nz x) as [[E S] | [[E S] | [E S]]]; rewrite E, S.
  - cbn [zero_to_na]. change (Qzerob (-1)) with false.
    cbn [ffill_from map fst snd]. rewrite (IH (Some (-1)) (-1)).
    + reflexivity.
    + right; right. split; reflexivity.
  - cbn [zero_to_na]. change (Qzerob 1) with false.
    cbn [ffill_from map fst snd]. rewrite (IH (Some 1) 1).
    + reflexivity.
    + right; left. split; reflexivity.
  - cbn [zero_to_na]. change (Qzerob 0) with true.
    cbn [ffill_from map fst snd]. rewrite (IH last prev Hc).
    destruct Hc as [[-> ->] | [[-> ->] | [-> ->]]]; reflexivity.
Qed.

End Crossover.

(** [ma_cross] is one pass over the spread of the two moving averages: it
    fails where the spread cannot be computed, with the same error, and
    otherwise starts flat and steps bar after bar. *)
Lemma ma_cross_fold df params :
  ma_cross df params =
  try spread <- ma_spread df params;
  Ok (carried_from (dict_get params "neutral_zone" 0 / 10000) 0 spread).
Proof.
  unfold ma_cross, ma_spread.
  set (fast := py_int (dict_get params "fast" 20)).
  set (slow := py_int (dict_get params "slow" 100)).
  set (nz := dict_get params "neutral_zone" 0 / 10000).
  unfold df_getitem, df_get.
  destruct (decide _) as [Hc|Hc]; [|reflexivity]. cbn [rbind].
  destruct (rolling_mean fast fast _) as [ma_f|] eqn:Hf; [|reflexivity].
  destruct (rolling_mean slow slow _) as [ma_s|] eqn:Hs; [|reflexivity].
  cbn [rbind]. f_equal.
  pose proof (index_column_of df "Close") as Hiclose.
  apply rolling_mean_index in Hf as Hif.
  apply rolling_mean_index in Hs as His.
  rewrite Hiclose in Hif, His.
  set (spread := series_div (series_sub ma_f ma_s) ma_s).
  assert (Hispread : index spread = df_index df).
  { unfold spread, series_div. rewrite index_series_binop.
    - unfold series_sub. rewrite index_series_binop; congruence.
    - unfold series_sub. rewrite index_series_binop; congruence. }
  assert (Hicond : forall f : xval -> bool,
             index (map (fun p => (fst p, f (snd p))) spread) = df_index df).
  { intros f. rewrite (index_map_cells f). exact Hispread. }
  rewrite where_self_rows
    by (rewrite index_const_series;
        apply (Hicond (fun x => match x with XNaN => true | _ => false end))).
  rewrite (mask_rows (const_series 0 (df_index df)) (xseries_gt spread nz))
    by (rewrite index_const_series; apply (Hicond (fun x => xgtb x (XFin nz)))).
  rewrite mask_rows.
  2:{ rewrite index_zip_with_index; rewrite index_const_series;
        [apply (Hicond (fun x => xltb x (XFin (- nz)))) |].
      symmetry. apply (Hicond (fun x => xgtb x (XFin nz))). }
  rewrite <- Hispread, raw_rows. unfold ffill.
  apply carry_rows. left. split; reflexivity.
Qed.

Section CrossoverRows.

Lemma index_carried_from nz prev (spread : XSeries) :
  index (carried_from nz prev spread) = index spread.
Proof.
  revert prev. induction spread as [|[t x] r IH]; intros prev;
    [reflexivity|].
  cbn [carried_from index map fst]. f_equal. apply IH.
Qed.

Lemma carried_from_step nz (spread : XSeries) : forall prev i t x,
  spread !! S i = Some (t, x) ->
  exists u q,
    carried_from nz prev spread !! i = Some (u, Some q) /\
    carried_from nz prev spread !! S i = Some (t, Some (signal_step nz q x)).
Proof.
  induction spread as [|[t0 x0] r IH]; intros prev i t x Hi;
    [discriminate Hi|].
  cbn [carried_from]. destruct i as [|i].
  - destruct r as [|[t1 x1] r']; [discriminate Hi|].
    injection Hi as <- <-. eexists. eexists. split; reflexivity.
  - apply (IH (signal_step nz prev x0) i t x Hi).
Qed.

Lemma carried_from_flat nz (spread : XSeries) :
  all_cells (no_signal nz) spread ->
  all_cells (eq (Some 0)) (carried_from nz 0 spread).
Proof.
  unfold all_cells. induction 1 as [|[t x] r [Hlt Hgt] _ IH];
    [constructor|].
  cbn [carried_from]. cbn [snd] in Hlt, Hgt.
  assert (E : signal_step nz 0 x = 0).
  { unfold signal_step. rewrite Hlt, Hgt. reflexivity. }
  rewrite E. constructor; [reflexivity | exact IH].
Qed.

Lemma zip_self {C} (f : Val -> Val -> C) (g : Val -> Val -> Val)
  (m : Series) :
  zip_with_index f (zip_with_index g m m) m
  = map (fun p => (fst p, f (g (snd p) (snd p)) (snd p))) m.
Proof.
  induction m as [|[t v] m IH]; [reflexivity|].
  cbn [zip_with_index map fst snd]. rewrite IH. reflexivity.
Qed.

(** A mean against itself gives no signal when the zone is not negative. *)
Lemma no_signal_self nz (v : Val) :
  0 <= nz -> no_signal nz (xdiv (x_of_val (vsub v v)) (x_of_val v)).
Proof.
  intros Hnz. destruct v as [a|]; [|split; reflexivity].
  cbn [vsub vlift2 x_of_val xdiv].
  assert (Hz : Qzerob (a - a) = true) by (apply Qzerob_zero; ring).
  rewrite Hz. destruct (Qzerob a) eqn:Ha; [split; reflexivity|].
  apply Qzerob_nonzero in Ha.
  assert (E : (a - a) / a == 0) by (field; exact Ha).
  unfold no_signal, xltb. cbn [xgtb]. split; apply Qltb_ge; rewrite E; lra.
Qed.

End CrossoverRows.

(** X14. The positions of [ma_cross] follow the spread of the two moving
    averages, [(ma_f - ma_s) / ma_s], bar after bar: the first bar steps from
    a flat position, every later bar from the position of the bar before it;
    a step goes short below minus the neutral zone, long above it, and keeps
    the position it comes from in between and where the spread is missing. *)
Theorem ma_cross_carries df params pos :
  ma_cross df params = Ok pos ->
  exists spread,
    ma_spread df params = Ok spread /\
    index pos = index spread /\
    (forall t x,
        spread !! 0%nat = Some (t, x) ->
        pos !! 0%nat
        = Some (t, Some (signal_step
                           (dict_get params "neutral_zone" 0 / 10000) 0 x))) /\
    (forall i t x,
        spread !! S i = Some (t, x) ->
        exists u q,
          pos !! i = Some (u, Some q) /\
          pos !! S i
          = Some (t, Some (signal_step
                             (dict_get params "neutral_zone" 0 / 10000) q x))).
Proof.
  rewrite ma_cross_fold.
  destruct (ma_spread df params) as [spread|]; [|discriminate].
  cbn [rbind]. intros [= <-]. exists spread.
  split; [reflexivity|]. split; [apply index_carried_from|]. split.
  - intros t x H0. destruct spread as [|[t0 x0] r]; [discriminate H0|].
    injection H0 as <- <-. reflexivity.
  - intros i t x Hi. apply carried_from_step, Hi.
Qed.

Lemma ma_cross_carries_witness :
  exists pos spread,
    ma_cross close_frame close_params = Ok pos /\
    ma_spread close_frame close_params = Ok spread /\
    index pos = index spread /\
    forall t x,
      spread !! 7%nat = Some (t, x) ->
      exists u q,
        pos !! 6%nat = Some (u, Some q) /\
        pos !! 7%nat = Some (t, Some (signal_step (5 / 10000) q x)).
Proof.
  destruct (ma_cross close_frame close_params) as [pos|] eqn:E;
    [|vm_compute in E; discriminate E].
  destruct (ma_cross_carries close_frame close_params pos E)
    as (spread & Hs & Hi & _ & Hstep).
  exists pos, spread. split; [reflexivity|]. split; [exact Hs|].
  split; [exact Hi|]. intros t x H7. apply (Hstep 6%nat t x H7).
Defined.



(** X16. With the fast window equal to the slow one and a neutral zone that
    is not negative, [ma_cross] never trades: every position is 0. *)
Theorem ma_cross_equal_windows df params pos :
  py_int (dict_get params "fast" 20) = py_int (dict_get params "slow" 100) ->
  0 <= dict_get params "neutral_zone" 0 ->
  ma_cross df params = Ok pos ->
  index pos = df_index df /\ all_cells (eq (Some 0)) pos.
Proof.
  intros Hw Hnz. rewrite ma_cross_fold. unfold ma_spread. rewrite Hw.
  set (slow := py_int (dict_get params "slow" 100)).
  set (nz := dict_get params "neutral_zone" 0 / 10000).
  assert (Hnz' : 0 <= nz).
  { unfold nz. apply Qle_shift_div_l; [reflexivity | lra]. }
  destruct (df_getitem df "Close") as [close|] eqn:Hclose; [|discriminate].
  cbn [rbind].
  destruct (rolling_mean slow slow close) as [ma|] eqn:Hma; [|discriminate].
  cbn [rbind]. intros [= <-].
  assert (Hima : index ma = df_index df).
  { apply rolling_mean_index in Hma. rewrite Hma.
    unfold df_getitem, df_get in Hclose.
    destruct (decide _); [|discriminate]. injection Hclose as <-.
    apply index_column_of. }
  assert (Hspread : series_div (series_sub ma ma) ma
                    = map (fun p => (fst p,
                             xdiv (x_of_val (vsub (snd p) (snd p)))
                               (x_of_val (snd p)))) ma).
  { unfold series_div, series_sub.
    rewrite (series_binop_aligned vsub ma ma) by reflexivity.
    rewrite series_binop_aligned
      by (apply index_zip_with_index; reflexivity).
    apply (zip_self (fun x y => xdiv (x_of_val x) (x_of_val y)) vsub). }
  rewrite Hspread. split.
  - rewrite index_carried_from.
    rewrite (index_map_cells
               (fun v => xdiv (x_of_val (vsub v v)) (x_of_val v))).
    exact Hima.
  - apply carried_from_flat.
    apply (all_cells_map_cells (fun _ => True) (no_signal nz)
             (fun v => xdiv (x_of_val (vsub v v)) (x_of_val v))).
    + unfold all_cells. apply List.Forall_forall. intros; exact I.
    + intros v _. apply no_signal_self, Hnz'.
Qed.

Lemma ma_cross_equal_windows_witness :
  exists pos,
    ma_cross close_frame equal_window_params = Ok pos /\
    index pos = df_index close_frame /\ all_cells (eq (Some 0)) pos.
Proof.
  destruct (ma_cross close_frame equal_window_params) as [pos|] eqn:E;
    [|vm_compute in E; discriminate E].
  exists pos. split; [reflexivity|].
  apply (ma_cross_equal_windows close_frame equal_window_params pos);
    [reflexivity | vm_compute; discriminate | exact E].
Defined.

(** ** The candidates of a grid *)

Section Candidates.

Lemma in_product (lists : list (list Q)) (values : list Q) :
  In values (product lists) <-> Forall2 (fun v l => In v l) values lists.
Proof.
  revert values. induction lists as [|l rest IH]; intros values; simpl.
  - split.
    + intros [<-|[]]. constructor.
    + intros Hv. inversion Hv. left. reflexivity.
  - rewrite in_flat_map. split.
    + intros (x & Hx & Hin). apply in_map_iff in Hin as (vs & <- & Hvs).
      constructor; [exact Hx | apply IH, Hvs].
    + intros Hv. inversion Hv as [|x l' vs rest' Hx Hvs]; subst.
      exists x. split; [exact Hx|]. apply in_map_iff.
      exists vs. split; [reflexivity | apply IH, Hvs].
Qed.

Lemma length_flat_map_const {A B} (f : A -> list B) (l : list A) n :
  (forall x, length (f x) = n) -> length (flat_map f l) = (length l * n)%nat.
Proof.
  intros Hf. induction l as [|x l IH]; simpl; [reflexivity|].
  rewrite length_app, Hf, IH. reflexivity.
Qed.

Lemma length_product (lists : list (list Q)) :
  length (product lists) = fold_right Nat.mul 1%nat (map (@length Q) lists).
Proof.
  induction lists as [|l rest IH]; simpl; [reflexivity|].
  rewrite (length_flat_map_const _ _ (length (product rest))).
  - rewrite IH. reflexivity.
  - intros x. apply length_map.
Qed.

Lemma drawn_from_product (grid : Grid) values :
  drawn_from grid values <-> In values (product (map snd grid)).
Proof.
  rewrite in_product. unfold drawn_from. split.
  - induction 1; simpl; constructor; auto.
  - revert values. induction grid as [|g grid IH]; intros values Hv;
      simpl in Hv; inversion Hv; subst; constructor; auto.
Qed.

Lemma params_of_drawn (grid : Grid) values :
  drawn_from grid values ->
  params_of_grid grid (combine (map fst grid) values).
Proof.
  unfold drawn_from, params_of_grid.
  induction 1 as [|v g values grid Hv _ IH]; simpl; constructor; auto.
Qed.

End Candidates.

(** X17. When [grid_search] returns, every combination of the grid, one
    candidate value per parameter, has been run and has run without a
    failure; their number is the product of the sizes of the candidate
    sets; and the parameters returned give every key of the grid, in the
    order of the grid, one of its candidate values. *)
Theorem grid_search_covers `{Numerics} df strat grid cost params perf :
  grid_search df strat grid cost = Ok (params, perf) ->
  (forall values,
      drawn_from grid values ->
      exists p,
        evaluate df strat cost (combine (map fst grid) values) = Ok p) /\
  length (product (map snd grid)) = grid_size grid /\
  params_of_grid grid params.
Proof.
  unfold grid_search.
  destruct (grid_loop df strat cost (map fst grid) (product (map snd grid))
              None) as [[b|]|e] eqn:Hloop; simpl; try discriminate.
  intros [= ->].
  destruct (grid_loop_fold _ _ _ _ _ _ _ Hloop) as [perfs [Hall Hr]].
  split; [|split].
  - intros values Hv. apply drawn_from_product in Hv.
    apply list_elem_of_In, list_elem_of_lookup in Hv as [j Hj].
    destruct (Forall2_lookup_l _ _ _ _ _ Hall Hj) as [p [_ Hp]]. eauto.
  - rewrite length_product. unfold grid_size. rewrite map_map. reflexivity.
  - symmetry in Hr. apply fold_pick_first in Hr as [k (Hk & _ & _)].
    apply lookup_combine in Hk as [Hkc _]. rewrite lookup_map in Hkc.
    destruct (product (map snd grid) !! k) as [values|] eqn:Hv;
      [|discriminate].
    injection Hkc as <-. apply params_of_drawn, drawn_from_product.
    apply list_elem_of_In, list_elem_of_lookup. eauto.
Qed.

Lemma grid_search_covers_witness :
  exists params perf,
    @grid_search toy_numerics close_frame ma_cross sample_grid sample_cost
      = Ok (params, perf) /\
    length (product (map snd sample_grid)) = 2%nat /\
    params_of_grid sample_grid params.
Proof.
  destruct (is_ok_inv (@grid_search toy_numerics close_frame ma_cross
                         sample_grid sample_cost)) as [[params perf] Hb];
    [vm_compute; reflexivity|].
  destruct (@grid_search_covers toy_numerics close_frame ma_cross sample_grid
              sample_cost params perf Hb) as (_ & Hn & Hp).
  exists params, perf. split; [exact Hb|]. split; [exact Hn | exact Hp].
Defined.

(** ** The slices of the walk-forward *)

Section YearSlices.

Lemma ts_compare_eq a b : ts_compare a b = Eq -> a = b.
Proof.
  destruct a as [ya ma da na], b as [yb mb db nb]. unfold ts_compare. simpl.
  destruct (Z.compare_spec ya yb); try discriminate.
  destruct (Z.compare_spec ma mb); try discriminate.
  destruct (Z.compare_spec da db); try discriminate.
  destruct (Z.compare_spec na nb); try discriminate.
  intros _. congruence.
Qed.

(** The smaller of a timestamp that is not before [e] and [e] is [e]. *)
Lemma ts_min_reached x e : ts_ltb x e = false -> ts_min x e = e.
Proof.
  unfold ts_ltb, ts_min, ts_leb.
  destruct (ts_compare x e) eqn:Hc; try discriminate; intros _;
    [apply ts_compare_eq, Hc | reflexivity].
Qed.

Lemma year_slices_loop_chain years e fuel : forall cur,
  (1 <= years)%Z ->
  (year e - year cur + 1 <= Z.of_nat fuel)%Z ->
  exists l,
    year_slices_loop fuel cur e years = Ok l /\
    (forall i a b,
        l !! i = Some (a, b) ->
        a = slice_start years cur i /\
        b = ts_min (add_years a years) e /\
        ts_ltb a e = true) /\
    ts_ltb (slice_start years cur (length l)) e = false.
Proof.
  induction fuel as [|fuel IH]; intros cur Hstep Hfuel.
  - cbn [year_slices_loop]. destruct (ts_ltb cur e) eqn:Hlt.
    + apply ts_ltb_year in Hlt. lia.
    + exists []. split; [reflexivity|]. split; [|exact Hlt].
      intros i a b Hi. discriminate Hi.
  - cbn [year_slices_loop]. destruct (ts_ltb cur e) eqn:Hlt.
    + apply ts_ltb_year in Hlt as Hy.
      destruct (IH (add_years cur years) Hstep) as (rest & Hrest & Hrows & Hend).
      { unfold add_years. simpl. lia. }
      rewrite Hrest. cbn [rbind]. eexists. split; [reflexivity|]. split.
      * intros [|i] a b Hi.
        -- injection Hi as <- <-. split; [reflexivity|].
           split; [reflexivity | exact Hlt].
        -- destruct (Hrows i a b Hi) as (Ha & Hb & Hae).
           split; [|split; assumption].
           rewrite Ha. unfold slice_start. rewrite Nat.iter_succ_r.
           reflexivity.
      * cbn [length]. unfold slice_start in *. rewrite Nat.iter_succ_r.
        exact Hend.
    + exists []. split; [reflexivity|]. split; [|exact Hlt].
      intros i a b Hi. discriminate Hi.
Qed.

End YearSlices.

(** X18. For a step of at least one year [_year_slices] returns, and its
    slices are chained: the first starts at the first timestamp of the
    index, every next one a step after the one before; each starts before
    the last timestamp and ends a step after its start, or at the last
    timestamp when that comes first; the slices stop with the first start
    that is not before the last timestamp, so that the last slice ends at
    the last timestamp. *)
Theorem year_slices_chain idx years s e :
  (1 <= years)%Z ->
  index_min idx = Some s -> index_max idx = Some e ->
  exists l,
    _year_slices idx years = Ok l /\
    (forall i a b,
        l !! i = Some (a, b) ->
        a = slice_start years s i /\
        b = ts_min (add_years a years) e /\
        ts_ltb a e = true) /\
    ts_ltb (slice_start years s (length l)) e = false /\
    (forall a b, last l = Some (a, b) -> b = e).
Proof.
  intros Hstep Hmin Hmax. unfold _year_slices. rewrite Hmin, Hmax.
  destruct (year_slices_loop_chain years e (year_slices_fuel s e) s Hstep)
    as (l & Hl & Hrows & Hend).
  { unfold year_slices_fuel. lia. }
  exists l. split; [exact Hl|]. split; [exact Hrows|]. split; [exact Hend|].
  intros a b Hlast. rewrite last_lookup in Hlast.
  destruct (Hrows _ a b Hlast) as (Ha & -> & _).
  apply ts_min_reached. rewrite Ha.
  destruct l as [|x l']; [discriminate Hlast|].
  cbn [length Nat.pred] in *. unfold slice_start in *.
  change (add_years (Nat.iter (length l') (fun t => add_years t years) s) years)
    with (Nat.iter (S (length l')) (fun t => add_years t years) s).
  exact Hend.
Qed.

Lemma year_slices_chain_witness :
  exists l,
    _year_slices (df_index long_frame) 1 = Ok l /\
    (forall a b, last l = Some (a, b) -> b = mkTs 2023 7 1 0).
Proof.
  destruct (year_slices_chain (df_index long_frame) 1 (mkTs 2020 1 1 0)
              (mkTs 2023 7 1 0)) as (l & Hl & _ & _ & Hlast).
  - lia.
  - vm_compute. reflexivity.
  - vm_compute. reflexivity.
  - exists l. split; [exact Hl | exact Hlast].
Defined.

(** X19. With a step of zero years the loop of [_year_slices] never
    leaves: the cursor stays on the first timestamp, which is before the
    last one; whatever the number of turns allowed, no list of slices comes
    back, and [walk_forward] returns no table. *)
Theorem walk_forward_zero_step `{Numerics} df strat grid cost cfg s e :
  step_years cfg = 0%Z ->
  index_min (df_index df) = Some s -> index_max (df_index df) = Some e ->
  ts_ltb s e = true -> valid_day s ->
  (forall fuel, year_slices_loop fuel s e 0 = Err NonTermination) /\
  walk_forward df strat grid cost cfg = Err NonTermination.
Proof.
  intros Hstep Hmin Hmax Hlt Hday.
  assert (Hloop : forall fuel,
             year_slices_loop fuel s e 0 = Err NonTermination).
  { intros fuel. apply year_slices_loop_stuck; assumption. }
  split; [exact Hloop|].
  unfold walk_forward, _year_slices. rewrite Hstep, Hmin, Hmax, Hloop.
  reflexivity.
Qed.

Lemma walk_forward_zero_step_witness :
  @walk_forward toy_numerics long_frame ma_cross sample_grid sample_cost
    stuck_config = Err NonTermination.
Proof.
  apply (@walk_forward_zero_step toy_numerics long_frame ma_cross sample_grid
           sample_cost stuck_config (mkTs 2020 1 1 0) (mkTs 2023 7 1 0)).
  - reflexivity.
  - vm_compute. reflexivity.
  - vm_compute. reflexivity.
  - reflexivity.
  - vm_compute. split; discriminate.
Defined.

Section WalkForwardRows.

Context `{Numerics}.

Variables (df : DataFrame) (strat : StrategyFn) (grid : Grid)
  (cost : CostModel) (cfg : WalkForwardConfig) (e : Timestamp).

(** The loop adds records to those it was given, at most one a slice, in
    the order of the slices. *)
Lemma walk_loop_rows slices : forall acc rows,
  walk_loop df strat grid cost cfg e slices acc = Ok rows ->
  exists new,
    rows = acc ++ new /\
    Forall (walk_forward_record df strat grid cost cfg e) new /\
    sublist (map row_train_start new) (map fst slices).
Proof.
  induction slices as [|[train_start stop] rest IH]; intros acc rows;
    cbn [walk_loop].
  - intros [= <-]. exists []. rewrite app_nil_r.
    split; [reflexivity|]. split; [constructor | constructor].
  - set (train_end := add_years train_start (train_years cfg)).
    set (test_end := add_years train_end (test_years cfg)).
    destruct (ts_geb train_end e) eqn:Hend; cbn [orb].
    { intros [= <-]. exists []. rewrite app_nil_r.
      split; [reflexivity|]. split; [constructor | apply sublist_nil_l]. }
    destruct (ts_geb train_start e) eqn:Hstart; cbn [orb].
    { intros [= <-]. exists []. rewrite app_nil_r.
      split; [reflexivity|]. split; [constructor | apply sublist_nil_l]. }
    destruct (df_len (df_between df train_start train_end) <? 50)%nat
      eqn:Htrain; cbn [orb].
    { intros Hrows. destruct (IH _ _ Hrows) as (new & -> & Hnew & Hsub).
      exists new. split; [reflexivity|]. split; [exact Hnew|].
      cbn [map fst]. apply sublist_cons, Hsub. }
    destruct (df_len (df_between df train_end (ts_min test_end e)) <? 20)%nat
      eqn:Htest; cbn [orb].
    { intros Hrows. destruct (IH _ _ Hrows) as (new & -> & Hnew & Hsub).
      exists new. split; [reflexivity|]. split; [exact Hnew|].
      cbn [map fst]. apply sublist_cons, Hsub. }
    destruct (grid_search (df_between df train_start train_end) strat grid
                cost) as [[best_params perf_train]|err] eqn:Hbest;
      cbn [rbind fst]; [|discriminate].
    destruct (strat (df_between df train_end (ts_min test_end e))
                best_params) as [pos|err] eqn:Hpos; cbn [rbind];
      [|discriminate].
    destruct (run_backtest (df_between df train_end (ts_min test_end e)) pos
                (Some cost) 1) as [res|err] eqn:Hres; cbn [rbind];
      [|discriminate].
    destruct (compute_performance (equity res) (returns res))
      as [perf|err] eqn:Hperf; cbn [rbind]; [|discriminate].
    intros Hrows. destruct (IH _ _ Hrows) as (new & -> & Hnew & Hsub).
    eexists (_ :: new). split; [rewrite <- app_assoc; reflexivity|]. split.
    + constructor; [|exact Hnew].
      unfold walk_forward_record.
      cbn [row_train_start row_train_end row_test_end row_params row_perf].
      fold train_end. fold test_end.
      apply Nat.ltb_ge in Htrain, Htest.
      split; [reflexivity|]. split; [reflexivity|]. split; [exact Hend|].
      split; [exact Htrain|]. split; [exact Htest|].
      split; [exists perf_train; exact Hbest|].
      unfold evaluate. rewrite Hpos. cbn [rbind]. rewrite Hres. cbn [rbind].
      rewrite Hperf. reflexivity.
    + cbn [map fst row_train_start]. apply sublist_skip, Hsub.
Qed.

End WalkForwardRows.

(** X20. Every record of the table that [walk_forward] returns describes
    one slice: its training window starts where a slice starts and lasts
    [train_years], ends before the last timestamp, and is followed by the
    test window, [test_years] long or cut at the last timestamp; the
    training window holds at least 50 bars and the test window at least 20;
    the parameters are those of the grid search on the training window, the
    performance that of these parameters on the test window.  The records
    come in the order of the slices, at most one a slice. *)
Theorem walk_forward_rows `{Numerics} df strat grid cost cfg rows e :
  walk_forward df strat grid cost cfg = Ok rows ->
  index_max (df_index df) = Some e ->
  Forall (walk_forward_record df strat grid cost cfg e) rows /\
  exists slices,
    _year_slices (df_index df) (step_years cfg) = Ok slices /\
    sublist (map row_train_start rows) (map fst slices).
Proof.
  unfold walk_forward. intros Hrows Hmax.
  destruct (_year_slices (df_index df) (step_years cfg)) as [slices|err];
    [|discriminate]. cbn [rbind] in Hrows. rewrite Hmax in Hrows.
  destruct (walk_loop_rows df strat grid cost cfg e slices [] rows Hrows)
    as (new & -> & Hnew & Hsub).
  split; [exact Hnew|]. exists slices. split; [reflexivity | exact Hsub].
Qed.

Lemma walk_forward_rows_witness :
  exists rows,
    @walk_forward toy_numerics long_frame ma_cross sample_grid sample_cost
      sample_config = Ok rows /\
    Forall (@walk_forward_record toy_numerics long_frame ma_cross sample_grid
              sample_cost sample_config (mkTs 2023 7 1 0)) rows.
Proof.
  destruct (is_ok_inv (@walk_forward toy_numerics long_frame ma_cross
                         sample_grid sample_cost sample_config))
    as [rows Hrows]; [vm_compute; reflexivity|].
  exists rows. split; [exact Hrows|].
  apply (@walk_forward_rows toy_numerics long_frame ma_cross sample_grid
           sample_cost sample_config rows (mkTs 2023 7 1 0) Hrows).
  vm_compute. reflexivity.
Defined.

(** ** Resampled returns *)

Section Blocks.

Lemma ceil_div_covers n block :
  (1 <= block)%nat -> (n <= ceil_div n block * block)%nat.
Proof.
  intros Hb. unfold ceil_div.
  pose proof (Nat.div_mod_eq (n + block - 1) block) as Hdm.
  pose proof (Nat.mod_upper_bound (n + block - 1) block) as Hm.
  set (q := ((n + block - 1) / block)%nat) in *.
  set (r := ((n + block - 1) mod block)%nat) in *.
  rewrite (Nat.mul_comm q block). lia.
Qed.

Lemma ceil_div_tight n block i :
  (1 <= block)%nat -> (i < ceil_div n block)%nat -> (i * block < n)%nat.
Proof.
  intros Hb. unfold ceil_div.
  pose proof (Nat.div_mod_eq (n + block - 1) block) as Hdm.
  set (q := ((n + block - 1) / block)%nat) in *.
  set (r := ((n + block - 1) mod block)%nat) in *.
  intros Hi. assert (Hle : (S i * block <= q * block)%nat)
    by (apply Nat.mul_le_mono_r; lia).
  rewrite (Nat.mul_comm block q) in Hdm. simpl in Hle. lia.
Qed.

(** The slices of [k] blocks in a row are the first [k * block] cells. *)
Lemma slices_join (rets : list Val) block k :
  concat (map (fun i => py_slice rets (i * block) ((i + 1) * block))
            (seq 0 k))
  = firstn (k * block) rets.
Proof.
  induction k as [|k IH]; [reflexivity|].
  rewrite seq_S, map_app, concat_app, IH. cbn [map concat plus].
  rewrite app_nil_r. unfold py_slice.
  replace ((k + 1) * block - k * block)%nat with block by lia.
  rewrite take_take_drop. f_equal. lia.
Qed.

Lemma take_clip {A} (l : list A) m :
  firstn (Nat.min m (length l)) l = firstn m l.
Proof.
  destruct (le_lt_dec m (length l)) as [Hle|Hlt].
  - rewrite Nat.min_l by exact Hle. reflexivity.
  - rewrite Nat.min_r by lia. rewrite firstn_all, firstn_all2 by lia.
    reflexivity.
Qed.

(** A segment of the bootstrap is the slice of its block. *)
Lemma segment_slice (rets : list Val) block i :
  py_slice rets (i * block) (Nat.min (i * block + block) (length rets))
  = py_slice rets (i * block) ((i + 1) * block).
Proof.
  unfold py_slice.
  rewrite <- (take_clip (skipn (i * block) rets)
                ((i + 1) * block - i * block)).
  rewrite length_skipn. f_equal. lia.
Qed.

Lemma bootstrap_segments_slices (rets : list Val) block :
  bootstrap_segments rets block
  = map (fun i => py_slice rets (i * block) ((i + 1) * block))
      (seq 0 (ceil_div (length rets) block)).
Proof.
  unfold bootstrap_segments, block_starts. rewrite map_map.
  apply map_ext. intros i. apply segment_slice.
Qed.

Lemma Permutation_concat {A} (a b : list (list A)) :
  Permutation a b -> Permutation (concat a) (concat b).
Proof.
  induction 1 as [|x a b _ IH|x y a|a b c _ IHab _ IHbc]; simpl.
  - constructor.
  - apply Permutation_app_head, IH.
  - rewrite !app_assoc. apply Permutation_app_tail, Permutation_app_comm.
  - eapply perm_trans; eassumption.
Qed.

End Blocks.

(** One turn of the loop of the permutation test draws an order, reshuffles
    the returns by it and scores them. *)
Lemma permutation_loop_turn `{Numerics} k rng dfl pos cost rets n block
  blocks stats h :
  permutation_loop (S k) rng dfl pos cost rets n block blocks stats h
  = (let (order, rng') := rng_permutation rng blocks in
     run reshuffled <- lift (reshuffle rets n block order);
     run c <- resampled_cagr dfl pos cost reshuffled;
     permutation_loop k rng' dfl pos cost rets n block blocks (stats ++ [c]))
      h.
Proof.
  cbn [permutation_loop]. destruct (rng_permutation rng blocks) as [order rng'].
  unfold reshuffle, mbind, lift.
  destruct (np_concatenate _) as [joined|e]; reflexivity.
Qed.

(** X21. The returns that the permutation test reshuffles are a
    rearrangement of the returns of the frame: for a block of at least one
    bar, returns that are not empty and an order that is a permutation of
    the block numbers, joining the blocks in that order and cutting at the
    length of the returns gives every return back, once each. *)
Theorem reshuffle_rearranges (rets : list Val) block order :
  (1 <= block)%nat -> rets <> [] ->
  Permutation order (seq 0 (ceil_div (length rets) block)) ->
  exists reshuffled,
    reshuffle rets (length rets) block order = Ok reshuffled /\
    Permutation reshuffled rets.
Proof.
  intros Hb Hne Hperm. unfold reshuffle.
  set (slice := fun i => py_slice rets (i * block) ((i + 1) * block)).
  assert (Hjoin : Permutation (concat (map slice order)) rets).
  { rewrite (Permutation_concat _ _ (Permutation_map slice Hperm)).
    unfold slice. rewrite slices_join, firstn_all2; [reflexivity|].
    apply ceil_div_covers, Hb. }
  assert (Horder : order <> []).
  { intros ->. apply Permutation_nil in Hperm.
    destruct rets as [|v rets]; [contradiction|].
    pose proof (ceil_div_covers (length (v :: rets)) block Hb) as Hc.
    destruct (ceil_div (length (v :: rets)) block); [simpl in Hc; lia|].
    discriminate Hperm. }
  assert (Hcat : np_concatenate (map slice order)
                 = Ok (concat (map slice order))).
  { destruct order as [|i order]; [contradiction | reflexivity]. }
  fold slice. rewrite Hcat. cbn [rbind]. eexists. split; [reflexivity|].
  rewrite firstn_all2; [exact Hjoin|].
  rewrite (Permutation_length Hjoin). reflexivity.
Qed.

Lemma reshuffle_rearranges_witness :
  exists reshuffled,
    reshuffle five_returns 5 2 [1; 2; 0]%nat = Ok reshuffled /\
    Permutation reshuffled five_returns.
Proof.
  apply (reshuffle_rearranges five_returns 2 [1; 2; 0]%nat).
  - lia.
  - discriminate.
  - symmetry. apply (Permutation_cons_append [1; 2]%nat 0%nat).
Defined.

(** X22. The segments of the bootstrap cut the returns into blocks: for a
    block of at least one bar they are the blocks of the returns in order,
    none empty and none longer than the block, their number is the number
    of bars over the block, rounded up, and joined they are the returns. *)
Theorem bootstrap_segments_cover (rets : list Val) block :
  (1 <= block)%nat ->
  concat (bootstrap_segments rets block) = rets /\
  length (bootstrap_segments rets block) = ceil_div (length rets) block /\
  Forall (fun seg => seg <> [] /\ (length seg <= block)%nat)
    (bootstrap_segments rets block).
Proof.
  intros Hb. rewrite bootstrap_segments_slices. split; [|split].
  - rewrite slices_join. apply firstn_all2, ceil_div_covers, Hb.
  - rewrite length_map, length_seq. reflexivity.
  - apply List.Forall_forall. intros seg Hin.
    apply in_map_iff in Hin as (i & <- & Hi). apply in_seq in Hi.
    assert (Hlt : (i * block < length rets)%nat)
      by (apply ceil_div_tight; [exact Hb | lia]).
    assert (Hlen : length (py_slice rets (i * block) ((i + 1) * block))
                   = Nat.min block (length rets - i * block)).
    { unfold py_slice. rewrite length_firstn, length_skipn. lia. }
    split; [|lia].
    intros Hnil. rewrite Hnil in Hlen. simpl in Hlen. lia.
Qed.

Lemma bootstrap_segments_cover_witness :
  concat (bootstrap_segments five_returns 2) = five_returns /\
  length (bootstrap_segments five_returns 2) = 3%nat.
Proof.
  destruct (bootstrap_segments_cover five_returns 2) as (Hc & Hl & _);
    [lia|].
  split; [exact Hc | exact Hl].
Defined.

(** The bootstrap draws from the segments of the returns of the frame. *)
Lemma bootstrap_ci_segments `{Numerics} dfl strat params cost n_iter block
  seed alpha h :
  bootstrap_ci dfl strat params cost n_iter block seed alpha h
  = (run pos <- strat_ref strat dfl params;
     run rets <- column_values dfl "RetSimple";
     run cagr_list <-
       bootstrap_loop (Z.to_nat n_iter) (default_rng seed) dfl pos cost
         (bootstrap_segments rets (Z.to_nat (Z.max 1 block))) (length rets) [];
     mret (mkBootstrap (np_quantile cagr_list (alpha / 2))
             (np_quantile cagr_list (1 - alpha / 2)))) h.
Proof. reflexivity. Qed.

Section BootSample.

Context `{Numerics}.

Variables (segments : list (list Val)) (n : nat).

Hypothesis segments_nonempty : Forall (fun seg => seg <> []) segments.

(** With a turn left for every point still missing, the loop of the
    bootstrap leaves with enough points, unless a draw is out of range. *)
Lemma boot_sample_enough fuel : forall rng boot_parts total_len,
  total_len = length (concat boot_parts) ->
  (n <= total_len + fuel)%nat ->
  Forall (fun part => In part segments) boot_parts ->
  match boot_sample fuel rng segments n boot_parts total_len with
  | Ok (parts, _) =>
      (n <= length (concat parts))%nat /\
      Forall (fun part => In part segments) parts
  | Err e => e = IndexOutOfRange
  end.
Proof.
  induction fuel as [|fuel IH]; intros rng boot_parts total_len Htot Hfuel Hin;
    cbn [boot_sample].
  - destruct (Nat.ltb_spec total_len n) as [Hlt|Hge]; [lia|].
    split; [lia | exact Hin].
  - destruct (Nat.ltb_spec total_len n) as [Hlt|Hge];
      [|split; [lia | exact Hin]].
    destruct (rng_integers rng 0 (length segments)) as [i rng'].
    destruct (segments !! i) as [seg|] eqn:Hseg; [|reflexivity].
    assert (Hseg_in : In seg segments).
    { apply list_elem_of_In, list_elem_of_lookup. eauto. }
    assert (Hlen : (1 <= length seg)%nat).
    { rewrite List.Forall_forall in segments_nonempty.
      specialize (segments_nonempty seg Hseg_in).
      destruct seg; [contradiction | simpl; lia]. }
    apply IH.
    + rewrite concat_app, length_app. cbn [concat]. rewrite app_nil_r.
      congruence.
    + lia.
    + apply Forall_app. split; [exact Hin|]. constructor; [exact Hseg_in|].
      constructor.
Qed.

(** A draw in range finds its segment: the loop then returns. *)
Lemma boot_sample_returns fuel : forall rng boot_parts total_len,
  (forall r, (fst (rng_integers r 0 (length segments)) < length segments)%nat) ->
  (n <= total_len + fuel)%nat ->
  is_ok (boot_sample fuel rng segments n boot_parts total_len) = true.
Proof.
  intros rng boot_parts total_len Hrange. revert rng boot_parts total_len.
  induction fuel as [|fuel IH]; intros rng boot_parts total_len Hfuel;
    cbn [boot_sample].
  - destruct (Nat.ltb_spec total_len n) as [Hlt|Hge]; [lia | reflexivity].
  - destruct (Nat.ltb_spec total_len n) as [Hlt|Hge]; [|reflexivity].
    pose proof (Hrange rng) as Hi.
    destruct (rng_integers rng 0 (length segments)) as [i rng'].
    cbn [fst] in Hi.
    destruct (lookup_lt_is_Some_2 segments i Hi) as [seg Hseg].
    rewrite Hseg. apply IH.
    assert (Hseg_in : In seg segments).
    { apply list_elem_of_In, list_elem_of_lookup. eauto. }
    rewrite List.Forall_forall in segments_nonempty.
    specialize (segments_nonempty seg Hseg_in).
    destruct seg; [contradiction | simpl; lia].
Qed.

End BootSample.

(** X23. The sampling loop of the bootstrap, with segments none of which is
    empty, never runs on: within as many turns as there are points to draw
    it has its points.  It then leaves parts that are segments and hold at
    least [n] points together, so that the sample cut from them has
    exactly [n] points; the only failure is a draw outside the segments,
    and there is none when every draw is in range. *)
Theorem boot_sample_fills `{Numerics} rng (segments : list (list Val)) n :
  Forall (fun seg => seg <> []) segments ->
  match boot_sample n rng segments n [] 0 with
  | Ok (parts, _) =>
      Forall (fun part => In part segments) parts /\
      (n <= length (concat parts))%nat /\
      length (firstn n (concat parts)) = n
  | Err e => e = IndexOutOfRange
  end /\
  ((forall r,
       (fst (rng_integers r 0 (length segments)) < length segments)%nat) ->
   is_ok (boot_sample n rng segments n [] 0) = true).
Proof.
  intros Hne. split.
  - pose proof (boot_sample_enough segments n Hne n rng [] 0%nat) as Hloop.
    destruct (boot_sample n rng segments n [] 0) as [[parts rng']|e].
    + destruct Hloop as [Hlen Hin]; [reflexivity | lia | constructor |].
      split; [exact Hin|]. split; [exact Hlen|].
      rewrite length_firstn. lia.
    + apply Hloop; [reflexivity | lia | constructor].
  - intros Hrange. apply boot_sample_returns; [exact Hne | exact Hrange | lia].
Qed.

Lemma boot_sample_fills_witness :
  is_ok (@boot_sample toy_numerics 5 7%Z (bootstrap_segments five_returns 2)
           5 [] 0) = true.
Proof.
  apply (@boot_sample_fills toy_numerics 7%Z
           (bootstrap_segments five_returns 2) 5).
  - vm_compute. repeat constructor; discriminate.
  - intros r. change (length (bootstrap_segments five_returns 2)) with 3%nat.
    unfold rng_integers, toy_numerics, toy_integers. cbn [fst].
    pose proof (Z.mod_pos_bound r (Z.max 1 (Z.of_nat (3 - 0)))) as Hm. lia.
Defined.

(** ** The store under the resampling protocols *)

Section StoreGrows.

Context `{Numerics}.

Lemma store_grows_ret {A} (a : A) : store_grows (mret a).
Proof.
  intros h h' a' [= _ <-]. exists []. rewrite app_nil_r. reflexivity.
Qed.

Lemma store_grows_lift {A} (r : result A) : store_grows (lift r).
Proof.
  intros h h' a. unfold lift. destruct r; [|discriminate].
  intros [= _ <-]. exists []. rewrite app_nil_r. reflexivity.
Qed.

Lemma store_grows_bind {A B} (m : M A) (k : A -> M B) :
  store_grows m -> (forall a, store_grows (k a)) -> store_grows (mbind m k).
Proof.
  intros Hm Hk h h' b. unfold mbind.
  destruct (m h) as [[a h1]|e] eqn:E; [|discriminate].
  intros Hb. destruct (Hm _ _ _ E) as [ext1 ->].
  destruct (Hk a _ _ _ Hb) as [ext2 ->].
  exists (ext1 ++ ext2). rewrite app_assoc. reflexivity.
Qed.

Lemma store_grows_load l : store_grows (df_load l).
Proof.
  intros h h' d. unfold df_load. destruct (h !! l); [|discriminate].
  intros [= _ <-]. exists []. rewrite app_nil_r. reflexivity.
Qed.

Lemma store_grows_copy l : store_grows (df_copy l).
Proof.
  intros h h' l'. unfold df_copy. destruct (h !! l) as [d|]; [|discriminate].
  intros [= _ <-]. eauto.
Qed.

Lemma store_grows_run_backtest_ref l position0 cost starting_equity :
  store_grows (run_backtest_ref l position0 cost starting_equity).
Proof.
  unfold run_backtest_ref.
  apply store_grows_bind; [apply store_grows_copy|]. intros l'.
  apply store_grows_bind; [apply store_grows_load|]. intros d.
  apply store_grows_lift.
Qed.

Lemma store_grows_strat_ref strat l params :
  store_grows (strat_ref strat l params).
Proof.
  unfold strat_ref.
  apply store_grows_bind; [apply store_grows_load|]. intros d.
  apply store_grows_lift.
Qed.

Lemma store_grows_column_values l name : store_grows (column_values l name).
Proof.
  unfold column_values.
  apply store_grows_bind; [apply store_grows_load|]. intros d.
  apply store_grows_bind; [apply store_grows_lift|]. intros col.
  apply store_grows_ret.
Qed.

(** The column is written into the copy just taken, behind every frame
    there was. *)
Lemma store_grows_resampled_cagr l pos cost cells :
  store_grows (resampled_cagr l pos cost cells).
Proof.
  intros h h' c. unfold resampled_cagr.
  unfold mbind at 1. unfold df_copy at 1.
  destruct (h !! l) as [d|] eqn:Hl; [|discriminate].
  unfold mbind at 1. unfold df_setitem.
  rewrite lookup_app_r by lia. rewrite Nat.sub_diag. cbn [lookup list_lookup].
  destruct (decide (length cells = length (df_rows d))); [|discriminate].
  rewrite insert_app_r_alt by lia. rewrite Nat.sub_diag.
  cbn [insert list_insert].
  intros Hrest.
  assert (Hg : store_grows
            (run res <- run_backtest_ref (length h) pos (Some cost) 1;
             run perf <- lift (compute_performance (equity res) (returns res));
             mret (cagr (to_dict perf)))).
  { apply store_grows_bind; [apply store_grows_run_backtest_ref|]. intros res.
    apply store_grows_bind; [apply store_grows_lift|]. intros perf.
    apply store_grows_ret. }
  destruct (Hg _ _ _ Hrest) as [ext ->].
  eexists. rewrite <- app_assoc. reflexivity.
Qed.

Lemma store_grows_permutation_loop k : forall rng l pos cost rets n block
  blocks stats,
  store_grows (permutation_loop k rng l pos cost rets n block blocks stats).
Proof.
  induction k as [|k IH]; intros; cbn [permutation_loop].
  - apply store_grows_ret.
  - destruct (rng_permutation rng blocks) as [order rng'].
    apply store_grows_bind; [apply store_grows_lift|]. intros joined.
    apply store_grows_bind; [apply store_grows_resampled_cagr|]. intros c.
    apply IH.
Qed.

Lemma store_grows_bootstrap_loop k : forall rng l pos cost segments n
  cagr_list,
  store_grows (bootstrap_loop k rng l pos cost segments n cagr_list).
Proof.
  induction k as [|k IH]; intros; cbn [bootstrap_loop].
  - apply store_grows_ret.
  - apply store_grows_bind; [apply store_grows_lift|]. intros drawn.
    apply store_grows_bind; [apply store_grows_lift|]. intros joined.
    apply store_grows_bind; [apply store_grows_resampled_cagr|]. intros c.
    apply IH.
Qed.

End StoreGrows.

(** X24. The permutation test and the bootstrap write into copies only:
    when either returns, every frame that the store held before the call
    is in it unchanged, at the same place, and the frames the call made
    come behind them. *)
Theorem resampling_read_only `{Numerics} dfl strat params cost n_iter block
  seed alpha :
  store_grows (permutation_test dfl strat params cost n_iter block seed) /\
  store_grows (bootstrap_ci dfl strat params cost n_iter block seed alpha).
Proof.
  split.
  - unfold permutation_test.
    apply store_grows_bind; [apply store_grows_strat_ref|]. intros pos.
    apply store_grows_bind; [apply store_grows_run_backtest_ref|]. intros res.
    apply store_grows_bind; [apply store_grows_lift|]. intros perf.
    apply store_grows_bind; [apply store_grows_column_values|]. intros rets.
    apply store_grows_bind; [apply store_grows_permutation_loop|].
    intros stats. apply store_grows_ret.
  - unfold bootstrap_ci.
    apply store_grows_bind; [apply store_grows_strat_ref|]. intros pos.
    apply store_grows_bind; [apply store_grows_column_values|]. intros rets.
    apply store_grows_bind; [apply store_grows_bootstrap_loop|].
    intros stats. apply store_grows_ret.
Qed.

Lemma resampling_read_only_witness :
  exists r h',
    @permutation_test toy_numerics 0 ma_cross close_params sample_cost 2 2 7
      [close_frame] = Ok (r, h') /\
    exists ext, h' = [close_frame] ++ ext.
Proof.
  destruct (is_ok_inv (@permutation_test toy_numerics 0 ma_cross close_params
                         sample_cost 2 2 7 [close_frame])) as [[r h'] Hrun];
    [vm_compute; reflexivity|].
  exists r, h'. split; [exact Hrun|].
  destruct (@resampling_read_only toy_numerics 0%nat ma_cross close_params
              sample_cost 2%Z 2%Z 7%Z 0) as [Hperm _].
  apply (Hperm _ _ _ Hrun).
Defined.

(** X25. On a frame without the return column the two resampling
    protocols fail differently, once the strategy has returned its
    positions: the permutation test with the MissingDataError of its first
    backtest, the bootstrap, which reads the column before any backtest,
    with the KeyError of the lookup.  Neither runs a single iteration. *)
Theorem resampling_missing_returns `{Numerics} dfl d strat params cost n_iter
  block seed alpha (h : Store) pos :
  h !! dfl = Some d ->
  "RetSimple"%string ∉ df_columns d ->
  strat d params = Ok pos ->
  permutation_test dfl strat params cost n_iter block seed h
    = Err MissingDataError /\
  bootstrap_ci dfl strat params cost n_iter block seed alpha h
    = Err (KeyError "RetSimple").
Proof.
  intros Hd Hcol Hpos.
  assert (Hstrat : strat_ref strat dfl params h = Ok (pos, h)).
  { unfold strat_ref, mbind, df_load, lift. rewrite Hd, Hpos. reflexivity. }
  assert (Hget : df_get d "RetSimple" = None).
  { unfold df_get. destruct (decide _); [contradiction | reflexivity]. }
  split.
  - unfold permutation_test. unfold mbind at 1. rewrite Hstrat.
    unfold mbind at 1. unfold run_backtest_ref, mbind, df_copy, df_load, lift.
    rewrite Hd. rewrite lookup_app_r by lia. rewrite Nat.sub_diag.
    cbn [lookup list_lookup]. unfold run_backtest, backtest_locals.
    rewrite Hget. reflexivity.
  - unfold bootstrap_ci. unfold mbind at 1. rewrite Hstrat.
    unfold mbind at 1. unfold column_values, mbind, df_load, lift, df_getitem.
    rewrite Hd, Hget. reflexivity.
Qed.

Lemma resampling_missing_returns_witness :
  @permutation_test toy_numerics 0 ma_cross close_params sample_cost 2 2 7
    [close_only_frame] = Err MissingDataError /\
  @bootstrap_ci toy_numerics 0 ma_cross close_params sample_cost 2 2 7
    (1 # 20) [close_only_frame] = Err (KeyError "RetSimple").
Proof.
  destruct (ma_cross close_only_frame close_params) as [pos|] eqn:E;
    [|vm_compute in E; discriminate E].
  apply (@resampling_missing_returns toy_numerics 0%nat close_only_frame
           ma_cross close_params sample_cost 2%Z 2%Z 7%Z (1 # 20)
           [close_only_frame] pos).
  - reflexivity.
  - apply (bool_decide_unpack _). vm_compute. exact I.
  - exact E.
Defined.

(** ** Windows of a frame *)

Section Windows.

Lemma ts_lt_le_trans x b y :
  ts_ltb x b = true -> ts_leb b y = true -> ts_ltb x y = true.
Proof.
  destruct x as [yx mx dx nx], b as [yb mb db nb], y as [yy my dy ny].
  unfold ts_ltb, ts_leb, ts_compare. cbn [year month day nanos].
  repeat match goal with
  | |- context [Z.compare ?p ?q] => destruct (Z.compare_spec p q)
  end; try discriminate; try reflexivity; intros; exfalso; lia.
Qed.

Lemma elem_of_df_between df a b (r : Timestamp * Row) :
  r ∈ df_rows (df_between df a b) <->
  r ∈ df_rows df /\ ts_leb a (fst r) = true /\ ts_ltb (fst r) b = true.
Proof.
  unfold df_between. cbn [df_rows]. rewrite list_elem_of_filter.
  unfold ts_geb. destruct (ts_leb a (fst r)), (ts_ltb (fst r) b); simpl;
    intuition discriminate.
Qed.

End Windows.

(** X26. The windows that [walk_forward] cuts out of a frame keep its
    columns and its rows in their order, and a window [a, b) lies wholly
    before the window [b, c) that follows it: every bar of the training
    window is strictly earlier than every bar of the test window. *)
Theorem df_between_no_lookahead df a b c :
  df_columns (df_between df a b) = df_columns df /\
  sublist (df_rows (df_between df a b)) (df_rows df) /\
  (forall r1 r2 : Timestamp * Row,
      r1 ∈ df_rows (df_between df a b) ->
      r2 ∈ df_rows (df_between df b c) ->
      ts_ltb (fst r1) (fst r2) = true).
Proof.
  split; [reflexivity|]. split.
  - unfold df_between. cbn [df_rows]. apply sublist_filter.
  - intros r1 r2 H1 H2.
    apply elem_of_df_between in H1 as (_ & _ & H1).
    apply elem_of_df_between in H2 as (_ & H2 & _).
    eapply ts_lt_le_trans; eassumption.
Qed.

Lemma df_between_no_lookahead_witness :
  df_columns (df_between long_frame (mkTs 2020 1 1 0) (mkTs 2023 1 1 0))
  = df_columns long_frame /\
  forall r1 r2 : Timestamp * Row,
    r1 ∈ df_rows (df_between long_frame (mkTs 2020 1 1 0) (mkTs 2023 1 1 0)) ->
    r2 ∈ df_rows (df_between long_frame (mkTs 2023 1 1 0) (mkTs 2023 7 1 0)) ->
    ts_ltb (fst r1) (fst r2) = true.
Proof.
  destruct (df_between_no_lookahead long_frame (mkTs 2020 1 1 0)
              (mkTs 2023 1 1 0) (mkTs 2023 7 1 0)) as (Hc & _ & Hbefore).
  split; [exact Hc | exact Hbefore].
Defined.

(** X27. The backtest reads the return column of the frame and nothing
    else: two frames with the same return column (on the same timestamps),
    or both without one, give the same outcome for the same positions,
    costs and starting equity, whatever their other columns hold. *)
Theorem run_backtest_reads_returns df1 df2 position cost starting_equity :
  df_get df1 "RetSimple" = df_get df2 "RetSimple" ->
  run_backtest df1 position cost starting_equity
  = run_backtest df2 position cost starting_equity.
Proof.
  intros Hget. unfold run_backtest, backtest_locals. rewrite <- Hget.
  destruct (df_get df1 "RetSimple") as [ret|] eqn:H1; [|reflexivity].
  assert (Hidx : df_index df1 = df_index df2).
  { unfold df_get in H1, Hget.
    destruct (decide ("RetSimple"%string ∈ df_columns df1));
      [|discriminate].
    destruct (decide ("RetSimple"%string ∈ df_columns df2));
      [|discriminate].
    injection H1 as H1. injection Hget as Hget.
    rewrite <- (index_column_of df1 "RetSimple"),
      <- (index_column_of df2 "RetSimple"). congruence. }
  rewrite Hidx. reflexivity.
Qed.

Lemma run_backtest_reads_returns_witness :
  run_backtest close_frame repeated_position (Some sample_cost) 1
  = run_backtest other_close_frame repeated_position (Some sample_cost) 1.
Proof.
  apply (run_backtest_reads_returns close_frame other_close_frame).
  vm_compute. reflexivity.
Defined.
